(** * zones-mobile: geometric validation and metrics

    A shallow embedding of the zone engine of the application:
    - [src/utils/geometry.js]        (segment intersection, drawing guard),
    - [src/utils/zoneCalculations.js] (area and centre of a zone),
    - [src/utils/zoneValidation.js]   (overlap scan against saved zones),
    - [src/hooks/useZones.js]         (the zone store: add, update, delete),
    - [shared/colors.js]              (the palette),
    - [src/context/ZonesContext.js]   (the drawing, undo and redo, the filter),
    - [App.js]                        (taps on the map, saving, zooming).

    JavaScript numbers are IEEE 754 doubles.  A number is modelled as a
    binary64 value of the Standard Library's [SpecFloat], and the arithmetic
    is its arithmetic: every operation rounds to the nearest double, ties to
    even, overflows to an infinity and keeps the sign of zero; there is one
    [NaN]. *)

From Stdlib Require Import List Bool Arith ZArith.
From Stdlib Require Import Lia Permutation.
From Stdlib Require Import Floats.SpecFloat.
From Stdlib Require String Ascii DecimalString.

Set Warnings "-register-all".
Import ListNotations.

(* ================================================================== *)
(** ** Numbers *)
(* ================================================================== *)

Module JsNumber.

(** The format of a double: 53 bits of mantissa, infinities at exponent
    1024. *)
Definition prec : Z := 53.
Definition emax : Z := 1024.

Definition number : Type := spec_float.

Definition NaN : number := S754_nan.
Definition PInf : number := S754_infinity false.
Definition NInf : number := S754_infinity true.

(** [-x] *)
Definition nneg (x : number) : number := SFopp x.

(** [x + y] *)
Definition nadd (x y : number) : number := SFadd prec emax x y.

(** [x - y] *)
Definition nsub (x y : number) : number := SFsub prec emax x y.

(** [x * y] *)
Definition nmul (x y : number) : number := SFmul prec emax x y.

(** [x / y] *)
Definition ndiv (x y : number) : number := SFdiv prec emax x y.

(** [Math.abs] *)
Definition Math_abs (x : number) : number := SFabs x.

(** [x < y], [x <= y], [x > y], [x >= y] *)
Definition nltb (x y : number) : bool := SFltb x y.
Definition nleb (x y : number) : bool := SFleb x y.
Definition ngtb (x y : number) : bool := nltb y x.
Definition ngeb (x y : number) : bool := nleb y x.

(** [x === y] on numbers: [NaN] equals nothing, the two zeros are equal. *)
Definition neqb (x y : number) : bool := SFeqb x y.

(** The double an integer literal denotes: the integer itself below 2^53,
    the nearest double above. *)
Definition of_Z (z : Z) : number := binary_normalize prec emax z 0 false.

Definition of_nat (n : nat) : number := of_Z (Z.of_nat n).

(** The double a decimal literal denotes, its digits [n] read as
    [n / 10^k]: the double nearest to the quotient, which the division of
    the two integers gives ([n] and [10^k] being doubles themselves). *)
Definition decimal (n : Z) (k : nat) : number :=
  ndiv (of_Z n) (of_Z (10 ^ Z.of_nat k)).

(** [Math.PI], the double nearest to pi: 0x400921FB54442D18. *)
Definition Math_PI : number := S754_finite false 7074237752028440 (-51).

(** [Math.max(x, y)] and [Math.min(x, y)]: [NaN] when an argument is; of
    the two zeros the positive is the greater. *)
Definition max2 (x y : number) : number :=
  match SFcompare x y with
  | None => NaN
  | Some Lt => y
  | Some Gt => x
  | Some Eq => match x with
               | S754_zero true => y
               | _ => x
               end
  end.

Definition min2 (x y : number) : number :=
  match SFcompare x y with
  | None => NaN
  | Some Lt => x
  | Some Gt => y
  | Some Eq => match x with
               | S754_zero false => y
               | _ => x
               end
  end.

(** [Math.max(...xs)] and [Math.min(...xs)]: minus and plus infinity on no
    argument, [NaN] as soon as one argument is. *)
Definition Math_max (xs : list number) : number := fold_left max2 xs NInf.
Definition Math_min (xs : list number) : number := fold_left min2 xs PInf.

(** *** Classes of numbers *)

Definition is_nan (x : number) : bool :=
  match x with
  | S754_nan => true
  | _ => false
  end.

(** Neither [NaN] nor an infinity. *)
Definition is_finite (x : number) : bool :=
  match x with
  | S754_zero _ => true
  | S754_finite _ _ _ => true
  | _ => false
  end.

Definition is_zero (x : number) : bool :=
  match x with
  | S754_zero _ => true
  | _ => false
  end.

(** *** The order and equality of numbers as propositions

    [NaN] is related to nothing, and the two zeros are equal. *)

Definition num_lt (x y : number) : Prop := SFcompare x y = Some Lt.
Definition num_eq (x y : number) : Prop := SFcompare x y = Some Eq.
Definition num_le (x y : number) : Prop := num_lt x y \/ num_eq x y.

(** [p <= q <= r] or [r <= q <= p] *)
Definition between (p q r : number) : Prop :=
  (num_le p q /\ num_le q r) \/ (num_le r q /\ num_le q p).

(** *** Reflection of the comparisons *)

Lemma nltb_iff (x y : number) : nltb x y = true <-> num_lt x y.
Proof.
  unfold nltb, SFltb, num_lt.
  destruct (SFcompare x y) as [[ | | ]|]; split; intro H;
    first [ reflexivity | discriminate H ].
Qed.

Lemma neqb_iff (x y : number) : neqb x y = true <-> num_eq x y.
Proof.
  unfold neqb, SFeqb, num_eq.
  destruct (SFcompare x y) as [[ | | ]|]; split; intro H;
    first [ reflexivity | discriminate H ].
Qed.

Lemma nleb_iff (x y : number) : nleb x y = true <-> num_le x y.
Proof.
  unfold nleb, SFleb, num_le, num_lt, num_eq.
  destruct (SFcompare x y) as [[ | | ]|]; split; intro H;
    try reflexivity; try discriminate H;
    try (left; reflexivity); try (right; reflexivity);
    destruct H as [H | H]; discriminate H.
Qed.

Lemma ngtb_iff (x y : number) : ngtb x y = true <-> num_lt y x.
Proof. apply nltb_iff. Qed.

Lemma ngeb_iff (x y : number) : ngeb x y = true <-> num_le y x.
Proof. apply nleb_iff. Qed.

(** *** The order of the numbers that are not [NaN] *)

Lemma compare_nan (x y : number) :
  SFcompare x y = None <-> is_nan x = true \/ is_nan y = true.
Proof.
  destruct x as [sx|sx| |sx mx ex], y as [sy|sy| |sy my ey];
    cbn [SFcompare is_nan];
    try (split; [ discriminate | intros [H | H]; discriminate H ]);
    try (split; [ intros _; (left; reflexivity) || (right; reflexivity)
                | reflexivity ]).
Qed.

Lemma nleb_nan_l (x y : number) : is_nan x = true -> nleb x y = false.
Proof. destruct x; try discriminate. reflexivity. Qed.

Lemma nleb_nan_r (x y : number) : is_nan y = true -> nleb x y = false.
Proof. destruct y; try discriminate. destruct x; reflexivity. Qed.

Ltac order_cases :=
  repeat match goal with
  | |- context [Z.compare ?a ?b] =>
      destruct (Z.compare_spec a b); try subst
  | |- context [Pos.compare_cont Eq ?a ?b] =>
      change (Pos.compare_cont Eq a b) with (Pos.compare a b);
      destruct (Pos.compare_spec a b); try subst
  | H : context [Z.compare ?a ?b] |- _ =>
      destruct (Z.compare_spec a b); try subst
  | H : context [Pos.compare_cont Eq ?a ?b] |- _ =>
      change (Pos.compare_cont Eq a b) with (Pos.compare a b) in H;
      destruct (Pos.compare_spec a b); try subst
  end.

Lemma nleb_refl (x : number) : is_nan x = false -> nleb x x = true.
Proof.
  destruct x as [s|s| |s m e]; try discriminate; intros _;
    unfold nleb, SFleb; cbn [SFcompare]; try (destruct s; reflexivity).
  rewrite Z.compare_refl, Pos.compare_cont_refl. destruct s; reflexivity.
Qed.

Lemma nleb_total (x y : number) :
  is_nan x = false -> is_nan y = false ->
  nleb x y = true \/ nleb y x = true.
Proof.
  destruct x as [sx|sx| |sx mx ex], y as [sy|sy| |sy my ey];
    try discriminate; intros _ _; unfold nleb, SFleb; cbn [SFcompare];
    try (destruct sx; destruct sy; auto; fail);
    try (destruct sx; auto; fail); try (destruct sy; auto; fail).
  destruct sx, sy; auto; order_cases; cbn [CompOpp]; auto; lia.
Qed.

Lemma nleb_trans (x y z : number) :
  nleb x y = true -> nleb y z = true -> nleb x z = true.
Proof.
  destruct x as [sx|sx| |sx mx ex], y as [sy|sy| |sy my ey],
           z as [sz|sz| |sz mz ez];
    unfold nleb, SFleb; cbn [SFcompare];
    try discriminate; try reflexivity;
    try (destruct sx; try discriminate; try reflexivity;
         destruct sy; try discriminate; try reflexivity;
         destruct sz; try discriminate; reflexivity);
    try (destruct sx; destruct sz; try discriminate; reflexivity);
    try (destruct sy; destruct sz; try discriminate; reflexivity);
    try (destruct sx; destruct sy; try discriminate; reflexivity).
  all: destruct sx, sy, sz; try discriminate; try reflexivity;
    intros H1 H2; order_cases; cbn [CompOpp] in *;
    try discriminate; try reflexivity; try lia.
Qed.

Lemma compare_antisym (x y : number) :
  SFcompare y x = match SFcompare x y with
                  | Some c => Some (CompOpp c)
                  | None => None
                  end.
Proof.
  destruct x as [sx|sx| |sx mx ex], y as [sy|sy| |sy my ey];
    cbn [SFcompare CompOpp]; try reflexivity;
    try (destruct sx; destruct sy; reflexivity);
    try (destruct sx; reflexivity); try (destruct sy; reflexivity).
  destruct sx, sy; try reflexivity;
    rewrite (Z.compare_antisym ey ex);
    change (Pos.compare_cont Eq mx my) with (Pos.compare mx my);
    change (Pos.compare_cont Eq my mx) with (Pos.compare my mx);
    rewrite (Pos.compare_antisym my mx);
    destruct (Z.compare ey ex); cbn [CompOpp]; try reflexivity;
    destruct (Pos.compare my mx); reflexivity.
Qed.

Lemma compare_Lt_nleb (x y : number) :
  SFcompare x y = Some Lt -> nleb x y = true.
Proof. intro H. unfold nleb, SFleb. rewrite H. reflexivity. Qed.

Lemma compare_Eq_nleb (x y : number) :
  SFcompare x y = Some Eq -> nleb x y = true /\ nleb y x = true.
Proof.
  intro H. unfold nleb, SFleb. rewrite (compare_antisym x y), H.
  split; reflexivity.
Qed.

Lemma compare_Gt_nleb (x y : number) :
  SFcompare x y = Some Gt -> nleb y x = true.
Proof.
  intro H. unfold nleb, SFleb. rewrite (compare_antisym x y), H.
  reflexivity.
Qed.

(** *** Greatest and least *)

Lemma max2_NInf (x : number) : max2 NInf x = x.
Proof. destruct x as [s|s| |s m e]; try reflexivity; destruct s; reflexivity. Qed.

Lemma min2_PInf (x : number) : min2 PInf x = x.
Proof. destruct x as [s|s| |s m e]; try reflexivity; destruct s; reflexivity. Qed.

Lemma max2_nan (x y : number) :
  is_nan x = true \/ is_nan y = true -> max2 x y = NaN.
Proof.
  intro H. unfold max2. rewrite (proj2 (compare_nan x y) H). reflexivity.
Qed.

Lemma min2_nan (x y : number) :
  is_nan x = true \/ is_nan y = true -> min2 x y = NaN.
Proof.
  intro H. unfold min2. rewrite (proj2 (compare_nan x y) H). reflexivity.
Qed.

(** [Math.max] and [Math.min] of two numbers return one of the two. *)
Lemma max2_cases (x y : number) :
  is_nan x = false -> is_nan y = false ->
  (max2 x y = x /\ nleb y x = true) \/ (max2 x y = y /\ nleb x y = true).
Proof.
  intros Hx Hy. unfold max2.
  destruct (SFcompare x y) as [[ | | ]|] eqn:E.
  - destruct (compare_Eq_nleb x y E) as [H1 H2].
    destruct x as [[|]| | |]; auto.
  - right. split; [ reflexivity | apply compare_Lt_nleb; exact E ].
  - left. split; [ reflexivity | apply compare_Gt_nleb; exact E ].
  - apply compare_nan in E. destruct E as [E | E]; congruence.
Qed.

Lemma min2_cases (x y : number) :
  is_nan x = false -> is_nan y = false ->
  (min2 x y = x /\ nleb x y = true) \/ (min2 x y = y /\ nleb y x = true).
Proof.
  intros Hx Hy. unfold min2.
  destruct (SFcompare x y) as [[ | | ]|] eqn:E.
  - destruct (compare_Eq_nleb x y E) as [H1 H2].
    destruct x as [[|]| | |]; auto.
  - left. split; [ reflexivity | apply compare_Lt_nleb; exact E ].
  - right. split; [ reflexivity | apply compare_Gt_nleb; exact E ].
  - apply compare_nan in E. destruct E as [E | E]; congruence.
Qed.

Lemma nleb_max2 (q x y : number) :
  is_nan x = false -> is_nan y = false ->
  nleb q (max2 x y) = nleb q x || nleb q y.
Proof.
  intros Hx Hy.
  destruct (max2_cases x y Hx Hy) as [[-> H] | [-> H]].
  - destruct (nleb q x) eqn:Ex; [ reflexivity | ].
    destruct (nleb q y) eqn:Ey; [ | reflexivity ].
    rewrite (nleb_trans q y x Ey H) in Ex. discriminate Ex.
  - destruct (nleb q y) eqn:Ey; [ symmetry; apply orb_true_r | ].
    destruct (nleb q x) eqn:Ex; [ | reflexivity ].
    rewrite (nleb_trans q x y Ex H) in Ey. discriminate Ey.
Qed.

Lemma nleb_min2 (q x y : number) :
  is_nan x = false -> is_nan y = false ->
  nleb (min2 x y) q = nleb x q || nleb y q.
Proof.
  intros Hx Hy.
  destruct (min2_cases x y Hx Hy) as [[-> H] | [-> H]].
  - destruct (nleb x q) eqn:Ex; [ reflexivity | ].
    destruct (nleb y q) eqn:Ey; [ | reflexivity ].
    rewrite (nleb_trans x y q H Ey) in Ex. discriminate Ex.
  - destruct (nleb y q) eqn:Ey; [ symmetry; apply orb_true_r | ].
    destruct (nleb x q) eqn:Ex; [ | reflexivity ].
    rewrite (nleb_trans y x q H Ex) in Ey. discriminate Ey.
Qed.

Lemma is_nan_false_or_true (x : number) : {is_nan x = true} + {is_nan x = false}.
Proof. destruct (is_nan x); [ left | right ]; reflexivity. Qed.

(** The bounding test of the code, on one coordinate, is betweenness. *)
Lemma minmax_between (p q r : number) :
  nleb q (Math_max [p; r]) && ngeb q (Math_min [p; r]) = true <-> between p q r.
Proof.
  unfold between, ngeb, Math_max, Math_min. cbn [fold_left].
  rewrite max2_NInf, min2_PInf, <- !nleb_iff.
  destruct (is_nan_false_or_true p) as [Hp | Hp].
  { rewrite max2_nan by (left; exact Hp).
    rewrite (nleb_nan_r q NaN eq_refl), !(nleb_nan_l p) by exact Hp.
    rewrite !(nleb_nan_r _ p) by exact Hp. cbn [andb].
    split; [ discriminate | intros [[H _] | [_ H]]; discriminate H ]. }
  destruct (is_nan_false_or_true r) as [Hr | Hr].
  { rewrite max2_nan by (right; exact Hr).
    rewrite (nleb_nan_r q NaN eq_refl), !(nleb_nan_l r) by exact Hr.
    rewrite !(nleb_nan_r _ r) by exact Hr. cbn [andb].
    split; [ discriminate | intros [[_ H] | [H _]]; discriminate H ]. }
  destruct (is_nan_false_or_true q) as [Hq | Hq].
  { rewrite !(nleb_nan_l q) by exact Hq.
    rewrite !(nleb_nan_r _ q) by exact Hq. cbn [andb].
    split; [ discriminate | intros [[H _] | [H _]]; discriminate H ]. }
  rewrite nleb_max2, nleb_min2 by assumption.
  pose proof (nleb_total p q Hp Hq) as T1.
  pose proof (nleb_total q r Hq Hr) as T2.
  destruct (nleb q p), (nleb q r), (nleb p q), (nleb r q);
    cbn [orb andb]; intuition discriminate.
Qed.

Definition not_nan (x : number) : Prop := is_nan x = false.

(** [Math.max] and [Math.min] of numbers none of which is [NaN] return one
    of them, the greatest and the least. *)
Lemma fold_max2_bound (xs : list number) (acc : number) :
  not_nan acc -> Forall not_nan xs ->
  In (fold_left max2 xs acc) (acc :: xs) /\
  not_nan (fold_left max2 xs acc) /\
  forall y, In y (acc :: xs) -> nleb y (fold_left max2 xs acc) = true.
Proof.
  revert acc. induction xs as [|x xs IH]; intros acc Hacc Hall.
  - cbn [fold_left]. split; [ left; reflexivity | ].
    split; [ exact Hacc | ].
    intros y [<- | []]. apply nleb_refl. exact Hacc.
  - inversion Hall as [|? ? Hx Hxs]; subst. cbn [fold_left].
    destruct (max2_cases acc x Hacc Hx) as [[E H] | [E H]]; rewrite E.
    + destruct (IH acc Hacc Hxs) as (Hin & Hnan & Hb).
      split; [ destruct Hin as [<- | Hin];
               [ left; reflexivity | right; right; exact Hin ] | ].
      split; [ exact Hnan | ].
      intros y [<- | [<- | Hy]].
      * apply Hb. left. reflexivity.
      * apply (nleb_trans _ acc); [ exact H | apply Hb; left; reflexivity ].
      * apply Hb. right. exact Hy.
    + destruct (IH x Hx Hxs) as (Hin & Hnan & Hb).
      split; [ right; exact Hin | ]. split; [ exact Hnan | ].
      intros y [<- | [<- | Hy]].
      * apply (nleb_trans _ x); [ exact H | apply Hb; left; reflexivity ].
      * apply Hb. left. reflexivity.
      * apply Hb. right. exact Hy.
Qed.

Lemma fold_min2_bound (xs : list number) (acc : number) :
  not_nan acc -> Forall not_nan xs ->
  In (fold_left min2 xs acc) (acc :: xs) /\
  not_nan (fold_left min2 xs acc) /\
  forall y, In y (acc :: xs) -> nleb (fold_left min2 xs acc) y = true.
Proof.
  revert acc. induction xs as [|x xs IH]; intros acc Hacc Hall.
  - cbn [fold_left]. split; [ left; reflexivity | ].
    split; [ exact Hacc | ].
    intros y [<- | []]. apply nleb_refl. exact Hacc.
  - inversion Hall as [|? ? Hx Hxs]; subst. cbn [fold_left].
    destruct (min2_cases acc x Hacc Hx) as [[E H] | [E H]]; rewrite E.
    + destruct (IH acc Hacc Hxs) as (Hin & Hnan & Hb).
      split; [ destruct Hin as [<- | Hin];
               [ left; reflexivity | right; right; exact Hin ] | ].
      split; [ exact Hnan | ].
      intros y [<- | [<- | Hy]].
      * apply Hb. left. reflexivity.
      * apply (nleb_trans _ acc); [ apply Hb; left; reflexivity | exact H ].
      * apply Hb. right. exact Hy.
    + destruct (IH x Hx Hxs) as (Hin & Hnan & Hb).
      split; [ right; exact Hin | ]. split; [ exact Hnan | ].
      intros y [<- | [<- | Hy]].
      * apply (nleb_trans _ x); [ apply Hb; left; reflexivity | exact H ].
      * apply Hb. left. reflexivity.
      * apply Hb. right. exact Hy.
Qed.

Lemma Math_max_bound (x : number) (xs : list number) :
  Forall not_nan (x :: xs) ->
  In (Math_max (x :: xs)) (x :: xs) /\
  not_nan (Math_max (x :: xs)) /\
  forall y, In y (x :: xs) -> nleb y (Math_max (x :: xs)) = true.
Proof.
  intro Hall. inversion Hall as [|? ? Hx Hxs]; subst.
  unfold Math_max. cbn [fold_left]. rewrite max2_NInf.
  apply fold_max2_bound; assumption.
Qed.

Lemma Math_min_bound (x : number) (xs : list number) :
  Forall not_nan (x :: xs) ->
  In (Math_min (x :: xs)) (x :: xs) /\
  not_nan (Math_min (x :: xs)) /\
  forall y, In y (x :: xs) -> nleb (Math_min (x :: xs)) y = true.
Proof.
  intro Hall. inversion Hall as [|? ? Hx Hxs]; subst.
  unfold Math_min. cbn [fold_left]. rewrite min2_PInf.
  apply fold_min2_bound; assumption.
Qed.

Lemma num_lt_nleb_false (x y : number) : num_lt x y -> nleb y x = false.
Proof.
  intro H. unfold nleb, SFleb. rewrite (compare_antisym x y), H. reflexivity.
Qed.

Lemma num_lt_not_nan (x y : number) :
  num_lt x y -> is_nan x = false /\ is_nan y = false.
Proof.
  intro H. unfold num_lt in H.
  destruct x as [sx|sx| |sx mx ex]; try discriminate H;
    destruct y as [sy|sy| |sy my ey]; try discriminate H;
    split; reflexivity.
Qed.

(** The least and the greatest of numbers that are [a] or [b], both among
    them, [a] less than [b]. *)
Lemma Math_min_max_ordered (a b : number) (xs : list number) :
  num_lt a b -> In a xs -> In b xs -> (forall y, In y xs -> y = a \/ y = b) ->
  Math_min xs = a /\ Math_max xs = b.
Proof.
  intros Hab Ha Hb Hall.
  destruct (num_lt_not_nan a b Hab) as [Hna Hnb].
  destruct xs as [|x xs]; [ contradiction | ].
  assert (Hnn : Forall not_nan (x :: xs)).
  { apply Forall_forall. intros y Hy.
    destruct (Hall y Hy) as [-> | ->]; assumption. }
  destruct (Math_min_bound x xs Hnn) as (Hm & _ & Hmin).
  destruct (Math_max_bound x xs Hnn) as (HM & _ & Hmax).
  pose proof (num_lt_nleb_false a b Hab) as Hba.
  split.
  - destruct (Hall _ Hm) as [E | E]; [ exact E | ].
    specialize (Hmin a Ha). rewrite E in Hmin. congruence.
  - destruct (Hall _ HM) as [E | E]; [ | exact E ].
    specialize (Hmax b Hb). rewrite E in Hmax. congruence.
Qed.

(** The least and the greatest of the numbers [xs], none of them [NaN]. *)
Definition bounds (m M : number) (xs : list number) : Prop :=
  In m xs /\ In M xs /\
  forall y, In y xs -> nleb m y = true /\ nleb y M = true.

Lemma Math_min_max_bounds (x : number) (xs : list number) :
  Forall not_nan (x :: xs) ->
  bounds (Math_min (x :: xs)) (Math_max (x :: xs)) (x :: xs).
Proof.
  intro Hnn.
  destruct (Math_min_bound x xs Hnn) as (Hm & _ & Hmin).
  destruct (Math_max_bound x xs Hnn) as (HM & _ & Hmax).
  split; [ exact Hm | ]. split; [ exact HM | ].
  intros y Hy. split; [ apply Hmin | apply Hmax ]; exact Hy.
Qed.

(** *** The doubles of the natural numbers

    A positive integer is a positive double or, above the range, plus
    infinity: never a zero. *)

Lemma shr_1_pos (q : positive) (r s : bool) :
  (1 < Zpos (digits2_pos q))%Z ->
  exists (q' : positive) (r' s' : bool),
    shr_1 (Build_shr_record (Zpos q) r s) = Build_shr_record (Zpos q') r' s' /\
    (Zpos (digits2_pos q') = Zpos (digits2_pos q) - 1)%Z.
Proof.
  intro H. destruct q as [q|q|]; cbn [shr_1 digits2_pos] in *.
  - do 3 eexists. split; [ reflexivity | lia ].
  - do 3 eexists. split; [ reflexivity | lia ].
  - lia.
Qed.

Lemma iter_shr_1_pos (k : positive) :
  forall (q : positive) (r s : bool),
    (Zpos k < Zpos (digits2_pos q))%Z ->
    exists (q' : positive) (r' s' : bool),
      iter_pos shr_1 k (Build_shr_record (Zpos q) r s) =
      Build_shr_record (Zpos q') r' s' /\
      (Zpos (digits2_pos q') = Zpos (digits2_pos q) - Zpos k)%Z.
Proof.
  induction k as [k IH|k IH|]; intros q r s H; cbn [iter_pos].
  - destruct (shr_1_pos q r s) as (q1 & r1 & s1 & -> & H1); [ lia | ].
    destruct (IH q1 r1 s1) as (q2 & r2 & s2 & -> & H2); [ lia | ].
    destruct (IH q2 r2 s2) as (q3 & r3 & s3 & -> & H3); [ lia | ].
    do 3 eexists. split; [ reflexivity | lia ].
  - destruct (IH q r s) as (q2 & r2 & s2 & -> & H2); [ lia | ].
    destruct (IH q2 r2 s2) as (q3 & r3 & s3 & -> & H3); [ lia | ].
    do 3 eexists. split; [ reflexivity | lia ].
  - destruct (shr_1_pos q r s) as (q1 & r1 & s1 & -> & H1); [ lia | ].
    do 3 eexists. split; [ reflexivity | lia ].
Qed.

(** A shift by less than the number of digits leaves a positive
    mantissa, and no lesser exponent. *)
Lemma shr_pos (q : positive) (r s : bool) (e n : Z) :
  (n < Zpos (digits2_pos q))%Z ->
  exists (q' : positive) (r' s' : bool) (e' : Z),
    shr (Build_shr_record (Zpos q) r s) e n =
    (Build_shr_record (Zpos q') r' s', e') /\ (e <= e')%Z.
Proof.
  intro H. destruct n as [|k|k]; cbn [shr].
  - do 4 eexists. split; [ reflexivity | lia ].
  - destruct (iter_shr_1_pos k q r s H) as (q' & r' & s' & -> & _).
    do 4 eexists. split; [ reflexivity | lia ].
  - do 4 eexists. split; [ reflexivity | lia ].
Qed.

Lemma fexp_shift (d e : Z) :
  (0 < d)%Z -> (-1074 <= e)%Z ->
  (fexp prec emax (d + e) - e < d)%Z \/ (fexp prec emax (d + e) - e <= 0)%Z.
Proof.
  intros Hd He. unfold fexp, emin, prec, emax.
  destruct (Z.max_spec (d + e - 53) (3 - 1024 - 53)) as [[_ ->] | [_ ->]]; lia.
Qed.

Lemma shr_fexp_pos (q : positive) (e : Z) (l : location) :
  (-1074 <= e)%Z ->
  exists (q' : positive) (r' s' : bool) (e' : Z),
    shr_fexp prec emax (Zpos q) e l =
    (Build_shr_record (Zpos q') r' s', e') /\ (e <= e')%Z.
Proof.
  intro He. unfold shr_fexp. cbn [Zdigits2].
  assert (Hrec : exists r s, shr_record_of_loc (Zpos q) l =
                             Build_shr_record (Zpos q) r s)
    by (destruct l as [|[ | | ]]; do 2 eexists; reflexivity).
  destruct Hrec as (r & s & ->).
  destruct (fexp_shift (Zpos (digits2_pos q)) e) as [H | H]; [ lia | lia | | ].
  - apply shr_pos. exact H.
  - apply shr_pos. lia.
Qed.

(** Rounding a positive mantissa gives a positive double or an infinity,
    and no lesser exponent. *)
Lemma binary_round_aux_pos (sx : bool) (q : positive) (e : Z) (l : location) :
  (-1074 <= e)%Z ->
  (exists (m : positive) (e' : Z),
      binary_round_aux prec emax sx (Zpos q) e l = S754_finite sx m e' /\
      (e <= e')%Z) \/
  binary_round_aux prec emax sx (Zpos q) e l = S754_infinity sx.
Proof.
  intro He. unfold binary_round_aux.
  destruct (shr_fexp_pos q e l He) as (q1 & r1 & s1 & e1 & -> & H1).
  cbn [shr_m].
  assert (Hround : exists q2 : positive,
             round_nearest_even (Zpos q1)
               (loc_of_shr_record (Build_shr_record (Zpos q1) r1 s1)) =
             Zpos q2).
  { destruct r1, s1; cbn [loc_of_shr_record round_nearest_even];
      try (eexists; reflexivity);
      try (destruct (Z.even (Zpos q1)); eexists; reflexivity). }
  destruct Hround as (q2 & ->).
  destruct (shr_fexp_pos q2 e1 loc_Exact) as (q3 & r3 & s3 & e3 & -> & H3);
    [ lia | ].
  cbn [shr_m].
  destruct (Z.leb e3 (emax - prec)); [ left | right; reflexivity ].
  do 2 eexists. split; [ reflexivity | lia ].
Qed.

Lemma digits2_pos_positive (p : positive) : (0 < Zpos (digits2_pos p))%Z.
Proof. lia. Qed.

Lemma of_Z_pos (p : positive) :
  (exists (m : positive) (e : Z),
      of_Z (Zpos p) = S754_finite false m e /\
      (Z.min 0 (Zpos (digits2_pos p) - 53) <= e)%Z) \/
  of_Z (Zpos p) = S754_infinity false.
Proof.
  unfold of_Z, binary_normalize, binary_round.
  destruct (shl_align p 0 (fexp prec emax (Zpos (digits2_pos p) + 0)))
    as [mz ez] eqn:E.
  assert (Hez : (Z.min 0 (Zpos (digits2_pos p) - 53) <= ez)%Z).
  { unfold shl_align in E.
    assert (HM : (Zpos (digits2_pos p) + 0 - 53 <=
                  fexp prec emax (Zpos (digits2_pos p) + 0))%Z)
      by apply Z.le_max_l.
    destruct (fexp prec emax (Zpos (digits2_pos p) + 0) - 0)%Z;
      injection E as _ <-; rewrite ?Z.add_0_r in *; lia. }
  destruct (binary_round_aux_pos false mz ez loc_Exact)
    as [(m & e & -> & He) | ->]; [ lia | left | right; reflexivity ].
  exists m, e. split; [ reflexivity | lia ].
Qed.

(** [n === 0] and [n === 1] on the double of a natural number are the
    comparisons of the natural number. *)
Lemma of_nat_is_zero (n : nat) : neqb (of_nat n) (of_Z 0) = Nat.eqb n 0.
Proof.
  destruct n as [|n]; [ reflexivity | ].
  unfold of_nat. rewrite Nat2Z.inj_succ, <- Z.add_1_r.
  destruct (Z.of_nat n + 1)%Z as [|p|p] eqn:E; try lia.
  destruct (of_Z_pos p) as [(m & e & -> & _) | ->]; reflexivity.
Qed.

Lemma of_nat_is_one (n : nat) : neqb (of_nat n) (of_Z 1) = Nat.eqb n 1.
Proof.
  destruct n as [|[|n]]; try reflexivity.
  unfold of_nat.
  destruct (Z.of_nat (S (S n))) as [|p|p] eqn:E; try lia.
  assert (Hp : (2 <= Zpos (digits2_pos p))%Z).
  { destruct p as [p|p|]; cbn [digits2_pos]; lia. }
  destruct (of_Z_pos p) as [(m & e & -> & He) | ->]; [ | reflexivity ].
  cbn [Nat.eqb]. unfold neqb, SFeqb.
  change (of_Z 1) with (S754_finite false 4503599627370496 (-52)).
  cbn [SFcompare].
  destruct (Z.compare_spec e (-52)); try reflexivity; lia.
Qed.

(** *** Signs

    Rounding does not look at the sign: the operations commute with the
    change of sign and with the absolute value. *)

Lemma SFopp_binary_round_aux (sx : bool) (m e : Z) (l : location) :
  SFopp (binary_round_aux prec emax sx m e l) =
  binary_round_aux prec emax (negb sx) m e l.
Proof.
  unfold binary_round_aux.
  destruct (shr_fexp prec emax m e l) as [mrs' e'].
  destruct (shr_fexp prec emax _ e' loc_Exact) as [mrs'' e''].
  destruct (shr_m mrs''); [ reflexivity | | reflexivity ].
  destruct (Z.leb e'' (emax - prec)); reflexivity.
Qed.

Lemma SFabs_binary_round_aux (sx : bool) (m e : Z) (l : location) :
  SFabs (binary_round_aux prec emax sx m e l) =
  binary_round_aux prec emax false m e l.
Proof.
  unfold binary_round_aux.
  destruct (shr_fexp prec emax m e l) as [mrs' e'].
  destruct (shr_fexp prec emax _ e' loc_Exact) as [mrs'' e''].
  destruct (shr_m mrs''); [ reflexivity | | reflexivity ].
  destruct (Z.leb e'' (emax - prec)); reflexivity.
Qed.

Lemma SFopp_binary_round (sx : bool) (m : positive) (e : Z) :
  SFopp (binary_round prec emax sx m e) = binary_round prec emax (negb sx) m e.
Proof.
  unfold binary_round.
  destruct (shl_align m e _) as [mz ez]. apply SFopp_binary_round_aux.
Qed.

Lemma SFopp_binary_normalize (z e : Z) :
  z <> 0%Z ->
  binary_normalize prec emax (- z) e false =
  SFopp (binary_normalize prec emax z e false).
Proof.
  intro Hz. destruct z as [|p|p]; [ contradiction | | ];
    cbn [Z.opp binary_normalize]; rewrite SFopp_binary_round; reflexivity.
Qed.

(** [Math.abs(x / 2)] is [Math.abs(x) / 2]. *)
Lemma abs_half (x : number) :
  Math_abs (ndiv x (of_Z 2)) = ndiv (Math_abs x) (of_Z 2).
Proof.
  change (of_Z 2) with (S754_finite false 4503599627370496 (-51)).
  destruct x as [s|s| |s m e]; try reflexivity.
  unfold Math_abs, ndiv. cbn [SFabs SFdiv].
  destruct (SFdiv_core_binary prec emax (Zpos m) e
              (Zpos 4503599627370496) (-51)) as [[mz ez] lz].
  rewrite SFabs_binary_round_aux. destruct s; reflexivity.
Qed.


Lemma SFopp_involutive (x : number) : SFopp (SFopp x) = x.
Proof. destruct x as [s|s| |s m e]; cbn [SFopp]; rewrite ?negb_involutive; reflexivity. Qed.


(** [y - x] is [-(x - y)], but for the sign of a zero. *)
Lemma nsub_swap (x y : number) :
  is_zero (nsub x y) = false -> nsub y x = nneg (nsub x y).
Proof.
  unfold nsub, nneg.
  destruct x as [sx|sx| |sx mx ex]; destruct y as [sy|sy| |sy my ey];
    try reflexivity;
    try (destruct sx, sy; (reflexivity || discriminate));
    try (destruct sx; reflexivity);
    try (destruct sy; reflexivity).
  cbn [SFsub]. intro Hz.
  rewrite (Z.min_comm ey ex).
  set (a := cond_Zopp sx (Zpos (fst (shl_align mx ex (Z.min ex ey))))) in *.
  set (b := cond_Zopp sy (Zpos (fst (shl_align my ey (Z.min ex ey))))) in *.
  replace (b - a)%Z with (- (a - b))%Z by lia.
  apply SFopp_binary_normalize.
  intro H0. rewrite H0 in Hz. discriminate Hz.
Qed.

Lemma nsub_swap_zero (x y : number) :
  is_zero (nsub x y) = true -> is_zero (nsub y x) = true.
Proof.
  unfold nsub.
  destruct x as [sx|sx| |sx mx ex]; destruct y as [sy|sy| |sy my ey];
    try discriminate;
    try (destruct sx, sy; (reflexivity || discriminate)).
  cbn [SFsub]. intro Hz.
  rewrite (Z.min_comm ey ex).
  set (a := cond_Zopp sx (Zpos (fst (shl_align mx ex (Z.min ex ey))))) in *.
  set (b := cond_Zopp sy (Zpos (fst (shl_align my ey (Z.min ex ey))))) in *.
  destruct (Z.eq_dec (a - b) 0) as [E | E].
  - replace (b - a)%Z with 0%Z by lia. reflexivity.
  - replace (b - a)%Z with (- (a - b))%Z by lia.
    rewrite SFopp_binary_normalize by exact E.
    destruct (binary_normalize prec emax (a - b) (Z.min ex ey) false);
      (exact Hz || discriminate Hz).
Qed.


(** A finite number and its opposite add up to zero. *)
Lemma nadd_opp (x : number) :
  is_finite x = true -> nadd x (nneg x) = S754_zero false.
Proof.
  destruct x as [s|s| |s m e]; try discriminate; intros _.
  - destruct s; reflexivity.
  - unfold nadd, nneg. cbn [SFopp SFadd].
    assert (H : (cond_Zopp s (Zpos (fst (shl_align m e (Z.min e e)))) +
                 cond_Zopp (negb s) (Zpos (fst (shl_align m e (Z.min e e)))))%Z
                = 0%Z)
      by (destruct s; cbn [negb cond_Zopp]; lia).
    rewrite H. reflexivity.
Qed.

Lemma nadd_zero_l (x : number) :
  is_zero x = false -> nadd (S754_zero false) x = x.
Proof. destruct x as [s|s| |s m e]; try discriminate; reflexivity. Qed.

Lemma nadd_zero_zero (x y : number) :
  is_zero x = true -> is_zero y = true -> is_zero (nadd x y) = true.
Proof.
  destruct x as [sx|sx| |sx mx ex]; try discriminate.
  destruct y as [sy|sy| |sy my ey]; try discriminate.
  destruct sx, sy; reflexivity.
Qed.

(** *** Exact zeros

    The difference of a finite number and itself is zero, a zero times a
    finite number is a zero, and the difference of two zeros is a zero. *)

Lemma nsub_diag (x : number) :
  is_finite x = true -> nsub x x = S754_zero false.
Proof.
  destruct x as [s|s| |s m e]; try discriminate; intros _.
  - destruct s; reflexivity.
  - unfold nsub. cbn [SFsub]. rewrite Z.sub_diag. reflexivity.
Qed.

Lemma nmul_zero_l (x y : number) :
  is_zero x = true -> is_finite y = true -> is_zero (nmul x y) = true.
Proof.
  destruct x as [sx|sx| |sx mx ex]; try discriminate.
  destruct y as [sy|sy| |sy my ey]; try discriminate; reflexivity.
Qed.

Lemma nmul_zero_r (x y : number) :
  is_finite x = true -> is_zero y = true -> is_zero (nmul x y) = true.
Proof.
  destruct y as [sy|sy| |sy my ey]; try discriminate.
  destruct x as [sx|sx| |sx mx ex]; try discriminate; reflexivity.
Qed.

Lemma nsub_zero_zero (x y : number) :
  is_zero x = true -> is_zero y = true -> is_zero (nsub x y) = true.
Proof.
  destruct x as [sx|sx| |sx mx ex]; try discriminate.
  destruct y as [sy|sy| |sy my ey]; try discriminate.
  destruct sx, sy; reflexivity.
Qed.

Lemma is_zero_neqb (x : number) (s : bool) :
  is_zero x = true -> neqb x (S754_zero s) = true.
Proof. destruct x; try discriminate. reflexivity. Qed.

Lemma is_zero_finite (x : number) : is_zero x = true -> is_finite x = true.
Proof. destruct x; try discriminate. reflexivity. Qed.

Lemma is_finite_not_nan (x : number) : is_finite x = true -> not_nan x.
Proof. destruct x; try discriminate; reflexivity. Qed.

End JsNumber.

(* ================================================================== *)
(** ** [src/utils/geometry.js] *)
(* ================================================================== *)

Module Geometry.

Import JsNumber.

(** A point of the drawing layer is the array [[lat, lng]]: [p[0]] is the
    first component, [p[1]] the second. *)
Definition point : Type := (number * number)%type.

Definition zero : number := S754_zero false.

(** [direction(p1, p2, p3)] *)
Definition direction (p1 p2 p3 : point) : number :=
  nsub (nmul (nsub (snd p3) (snd p1)) (nsub (fst p2) (fst p1)))
       (nmul (nsub (snd p2) (snd p1)) (nsub (fst p3) (fst p1))).

(** [onSegment(p, q, r)] *)
Definition onSegment (p q r : point) : bool :=
  nleb (fst q) (Math_max [fst p; fst r]) &&
  ngeb (fst q) (Math_min [fst p; fst r]) &&
  nleb (snd q) (Math_max [snd p; snd r]) &&
  ngeb (snd q) (Math_min [snd p; snd r]).

(** [doLinesIntersect(p1, p2, p3, p4)] *)
Definition doLinesIntersect (p1 p2 p3 p4 : point) : bool :=
  let d1 := direction p3 p4 p1 in
  let d2 := direction p3 p4 p2 in
  let d3 := direction p1 p2 p3 in
  let d4 := direction p1 p2 p4 in
  if ((ngtb d1 zero && nltb d2 zero) || (nltb d1 zero && ngtb d2 zero)) &&
     ((ngtb d3 zero && nltb d4 zero) || (nltb d3 zero && ngtb d4 zero))
  then true
  else if neqb d1 zero && onSegment p3 p1 p4 then true
  else if neqb d2 zero && onSegment p3 p2 p4 then true
  else if neqb d3 zero && onSegment p1 p3 p2 then true
  else if neqb d4 zero && onSegment p1 p4 p2 then true
  else false.

(** [existingPoints[i]]; the loops below only read indices of the array. *)
Definition at_index (existingPoints : list point) (i : nat) : point :=
  nth i existingPoints (NaN, NaN).

(** The first loop of [wouldIntersect], over the indices still to visit:
    the new line against the existing lines, the one it extends skipped. *)
Fixpoint newLine_loop (existingPoints : list point) (newLine : point * point)
         (todo : list nat) : bool :=
  match todo with
  | [] => false
  | i :: rest =>
      let existingLine := (at_index existingPoints i,
                           at_index existingPoints (i + 1)) in
      if Nat.eqb i (length existingPoints - 2)
      then newLine_loop existingPoints newLine rest
      else if doLinesIntersect (fst newLine) (snd newLine)
                               (fst existingLine) (snd existingLine)
      then true
      else newLine_loop existingPoints newLine rest
  end.

(** The second loop: the closing line against the existing lines. *)
Fixpoint closingLine_loop (existingPoints : list point)
         (closingLine : point * point) (todo : list nat) : bool :=
  match todo with
  | [] => false
  | i :: rest =>
      let existingLine := (at_index existingPoints i,
                           at_index existingPoints (i + 1)) in
      if doLinesIntersect (fst closingLine) (snd closingLine)
                          (fst existingLine) (snd existingLine)
      then true
      else closingLine_loop existingPoints closingLine rest
  end.

(** [wouldIntersect(existingPoints, newPoint)]; the first loop runs over
    [0 <= i < length - 1], the second over [1 <= i < length - 1]. *)
Definition wouldIntersect (existingPoints : list point) (newPoint : point)
  : bool :=
  if Nat.ltb (length existingPoints) 2 then false
  else
    let lastPoint := at_index existingPoints (length existingPoints - 1) in
    let newLine := (lastPoint, newPoint) in
    if newLine_loop existingPoints newLine (seq 0 (length existingPoints - 1))
    then true
    else if Nat.leb 2 (length existingPoints) then
      let closingLine := (newPoint, at_index existingPoints 0) in
      closingLine_loop existingPoints closingLine
                       (seq 1 (length existingPoints - 1 - 1))
    else false.

(** *** The orientation algorithm as the specification words it *)

Definition lat (p : point) : number := fst p.
Definition lng (p : point) : number := snd p.

(** [(r.lng - p.lng)(q.lat - p.lat) - (q.lng - p.lng)(r.lat - p.lat)] *)
Definition orientation (p q r : point) : number :=
  nsub (nmul (nsub (lng r) (lng p)) (nsub (lat q) (lat p)))
       (nmul (nsub (lng q) (lng p)) (nsub (lat r) (lat p))).

Definition strictly_opposite (x y : number) : Prop :=
  (num_lt zero x /\ num_lt y zero) \/ (num_lt x zero /\ num_lt zero y).

(** [q] lies coordinate-wise between the endpoints [p] and [r]. *)
Definition in_bounding_box (p q r : point) : Prop :=
  between (lat p) (lat q) (lat r) /\ between (lng p) (lng q) (lng r).

Definition segments_share_point (a1 a2 b1 b2 : point) : Prop :=
  let d1 := orientation b1 b2 a1 in
  let d2 := orientation b1 b2 a2 in
  let d3 := orientation a1 a2 b1 in
  let d4 := orientation a1 a2 b2 in
  (strictly_opposite d1 d2 /\ strictly_opposite d3 d4) \/
  (num_eq d1 zero /\ in_bounding_box b1 a1 b2) \/
  (num_eq d2 zero /\ in_bounding_box b1 a2 b2) \/
  (num_eq d3 zero /\ in_bounding_box a1 b1 a2) \/
  (num_eq d4 zero /\ in_bounding_box a1 b2 a2).

(** The drawing guard with the closing line tested against the lines
    numbered [2 .. length - 2] only, as the specification numbers them. *)
Definition wouldIntersect_edges_2 (existingPoints : list point)
           (newPoint : point) : bool :=
  if Nat.ltb (length existingPoints) 2 then false
  else
    let lastPoint := at_index existingPoints (length existingPoints - 1) in
    newLine_loop existingPoints (lastPoint, newPoint)
                 (seq 0 (length existingPoints - 1)) ||
    closingLine_loop existingPoints (newPoint, at_index existingPoints 0)
                     (seq 2 (length existingPoints - 2 - 1)).

(** *** Segment intersection *)

Lemma onSegment_iff (p q r : point) :
  onSegment p q r = true <-> in_bounding_box p q r.
Proof.
  unfold onSegment, in_bounding_box, lat, lng.
  rewrite <- andb_assoc, andb_true_iff, !minmax_between. tauto.
Qed.

Lemma straddle_iff (x y : number) :
  (ngtb x zero && nltb y zero) || (nltb x zero && ngtb y zero) = true
  <-> strictly_opposite x y.
Proof.
  unfold strictly_opposite.
  rewrite orb_true_iff, !andb_true_iff, !ngtb_iff, !nltb_iff. tauto.
Qed.

Lemma orientation_direction (p q r : point) :
  orientation p q r = direction p q r.
Proof. reflexivity. Qed.

(** C1. [doLinesIntersect(a1, a2, b1, b2)] is true exactly when the
    orientation algorithm detects a shared point: [d1], [d2] of strictly
    opposite signs and [d3], [d4] of strictly opposite signs, or some [dk]
    equal to zero with its point inside the bounding box of the other
    segment. *)
Theorem doLinesIntersect_orientation (a1 a2 b1 b2 : point) :
  doLinesIntersect a1 a2 b1 b2 = true <-> segments_share_point a1 a2 b1 b2.
Proof.
  unfold doLinesIntersect, segments_share_point.
  change (orientation b1 b2 a1) with (direction b1 b2 a1).
  change (orientation b1 b2 a2) with (direction b1 b2 a2).
  change (orientation a1 a2 b1) with (direction a1 a2 b1).
  change (orientation a1 a2 b2) with (direction a1 a2 b2).
  set (d1 := direction b1 b2 a1). set (d2 := direction b1 b2 a2).
  set (d3 := direction a1 a2 b1). set (d4 := direction a1 a2 b2).
  cbv zeta.
  rewrite <- (straddle_iff d1 d2), <- (straddle_iff d3 d4).
  rewrite <- !neqb_iff, <- !onSegment_iff, <- !andb_true_iff.
  destruct (((ngtb d1 zero && nltb d2 zero) || (nltb d1 zero && ngtb d2 zero)) &&
            ((ngtb d3 zero && nltb d4 zero) || (nltb d3 zero && ngtb d4 zero)));
    [ tauto | ].
  destruct (neqb d1 zero && onSegment b1 a1 b2); [ tauto | ].
  destruct (neqb d2 zero && onSegment b1 a2 b2); [ tauto | ].
  destruct (neqb d3 zero && onSegment a1 b1 a2); [ tauto | ].
  destruct (neqb d4 zero && onSegment a1 b2 a2); [ tauto | ].
  split; [ discriminate | ].
  intros [H|[H|[H|[H|H]]]]; discriminate H.
Qed.

(** *** The drawing guard *)

Lemma closingLine_loop_existsb (pts : list point) (cl : point * point)
      (todo : list nat) :
  closingLine_loop pts cl todo =
  existsb (fun i => doLinesIntersect (fst cl) (snd cl)
                      (at_index pts i) (at_index pts (i + 1))) todo.
Proof.
  induction todo as [|i rest IH]; simpl; [ reflexivity | ].
  rewrite IH. destruct (doLinesIntersect _ _ _ _); reflexivity.
Qed.

Lemma newLine_loop_existsb (pts : list point) (nl : point * point)
      (todo : list nat) :
  newLine_loop pts nl todo =
  existsb (fun i => negb (Nat.eqb i (length pts - 2)) &&
                    doLinesIntersect (fst nl) (snd nl)
                      (at_index pts i) (at_index pts (i + 1))) todo.
Proof.
  induction todo as [|i rest IH]; simpl; [ reflexivity | ].
  rewrite IH. destruct (Nat.eqb i (length pts - 2)); simpl; [ reflexivity | ].
  destruct (doLinesIntersect _ _ _ _); reflexivity.
Qed.

Lemma existsb_agree {A : Type} (f g : A -> bool) (l : list A) :
  (forall x, In x l -> f x = g x) -> existsb f l = existsb g l.
Proof.
  induction l as [|a l IH]; intro H; simpl; [ reflexivity | ].
  rewrite (H a (or_introl eq_refl)), IH; [ reflexivity | ].
  intros x Hx. apply H. right. exact Hx.
Qed.

Lemma existsb_skip_last (f : nat -> bool) (m : nat) :
  existsb (fun i => negb (Nat.eqb i m) && f i) (seq 0 (S m)) =
  existsb f (seq 0 m).
Proof.
  rewrite seq_S, existsb_app. simpl. rewrite Nat.eqb_refl. simpl.
  rewrite orb_false_r.
  apply existsb_agree. intros i Hi. apply in_seq in Hi.
  destruct (Nat.eqb_spec i m); [ lia | reflexivity ].
Qed.

(** C2 (as the code has it). The closing line [newPoint -> existingPoints[0]]
    is tested against the existing lines that start at the indices
    [1 .. length - 2], every line but the one that starts at the first point;
    the new line is tested against those that start at [0 .. length - 3];
    the guard rejects as soon as one of these tests detects an
    intersection. *)
Theorem wouldIntersect_closing_line (existingPoints : list point)
        (newPoint : point) :
  let n := length existingPoints in
  let lastPoint := at_index existingPoints (n - 1) in
  let firstPoint := at_index existingPoints 0 in
  wouldIntersect existingPoints newPoint =
  existsb (fun i => doLinesIntersect lastPoint newPoint
                      (at_index existingPoints i)
                      (at_index existingPoints (i + 1)))
          (seq 0 (n - 2)) ||
  existsb (fun i => doLinesIntersect newPoint firstPoint
                      (at_index existingPoints i)
                      (at_index existingPoints (i + 1)))
          (seq 1 (n - 2)).
Proof.
  cbv zeta. unfold wouldIntersect.
  destruct (Nat.ltb (length existingPoints) 2) eqn:Hlt.
  - apply Nat.ltb_lt in Hlt.
    replace (length existingPoints - 2)%nat with 0%nat by lia. reflexivity.
  - apply Nat.ltb_ge in Hlt.
    rewrite newLine_loop_existsb, closingLine_loop_existsb.
    replace (length existingPoints - 1)%nat
      with (S (length existingPoints - 2)) by lia.
    rewrite existsb_skip_last. cbn [fst snd].
    replace (S (length existingPoints - 2) - 1)%nat
      with (length existingPoints - 2)%nat by lia.
    destruct (Nat.leb 2 (length existingPoints)) eqn:Hle;
      [ | apply Nat.leb_gt in Hle; lia ].
    destruct (existsb _ (seq 0 _)); reflexivity.
Qed.

Definition triangle_ring : list point :=
  [(of_Z 0, of_Z 0); (of_Z 10, of_Z 0); (of_Z 10, of_Z 10)].

(** C2 (as stated) fails. On a ring of three points the lines numbered
    [2 .. length - 2] are none, yet the guard rejects the candidate
    [[20, 5]]: its closing line crosses the line from index 1 to index 2,
    while its new line meets no line it is tested against. *)
Lemma wouldIntersect_closing_range_counterexample :
  wouldIntersect triangle_ring (of_Z 20, of_Z 5) = true /\
  wouldIntersect_edges_2 triangle_ring (of_Z 20, of_Z 5) = false /\
  seq 2 (length triangle_ring - 2 - 1) = [] /\
  doLinesIntersect (of_Z 20, of_Z 5) (at_index triangle_ring 0)
                   (at_index triangle_ring 1) (at_index triangle_ring 2) = true.
Proof. repeat split; vm_compute; reflexivity. Qed.

(** A zero orientation is never one of two strictly opposite signs: a
    collinear point takes the bounding-box test, not the crossing test. *)
Lemma zero_is_no_crossing (x y : number) :
  num_eq x zero -> ~ strictly_opposite x y /\ ~ strictly_opposite y x.
Proof.
  unfold strictly_opposite, num_eq, num_lt. intro Hx.
  pose proof (compare_antisym x zero) as Ha. rewrite Hx in Ha.
  cbn [CompOpp] in Ha.
  split; intros [[H1 H2] | [H1 H2]]; congruence.
Qed.

(** The guard accepts the fourth corner of a square, and the third point of
    a ring of two; it rejects a point whose new line crosses the first
    line of the ring. *)
Example wouldIntersect_square_accepted :
  wouldIntersect [(of_Z 0, of_Z 0); (of_Z 0, of_Z 10); (of_Z 10, of_Z 10)]
                 (of_Z 10, of_Z 0) = false.
Proof. vm_compute. reflexivity. Qed.

Example wouldIntersect_third_point_accepted :
  wouldIntersect [(of_Z 0, of_Z 0); (of_Z 0, of_Z 10)] (of_Z 10, of_Z 0)
  = false.
Proof. vm_compute. reflexivity. Qed.

Example wouldIntersect_bowtie_rejected :
  wouldIntersect [(of_Z 0, of_Z 0); (of_Z 0, of_Z 10); (of_Z 10, of_Z 0)]
                 (of_Z (-5), of_Z 5) = true.
Proof. vm_compute. reflexivity. Qed.

(** *** Symmetries of the intersection test *)

(** The first test of [doLinesIntersect]: [x] and [y] on either side of
    zero. *)
Definition straddle (x y : number) : bool :=
  (ngtb x zero && nltb y zero) || (nltb x zero && ngtb y zero).

Lemma doLinesIntersect_cases (p1 p2 p3 p4 : point) :
  doLinesIntersect p1 p2 p3 p4 =
  (straddle (direction p3 p4 p1) (direction p3 p4 p2) &&
   straddle (direction p1 p2 p3) (direction p1 p2 p4)) ||
  (neqb (direction p3 p4 p1) zero && onSegment p3 p1 p4) ||
  (neqb (direction p3 p4 p2) zero && onSegment p3 p2 p4) ||
  (neqb (direction p1 p2 p3) zero && onSegment p1 p3 p2) ||
  (neqb (direction p1 p2 p4) zero && onSegment p1 p4 p2).
Proof.
  unfold doLinesIntersect, straddle. cbv zeta.
  destruct (_ && _); [ reflexivity | ].
  destruct (neqb (direction p3 p4 p1) zero && _); [ reflexivity | ].
  destruct (neqb (direction p3 p4 p2) zero && _); [ reflexivity | ].
  destruct (neqb (direction p1 p2 p3) zero && _); [ reflexivity | ].
  destruct (neqb (direction p1 p2 p4) zero && _); reflexivity.
Qed.

Lemma doLinesIntersect_exchange (p1 p2 p3 p4 : point) :
  doLinesIntersect p1 p2 p3 p4 = doLinesIntersect p3 p4 p1 p2.
Proof.
  rewrite !doLinesIntersect_cases.
  destruct (straddle (direction p3 p4 p1) (direction p3 p4 p2)),
           (straddle (direction p1 p2 p3) (direction p1 p2 p4)),
           (neqb (direction p3 p4 p1) zero && onSegment p3 p1 p4),
           (neqb (direction p3 p4 p2) zero && onSegment p3 p2 p4),
           (neqb (direction p1 p2 p3) zero && onSegment p1 p3 p2),
           (neqb (direction p1 p2 p4) zero && onSegment p1 p4 p2);
    reflexivity.
Qed.

(** Four points of one decimal each. *)
Definition skew_a : point := (decimal 479 1, decimal 162 1).
Definition skew_b : point := (decimal 458 1, decimal 176 1).
Definition skew_c : point := (decimal 470 1, decimal 168 1).
Definition skew_d : point := (decimal 461 1, decimal 174 1).

(** X1. The test does not depend on the order in which the two segments are
    given, whatever the numbers.  It does depend on the direction of a
    segment: the segments from (47.9, 16.2) to (45.8, 17.6) and from
    (47.0, 16.8) to (46.1, 17.4) intersect, and no longer do when the
    first is given from its other end (the orientations are rounded). *)
Theorem doLinesIntersect_exchanged_not_reversed :
  (forall p1 p2 p3 p4 : point,
      doLinesIntersect p3 p4 p1 p2 = doLinesIntersect p1 p2 p3 p4) /\
  doLinesIntersect skew_a skew_b skew_c skew_d = true /\
  doLinesIntersect skew_b skew_a skew_c skew_d = false.
Proof.
  split; [ | split ].
  - intros p1 p2 p3 p4. symmetry. apply doLinesIntersect_exchange.
  - vm_compute. reflexivity.
  - vm_compute. reflexivity.
Qed.

(** *** Segments with a common endpoint *)

Definition finite_point (p : point) : Prop :=
  is_finite (fst p) = true /\ is_finite (snd p) = true.

(** What [direction] computes along the segment from [p] to [q] is finite:
    the two differences of the coordinates and their product (nothing
    overflows). *)
Definition span_finite (p q : point) : Prop :=
  is_finite (nsub (fst q) (fst p)) = true /\
  is_finite (nsub (snd q) (snd p)) = true /\
  is_finite (nmul (nsub (snd q) (snd p)) (nsub (fst q) (fst p))) = true.

Lemma direction_at_start (p q : point) :
  finite_point p -> span_finite p q -> is_zero (direction p q p) = true.
Proof.
  intros [Hp0 Hp1] (Hd0 & Hd1 & _). unfold direction.
  rewrite (nsub_diag (snd p) Hp1), (nsub_diag (fst p) Hp0).
  apply nsub_zero_zero.
  - apply nmul_zero_l; [ reflexivity | exact Hd0 ].
  - apply nmul_zero_r; [ exact Hd1 | reflexivity ].
Qed.

Lemma direction_at_end (p q : point) :
  span_finite p q -> is_zero (direction p q q) = true.
Proof.
  intros (_ & _ & Hprod). unfold direction.
  rewrite (nsub_diag _ Hprod). reflexivity.
Qed.

Lemma between_start (p r : number) :
  is_finite p = true -> is_finite r = true -> between p p r.
Proof.
  intros Hp Hr. unfold between. rewrite <- !nleb_iff.
  pose proof (nleb_refl p (is_finite_not_nan p Hp)) as Hrefl.
  destruct (nleb_total p r (is_finite_not_nan p Hp) (is_finite_not_nan r Hr))
    as [H | H]; [ left | right ]; split; assumption.
Qed.

Lemma between_end (p r : number) :
  is_finite p = true -> is_finite r = true -> between p r r.
Proof.
  intros Hp Hr. unfold between. rewrite <- !nleb_iff.
  pose proof (nleb_refl r (is_finite_not_nan r Hr)) as Hrefl.
  destruct (nleb_total p r (is_finite_not_nan p Hp) (is_finite_not_nan r Hr))
    as [H | H]; [ left | right ]; split; assumption.
Qed.

Lemma onSegment_start (p r : point) :
  finite_point p -> finite_point r -> onSegment p p r = true.
Proof.
  intros [Hp0 Hp1] [Hr0 Hr1]. apply onSegment_iff.
  split; apply between_start; assumption.
Qed.

Lemma onSegment_end (p r : point) :
  finite_point p -> finite_point r -> onSegment p r r = true.
Proof.
  intros [Hp0 Hp1] [Hr0 Hr1]. apply onSegment_iff.
  split; apply between_end; assumption.
Qed.

(** A segment that starts or ends on an endpoint of the segment from [p3]
    to [p4]. *)
Lemma doLinesIntersect_on_start (p1 p2 p3 p4 : point) :
  finite_point p3 -> finite_point p4 -> span_finite p3 p4 ->
  p1 = p3 \/ p2 = p3 ->
  doLinesIntersect p1 p2 p3 p4 = true.
Proof.
  intros H3 H4 Hspan Hshared. rewrite doLinesIntersect_cases.
  pose proof (is_zero_neqb _ false (direction_at_start p3 p4 H3 Hspan)) as Hd.
  pose proof (onSegment_start p3 p4 H3 H4) as Hon.
  fold zero in Hd.
  destruct Hshared as [-> | ->]; rewrite Hd, Hon; cbn [andb];
    rewrite ?orb_true_r; reflexivity.
Qed.

Lemma doLinesIntersect_on_end (p1 p2 p3 p4 : point) :
  finite_point p3 -> finite_point p4 -> span_finite p3 p4 ->
  p1 = p4 \/ p2 = p4 ->
  doLinesIntersect p1 p2 p3 p4 = true.
Proof.
  intros H3 H4 Hspan Hshared. rewrite doLinesIntersect_cases.
  pose proof (is_zero_neqb _ false (direction_at_end p3 p4 Hspan)) as Hd.
  pose proof (onSegment_end p3 p4 H3 H4) as Hon.
  fold zero in Hd.
  destruct Hshared as [-> | ->]; rewrite Hd, Hon; cbn [andb];
    rewrite ?orb_true_r; reflexivity.
Qed.

(** X2. A segment that has an endpoint in common with another always
    intersects it, whichever endpoints these are, when the coordinates of
    the other are finite and [direction] does not overflow along it: the
    orientation of the common endpoint is then an exact zero.  This is why
    the guard must skip the line the new line extends. *)
Theorem doLinesIntersect_shared_endpoint (p1 p2 p3 p4 : point) :
  finite_point p3 -> finite_point p4 -> span_finite p3 p4 ->
  p1 = p3 \/ p1 = p4 \/ p2 = p3 \/ p2 = p4 ->
  doLinesIntersect p1 p2 p3 p4 = true.
Proof.
  intros H3 H4 Hspan [H | [H | [H | H]]].
  - apply doLinesIntersect_on_start; auto.
  - apply doLinesIntersect_on_end; auto.
  - apply doLinesIntersect_on_start; auto.
  - apply doLinesIntersect_on_end; auto.
Qed.

Lemma doLinesIntersect_shared_endpoint_witness :
  doLinesIntersect (decimal 458 1, decimal 16 0) (decimal 4581 2, decimal 1601 2)
                   (decimal 4581 2, decimal 1601 2) (decimal 459 1, decimal 159 1)
  = true.
Proof.
  apply (doLinesIntersect_shared_endpoint
           (decimal 458 1, decimal 16 0) (decimal 4581 2, decimal 1601 2)
           (decimal 4581 2, decimal 1601 2) (decimal 459 1, decimal 159 1)).
  - split; reflexivity.
  - split; reflexivity.
  - repeat split; vm_compute; reflexivity.
  - right. right. left. reflexivity.
Defined.

(** X3. While the ring has at most two points the guard accepts every
    candidate: no test is made before the third point. *)
Theorem wouldIntersect_first_points (existingPoints : list point)
        (newPoint : point) :
  (length existingPoints <= 2)%nat ->
  wouldIntersect existingPoints newPoint = false.
Proof.
  intro Hlen.
  destruct existingPoints as [|p0 [|p1 [|p2 rest]]];
    try reflexivity.
  cbn [length] in Hlen. lia.
Qed.

Lemma wouldIntersect_first_points_witness :
  wouldIntersect [(of_Z 0, of_Z 0); (of_Z 0, of_Z 10)] (of_Z 0, of_Z 5)
  = false.
Proof.
  apply (wouldIntersect_first_points
           [(of_Z 0, of_Z 0); (of_Z 0, of_Z 10)] (of_Z 0, of_Z 5)).
  cbn [length]. lia.
Defined.

(** The lines of a ring: from each point to the next. *)
Definition lines_finite (ps : list point) : Prop :=
  forall k : nat, (k + 1 < length ps)%nat ->
                  span_finite (at_index ps k) (at_index ps (k + 1)).

Lemma at_index_finite (ps : list point) (i : nat) :
  Forall finite_point ps -> (i < length ps)%nat ->
  finite_point (at_index ps i).
Proof.
  intros Hall Hi. unfold at_index.
  apply (proj1 (Forall_forall _ _) Hall). apply nth_In. exact Hi.
Qed.

(** X4. On a ring of three points or more, with finite coordinates and
    lines along which [direction] does not overflow, the guard rejects
    every candidate that repeats a vertex of the ring other than the last:
    the new line ends on a line of the ring. *)
Theorem wouldIntersect_repeated_vertex (ps : list point) (i : nat) :
  Forall finite_point ps -> lines_finite ps ->
  (3 <= length ps)%nat -> (i < length ps - 1)%nat ->
  wouldIntersect ps (at_index ps i) = true.
Proof.
  intros Hfin Hlines Hlen Hi. unfold wouldIntersect.
  destruct (Nat.ltb (length ps) 2) eqn:Hlt;
    [ apply Nat.ltb_lt in Hlt; lia | ].
  rewrite newLine_loop_existsb. cbn [fst snd].
  match goal with |- (if ?b then _ else _) = _ =>
    assert (Hb : b = true); [ | rewrite Hb; reflexivity ] end.
  apply existsb_exists.
  destruct (Nat.eq_dec i (length ps - 2)) as [-> | Hne].
  - exists (length ps - 3)%nat. split; [ apply in_seq; lia | ].
    replace (Nat.eqb (length ps - 3) (length ps - 2)) with false
      by (symmetry; apply Nat.eqb_neq; lia).
    cbn [negb andb].
    replace (length ps - 2)%nat with (length ps - 3 + 1)%nat at 1 by lia.
    apply doLinesIntersect_on_end;
      [ apply at_index_finite; [ exact Hfin | lia ]
      | apply at_index_finite; [ exact Hfin | lia ]
      | apply Hlines; lia
      | right; reflexivity ].
  - exists i. split; [ apply in_seq; lia | ].
    replace (Nat.eqb i (length ps - 2)) with false
      by (symmetry; apply Nat.eqb_neq; lia).
    cbn [negb andb].
    apply doLinesIntersect_on_start;
      [ apply at_index_finite; [ exact Hfin | lia ]
      | apply at_index_finite; [ exact Hfin | lia ]
      | apply Hlines; lia
      | right; reflexivity ].
Qed.

Definition wedge : list point :=
  [(decimal 458 1, decimal 16 0); (decimal 4581 2, decimal 1601 2);
   (decimal 459 1, decimal 159 1)].

Lemma wouldIntersect_repeated_vertex_witness :
  wouldIntersect wedge (at_index wedge 0) = true.
Proof.
  apply (wouldIntersect_repeated_vertex wedge 0).
  - repeat constructor.
  - intros [|[|k]] Hk; [ | | cbn [length wedge] in Hk; lia ];
      repeat split; vm_compute; reflexivity.
  - cbn [length wedge]. lia.
  - cbn [length wedge]. lia.
Defined.

End Geometry.

(* ================================================================== *)
(** ** JavaScript values *)
(* ================================================================== *)

Module Js.

Import JsNumber.
Import String.StringSyntax.
Definition string : Type := String.string.
Local Open Scope string_scope.
Local Open Scope list_scope.

Inductive value : Type :=
| VUndefined
| VNull
| VBool (b : bool)
| VNum (n : number)
| VStr (s : string)
| VArr (elems : list value)
| VObj (props : list (string * value)).

(** An object: its own properties, in insertion order, one entry a name.
    A zone is an object. *)
Definition object : Type := list (string * value).

(** What a call can throw. *)
Inductive error : Type :=
| TypeError
| LibraryError (message : string).

Inductive result (A : Type) : Type :=
| Ok (a : A)
| Throw (e : error).

Arguments Ok {A} a.
Arguments Throw {A} e.

Definition bind {A B : Type} (r : result A) (k : A -> result B) : result B :=
  match r with
  | Ok a => k a
  | Throw e => Throw e
  end.

Notation "x <- e ;; k" := (bind e (fun x => k))
  (at level 61, e at next level, right associativity).

(** *** Property access *)

Fixpoint lookup (name : string) (props : object) : option value :=
  match props with
  | [] => None
  | (k, v) :: rest => if String.eqb k name then Some v else lookup name rest
  end.

(** [o.name] on an object *)
Definition get (o : object) (name : string) : value :=
  match lookup name o with
  | Some v => v
  | None => VUndefined
  end.

(** ['name' in o] *)
Definition has (o : object) (name : string) : bool :=
  match lookup name o with
  | Some _ => true
  | None => false
  end.

(** The property name of an array index. *)
Definition index_name (i : nat) : string :=
  DecimalString.NilEmpty.string_of_uint (Nat.to_uint i).

(** [v.name], for the data properties the code reads ([type], [radius],
    [coordinates], [id], [lat], [lng], [length]): reading a property of
    [undefined] or [null] throws, a missing property is [undefined]. *)
Definition get_prop (v : value) (name : string) : result value :=
  match v with
  | VUndefined => Throw TypeError
  | VNull => Throw TypeError
  | VObj props => Ok (get props name)
  | VArr elems =>
      if String.eqb name "length" then Ok (VNum (of_nat (length elems)))
      else Ok VUndefined
  | VStr s =>
      if String.eqb name "length" then Ok (VNum (of_nat (String.length s)))
      else Ok VUndefined
  | _ => Ok VUndefined
  end.

(** [v[i]] *)
Definition get_index (v : value) (i : nat) : result value :=
  match v with
  | VUndefined => Throw TypeError
  | VNull => Throw TypeError
  | VArr elems => Ok (nth i elems VUndefined)
  | VObj props => Ok (get props (index_name i))
  | VStr s =>
      match String.get i s with
      | Some c => Ok (VStr (String.String c String.EmptyString))
      | None => Ok VUndefined
      end
  | _ => Ok VUndefined
  end.

(** [Array.isArray(v)] *)
Definition isArray (v : value) : bool :=
  match v with
  | VArr _ => true
  | _ => false
  end.

(** [a === b].  Two arrays or two objects are equal when they are the same
    allocation; the data compared here is a tree (parsed from storage or
    built from literals), so two distinct positions of it never are. *)
Definition strict_eq (a b : value) : bool :=
  match a, b with
  | VUndefined, VUndefined => true
  | VNull, VNull => true
  | VBool x, VBool y => Bool.eqb x y
  | VNum x, VNum y => neqb x y
  | VStr x, VStr y => String.eqb x y
  | _, _ => false
  end.

(** The truth value of [v] in a condition. *)
Definition truthy (v : value) : bool :=
  match v with
  | VUndefined => false
  | VNull => false
  | VBool b => b
  | VNum n => negb (is_nan n || is_zero n)
  | VStr s => negb (String.eqb s "")
  | VArr _ => true
  | VObj _ => true
  end.

(** *** The runtime: what the language and its library provide *)

Record runtime : Type := {
  (** [Math.cos] on a finite number *)
  Math_cos : number -> number;
  (** the conversion of a value to a string *)
  ToString : value -> string;
  (** the number a string denotes *)
  StringToNumber : string -> number
}.

Section Coercions.

Variable rt : runtime.

(** An array or an object is first converted to a string. *)
Definition ToPrimitive (v : value) : value :=
  match v with
  | VArr _ => VStr (ToString rt v)
  | VObj _ => VStr (ToString rt v)
  | _ => v
  end.

Definition ToNumber (v : value) : number :=
  match v with
  | VUndefined => NaN
  | VNull => of_Z 0
  | VBool true => of_Z 1
  | VBool false => of_Z 0
  | VNum n => n
  | VStr s => StringToNumber rt s
  | VArr _ => StringToNumber rt (ToString rt v)
  | VObj _ => StringToNumber rt (ToString rt v)
  end.

Definition is_string (v : value) : bool :=
  match v with
  | VStr _ => true
  | _ => false
  end.

(** [a + b]: concatenation when an operand is (or converts to) a string,
    addition of numbers otherwise. *)
Definition js_add (a b : value) : value :=
  let pa := ToPrimitive a in
  let pb := ToPrimitive b in
  if is_string pa || is_string pb
  then VStr (String.append (ToString rt pa) (ToString rt pb))
  else VNum (nadd (ToNumber pa) (ToNumber pb)).

(** [Math.cos(x)] *)
Definition cos (x : number) : number :=
  if is_finite x then Math_cos rt x else NaN.

End Coercions.

(** *** Unwrapping nested coordinate arrays

    [while (Array.isArray(coords[0]) && Array.isArray(coords[0][0]) &&
            coords.length === 1) coords = coords[0];]

    After one turn of the loop [coords] is an array, and the loop goes on by
    recursion on it. *)
Fixpoint unwrap_array (coords : value) : value :=
  match coords with
  | VArr [VArr (VArr _ :: _) as inner] => unwrap_array inner
  | _ => coords
  end.

Definition unwrap (coords : value) : result value :=
  c0 <- get_index coords 0 ;;
  if isArray c0 then
    c00 <- get_index c0 0 ;;
    len <- get_prop coords "length" ;;
    if isArray c00 && strict_eq len (VNum (of_Z 1))
    then Ok (unwrap_array c0)
    else Ok coords
  else Ok coords.

(** *** Building objects *)

(** [o.name = v]: the value of an existing property is replaced, a new
    property is added last. *)
Fixpoint set_prop (o : object) (name : string) (v : value) : object :=
  match o with
  | [] => [(name, v)]
  | (k, w) :: rest =>
      if String.eqb k name then (k, v) :: rest
      else (k, w) :: set_prop rest name v
  end.

(** [{ ...o, ...src }] *)
Definition spread (o src : object) : object :=
  fold_left (fun acc kv => set_prop acc (fst kv) (snd kv)) src o.

End Js.


(* ================================================================== *)
(** ** [src/utils/zoneCalculations.js] *)
(* ================================================================== *)

Module ZoneCalculations.

Import JsNumber Js.
Import String.StringSyntax.
Local Open Scope string_scope.
Local Open Scope list_scope.

Section WithRuntime.

Variable rt : runtime.

(** [coords[i][k]] *)
Definition coordinate (coords : value) (i k : nat) : result value :=
  ci <- get_index coords i ;;
  get_index ci k.

(** The [k]-th coordinate of the four corners [coords[0] .. coords[3]]. *)
Definition corner_coordinates (coords : value) (k : nat)
  : result (list number) :=
  c0 <- coordinate coords 0 k ;;
  c1 <- coordinate coords 1 k ;;
  c2 <- coordinate coords 2 k ;;
  c3 <- coordinate coords 3 k ;;
  Ok (map (ToNumber rt) [c0; c1; c2; c3]).

(** The body of [for (let i = 0; i < coords.length; i++)] in the polygon
    case: [area += lng1 * lat2 - lng2 * lat1]. *)
Definition shoelace_step (coords : value) (n : nat) (area : number) (i : nat)
  : result number :=
  let j := ((i + 1) mod n)%nat in
  ci <- get_index coords i ;;
  lat1 <- get_index ci 0 ;;
  lng1 <- get_index ci 1 ;;
  cj <- get_index coords j ;;
  lat2 <- get_index cj 0 ;;
  lng2 <- get_index cj 1 ;;
  Ok (nadd area (nsub (nmul (ToNumber rt lng1) (ToNumber rt lat2))
                      (nmul (ToNumber rt lng2) (ToNumber rt lat1)))).

Fixpoint shoelace_loop (coords : value) (n : nat) (todo : list nat)
         (area : number) : result number :=
  match todo with
  | [] => Ok area
  | i :: rest =>
      area' <- shoelace_step coords n area i ;;
      shoelace_loop coords n rest area'
  end.

(** [coords.reduce((sum, coord) => sum + coord[k], sum0)] *)
Fixpoint reduce_sum (k : nat) (coords : list value) (sum : value)
  : result value :=
  match coords with
  | [] => Ok sum
  | coord :: rest =>
      c <- get_index coord k ;;
      reduce_sum k rest (js_add rt sum c)
  end.

Definition metersPerDegreeLat : number := of_Z 111000.

(** [(avgLat * Math.PI) / 180] *)
Definition radians (avgLat : number) : number :=
  ndiv (nmul avgLat Math_PI) (of_Z 180).

(** [calculateZoneArea(zone)].  In the polygon case [coords.reduce] is
    called after the loop: unless [coords] is an array the call throws, and
    the loop before it has no effect but that it may throw as well. *)
Definition calculateZoneArea (zone : object) : result value :=
  if strict_eq (get zone "type") (VStr "circle") && truthy (get zone "radius")
  then
    let radius := ToNumber rt (get zone "radius") in
    Ok (VNum (nmul (nmul Math_PI radius) radius))
  else if strict_eq (get zone "type") (VStr "rectangle") then
    coords <- unwrap (get zone "coordinates") ;;
    lats <- corner_coordinates coords 0 ;;
    let lat1 := Math_min lats in
    let lat2 := Math_max lats in
    lngs <- corner_coordinates coords 1 ;;
    let lng1 := Math_min lngs in
    let lng2 := Math_max lngs in
    let latDiff := Math_abs (nsub lat2 lat1) in
    let lngDiff := Math_abs (nsub lng2 lng1) in
    let avgLat := ndiv (nadd lat1 lat2) (of_Z 2) in
    let heightM := nmul latDiff (of_Z 111000) in
    let widthM := nmul (nmul lngDiff (of_Z 111000))
                       (cos rt (radians avgLat)) in
    Ok (VNum (nmul heightM widthM))
  else if strict_eq (get zone "type") (VStr "polygon") then
    coords <- unwrap (get zone "coordinates") ;;
    match coords with
    | VArr elems =>
        let n := length elems in
        area <- shoelace_loop coords n (seq 0 n) (of_Z 0) ;;
        let area := Math_abs (ndiv area (of_Z 2)) in
        sum <- reduce_sum 0 elems (VNum (of_Z 0)) ;;
        let avgLat := ndiv (ToNumber rt sum) (of_nat n) in
        let metersPerDegreeLng :=
          nmul (of_Z 111000) (cos rt (radians avgLat)) in
        Ok (VNum (nmul (nmul area metersPerDegreeLat) metersPerDegreeLng))
    | _ => Throw TypeError
    end
  else Ok VNull.

(** [const [lat, lng] = v] *)
Definition destructure_pair (v : value) : result (value * value) :=
  match v with
  | VArr elems => Ok (nth 0 elems VUndefined, nth 1 elems VUndefined)
  | VStr _ =>
      a <- get_index v 0 ;;
      b <- get_index v 1 ;;
      Ok (a, b)
  | _ => Throw TypeError
  end.

(** [calculateZoneCenter(zone)] *)
Definition calculateZoneCenter (zone : object) : result value :=
  if strict_eq (get zone "type") (VStr "circle") then
    c <- get_index (get zone "coordinates") 0 ;;
    latlng <- destructure_pair c ;;
    Ok (VObj [("lat", fst latlng); ("lng", snd latlng)])
  else if strict_eq (get zone "type") (VStr "rectangle") ||
          strict_eq (get zone "type") (VStr "polygon") then
    coords <- unwrap (get zone "coordinates") ;;
    match coords with
    | VArr elems =>
        sumLat <- reduce_sum 0 elems (VNum (of_Z 0)) ;;
        sumLng <- reduce_sum 1 elems (VNum (of_Z 0)) ;;
        Ok (VObj [("lat", VNum (ndiv (ToNumber rt sumLat)
                                     (of_nat (length elems))));
                  ("lng", VNum (ndiv (ToNumber rt sumLng)
                                     (of_nat (length elems))))])
    | _ => Throw TypeError
    end
  else Ok VNull.

End WithRuntime.

(** *** Rings of [[lat, lng]] pairs *)

Definition pair_value (p : number * number) : value :=
  VArr [VNum (fst p); VNum (snd p)].

(** A flat ring: the array of its points, each a pair of numbers. *)
Definition ring_value (ps : list (number * number)) : value :=
  VArr (map pair_value ps).

Definition zone_of (type : string) (coordinates : value) : object :=
  [("type", VStr type); ("coordinates", coordinates)].

(** *** The shoelace area as the specification words it

    Every operation is the one of the doubles; a sum adds its terms from
    the first to the last, starting from zero. *)

Definition lat (p : number * number) : number := fst p.
Definition lng (p : number * number) : number := snd p.

Definition sum (xs : list number) : number := fold_left nadd xs (of_Z 0).

(** The pairs [(p_i, p_{i+1})], the index wrapping around the ring. *)
Definition cyclic_pairs (ps : list (number * number))
  : list ((number * number) * (number * number)) :=
  combine ps (tl ps ++ firstn 1 ps).

(** [lng_i * lat_{i+1} - lng_{i+1} * lat_i] *)
Definition shoelace_term (pq : (number * number) * (number * number))
  : number :=
  nsub (nmul (lng (fst pq)) (lat (snd pq))) (nmul (lng (snd pq)) (lat (fst pq))).

Definition shoelace_terms (ps : list (number * number)) : list number :=
  map shoelace_term (cyclic_pairs ps).

Definition shoelace_sum (ps : list (number * number)) : number :=
  sum (shoelace_terms ps).

(** The arithmetic mean. *)
Definition mean (xs : list number) : number :=
  ndiv (sum xs) (of_nat (length xs)).

Definition mean_lat (ps : list (number * number)) : number :=
  mean (map lat ps).

Definition mean_lng (ps : list (number * number)) : number :=
  mean (map lng ps).

Definition degrees_to_radians (d : number) : number :=
  ndiv (nmul d Math_PI) (of_Z 180).

(** [|raw| / 2], multiplied by [111000] and by
    [111000 * cos(avg_lat in radians)], for the edge terms that add up to
    [raw] and the latitudes whose mean is [avg_lat]. *)
Definition area_of_terms (cosine : number -> number)
           (terms lats : list number) : number :=
  nmul (nmul (ndiv (Math_abs (sum terms)) (of_Z 2)) (of_Z 111000))
       (nmul (of_Z 111000) (cosine (degrees_to_radians (mean lats)))).

Definition shoelace_area_m2 (cosine : number -> number)
           (ps : list (number * number)) : number :=
  area_of_terms cosine (shoelace_terms ps) (map lat ps).

(** The area of the box with the given bounds: its height
    [|lat2 - lat1| * 111000] times its width
    [|lng2 - lng1| * 111000 * cos(mid latitude in radians)]. *)
Definition box_area_m2 (cosine : number -> number)
           (lat1 lat2 lng1 lng2 : number) : number :=
  nmul (nmul (Math_abs (nsub lat2 lat1)) (of_Z 111000))
       (nmul (nmul (Math_abs (nsub lng2 lng1)) (of_Z 111000))
             (cosine (degrees_to_radians (ndiv (nadd lat1 lat2) (of_Z 2))))).

(** *** The code on a flat ring *)

Definition origin : number * number := (of_Z 0, of_Z 0).

(** The term the loop adds at index [i]. *)
Definition term_at (ps : list (number * number)) (i : nat) : number :=
  shoelace_term (nth i ps origin, nth ((i + 1) mod length ps) ps origin).

Lemma get_type_zone_of (type : string) (coordinates : value) :
  get (zone_of type coordinates) "type" = VStr type.
Proof. reflexivity. Qed.

Lemma get_coordinates_zone_of (type : string) (coordinates : value) :
  get (zone_of type coordinates) "coordinates" = coordinates.
Proof. reflexivity. Qed.

Lemma unwrap_ring_value (ps : list (number * number)) :
  unwrap (ring_value ps) = Ok (ring_value ps).
Proof. destruct ps as [|p ps]; reflexivity. Qed.

Lemma nth_ring (ps : list (number * number)) (i : nat) :
  (i < length ps)%nat ->
  nth i (map pair_value ps) VUndefined = pair_value (nth i ps origin).
Proof.
  intro Hi.
  rewrite (nth_indep _ VUndefined (pair_value origin))
    by (rewrite length_map; exact Hi).
  apply map_nth.
Qed.

Lemma shoelace_step_ring (rt : runtime) (ps : list (number * number))
      (acc : number) (i : nat) :
  (i < length ps)%nat ->
  shoelace_step rt (ring_value ps) (length ps) acc i =
  Ok (nadd acc (term_at ps i)).
Proof.
  intro Hi.
  assert (Hj : ((i + 1) mod length ps < length ps)%nat)
    by (apply Nat.mod_upper_bound; lia).
  unfold shoelace_step, ring_value, get_index, term_at.
  rewrite (nth_ring ps i Hi), (nth_ring ps _ Hj).
  reflexivity.
Qed.

Lemma shoelace_loop_ring (rt : runtime) (ps : list (number * number))
      (todo : list nat) (acc : number) :
  Forall (fun i => (i < length ps)%nat) todo ->
  shoelace_loop rt (ring_value ps) (length ps) todo acc =
  Ok (fold_left nadd (map (term_at ps) todo) acc).
Proof.
  revert acc. induction todo as [|i rest IH]; intros acc Hall.
  - reflexivity.
  - inversion Hall as [|? ? Hi Hrest]; subst.
    cbn [shoelace_loop fold_left map].
    rewrite (shoelace_step_ring rt ps acc i Hi). cbn [bind].
    apply IH. exact Hrest.
Qed.

Lemma reduce_sum_ring (rt : runtime) (ps : list (number * number))
      (acc : number) :
  reduce_sum rt 0 (map pair_value ps) (VNum acc) =
  Ok (VNum (fold_left nadd (map lat ps) acc)).
Proof.
  revert acc. induction ps as [|p ps IH]; intro acc.
  - reflexivity.
  - cbn [map reduce_sum fold_left]. apply IH.
Qed.

Lemma reduce_sum_ring_lng (rt : runtime) (ps : list (number * number))
      (acc : number) :
  reduce_sum rt 1 (map pair_value ps) (VNum acc) =
  Ok (VNum (fold_left nadd (map lng ps) acc)).
Proof.
  revert acc. induction ps as [|p ps IH]; intro acc.
  - reflexivity.
  - cbn [map reduce_sum fold_left]. apply IH.
Qed.

(** The wrapped successor of the loop, [j = (i + 1) % coords.length], reads
    the ring rotated by one. *)
Lemma nth_successor (p : number * number) (ps : list (number * number))
      (i : nat) :
  (i < S (length ps))%nat ->
  nth ((i + 1) mod S (length ps)) (p :: ps) origin =
  nth i (ps ++ [p]) origin.
Proof.
  intro Hi.
  destruct (Nat.eq_dec i (length ps)) as [-> | Hne].
  - replace (length ps + 1)%nat with (S (length ps)) by lia.
    rewrite Nat.Div0.mod_same.
    rewrite app_nth2 by lia. rewrite Nat.sub_diag. reflexivity.
  - rewrite Nat.mod_small by lia.
    rewrite app_nth1 by lia.
    replace (i + 1)%nat with (S i) by lia. reflexivity.
Qed.

Lemma nth_map_seq {A : Type} (f : nat -> A) (n i : nat) (d : A) :
  (i < n)%nat -> nth i (map f (seq 0 n)) d = f i.
Proof.
  intro Hi.
  rewrite (nth_indep _ d (f 0%nat)) by (rewrite length_map, length_seq; exact Hi).
  rewrite map_nth, seq_nth by exact Hi. reflexivity.
Qed.

Lemma cyclic_pairs_index (ps : list (number * number)) :
  map (fun i => (nth i ps origin, nth ((i + 1) mod length ps) ps origin))
      (seq 0 (length ps)) = cyclic_pairs ps.
Proof.
  destruct ps as [|p ps]; [ reflexivity | ].
  unfold cyclic_pairs. cbn [tl firstn].
  apply (nth_ext _ _ (origin, origin) (origin, origin)).
  - rewrite length_map, length_seq, length_combine, length_app.
    cbn [length]. lia.
  - intros i Hi. rewrite length_map, length_seq in Hi.
    rewrite combine_nth by (rewrite length_app; cbn [length]; lia).
    rewrite <- (nth_successor p ps i Hi).
    rewrite nth_map_seq by exact Hi. reflexivity.
Qed.

(** The terms the loop adds, in the order it adds them. *)
Lemma loop_terms (ps : list (number * number)) :
  map (term_at ps) (seq 0 (length ps)) = shoelace_terms ps.
Proof.
  unfold shoelace_terms. rewrite <- cyclic_pairs_index, map_map. reflexivity.
Qed.

(** The polygon case on a flat ring. *)
Lemma calculateZoneArea_ring (rt : runtime) (zone : object)
      (ps : list (number * number)) :
  get zone "type" = VStr "polygon" ->
  get zone "coordinates" = ring_value ps ->
  calculateZoneArea rt zone = Ok (VNum (shoelace_area_m2 (cos rt) ps)).
Proof.
  intros Htype Hcoords.
  unfold calculateZoneArea. rewrite Htype, Hcoords.
  change (strict_eq (VStr "polygon") (VStr "circle")) with false.
  change (strict_eq (VStr "polygon") (VStr "rectangle")) with false.
  change (strict_eq (VStr "polygon") (VStr "polygon")) with true.
  cbv iota. cbn [andb].
  rewrite unwrap_ring_value. cbn [bind ring_value].
  rewrite length_map.
  change (VArr (map pair_value ps)) with (ring_value ps).
  rewrite shoelace_loop_ring
    by (apply Forall_forall; intros i Hi; apply in_seq in Hi; lia).
  cbn [bind]. rewrite reduce_sum_ring. cbn [bind ToNumber].
  rewrite loop_terms, abs_half.
  unfold shoelace_area_m2, area_of_terms, mean. rewrite length_map.
  reflexivity.
Qed.

(** The rectangle case on a flat ring of four points. *)
Lemma calculateZoneArea_rectangle_ring (rt : runtime)
      (p0 p1 p2 p3 : number * number) :
  calculateZoneArea rt (zone_of "rectangle" (ring_value [p0; p1; p2; p3])) =
  Ok (VNum (box_area_m2 (cos rt)
              (Math_min (map lat [p0; p1; p2; p3]))
              (Math_max (map lat [p0; p1; p2; p3]))
              (Math_min (map lng [p0; p1; p2; p3]))
              (Math_max (map lng [p0; p1; p2; p3])))).
Proof. reflexivity. Qed.

(** The centre is computed alike under both tags. *)
Lemma calculateZoneCenter_rectangle_polygon (rt : runtime)
      (coordinates : value) :
  calculateZoneCenter rt (zone_of "rectangle" coordinates) =
  calculateZoneCenter rt (zone_of "polygon" coordinates).
Proof. reflexivity. Qed.

Lemma calculateZoneCenter_ring (rt : runtime) (zone : object)
      (ps : list (number * number)) :
  get zone "type" = VStr "polygon" \/ get zone "type" = VStr "rectangle" ->
  get zone "coordinates" = ring_value ps ->
  calculateZoneCenter rt zone =
  Ok (VObj [("lat", VNum (mean_lat ps)); ("lng", VNum (mean_lng ps))]).
Proof.
  intros Htype Hcoords.
  unfold calculateZoneCenter. rewrite Hcoords.
  assert (Hbranch :
            strict_eq (get zone "type") (VStr "circle") = false /\
            strict_eq (get zone "type") (VStr "rectangle") ||
            strict_eq (get zone "type") (VStr "polygon") = true)
    by (destruct Htype as [-> | ->]; split; reflexivity).
  destruct Hbranch as [-> ->].
  rewrite unwrap_ring_value. cbn [bind ring_value].
  rewrite reduce_sum_ring, reduce_sum_ring_lng. cbn [bind ToNumber].
  unfold mean_lat, mean_lng, mean. rewrite !length_map.
  reflexivity.
Qed.

(** *** Rotation and reversal of a ring *)



Definition swap {A : Type} (pq : A * A) : A * A := (snd pq, fst pq).






(** The term of an edge taken from its other end: the opposite number, but
    for the sign of a zero. *)
Lemma shoelace_term_swap (pq : (number * number) * (number * number)) :
  is_zero (shoelace_term pq) = false ->
  shoelace_term (swap pq) = nneg (shoelace_term pq).
Proof. unfold shoelace_term, swap. cbn [fst snd]. apply nsub_swap. Qed.


(** *** Area of a polygon *)

(** A runtime to evaluate the code with.  Its cosine is the polynomial
    [1 - x*x/2 + x*x*x*x/24], evaluated in doubles; no zone below reaches
    the conversions to and from strings. *)
Definition cosine_taylor (x : number) : number :=
  nadd (nsub (of_Z 1) (ndiv (nmul x x) (of_Z 2)))
       (ndiv (nmul (nmul (nmul x x) x) x) (of_Z 24)).

Definition sample_runtime : runtime :=
  {| Math_cos := cosine_taylor;
     ToString := fun _ => "";
     StringToNumber := fun _ => NaN |}.

Definition unit_square : list (number * number) :=
  [(of_Z 0, of_Z 0); (of_Z 0, of_Z 1); (of_Z 1, of_Z 1); (of_Z 1, of_Z 0)].

(** The unit square as the overlap scan hands it to the geometry library:
    positions [[lng, lat]], the first repeated at the end. *)
Definition closed_unit_square : list value :=
  [VArr [VNum (of_Z 0); VNum (of_Z 0)]; VArr [VNum (of_Z 1); VNum (of_Z 0)];
   VArr [VNum (of_Z 1); VNum (of_Z 1)]; VArr [VNum (of_Z 0); VNum (of_Z 1)];
   VArr [VNum (of_Z 0); VNum (of_Z 0)]].

(** C3. On a zone of type ['polygon'] whose coordinates are a flat ring of
    [[lat, lng]] points, [calculateZoneArea] returns
    [|sum_i (lng_i * lat_{i+1} - lng_{i+1} * lat_i)| / 2], the indices
    wrapping around the ring, multiplied by [111000] and by
    [111000 * cos(avg_lat in radians)], [avg_lat] the mean latitude of the
    vertices; every operation is the one of the doubles, the sums taken in
    the order of the ring. *)
Theorem calculateZoneArea_shoelace (rt : runtime) (zone : object)
        (ps : list (number * number)) :
  get zone "type" = VStr "polygon" ->
  get zone "coordinates" = ring_value ps ->
  calculateZoneArea rt zone =
  Ok (VNum (nmul (nmul (ndiv (Math_abs (shoelace_sum ps)) (of_Z 2))
                       (of_Z 111000))
                 (nmul (of_Z 111000)
                       (cos rt (degrees_to_radians (mean_lat ps)))))).
Proof. apply calculateZoneArea_ring. Qed.

Lemma calculateZoneArea_shoelace_witness :
  calculateZoneArea sample_runtime (zone_of "polygon" (ring_value unit_square))
  = Ok (VNum (nmul (nmul (ndiv (Math_abs (shoelace_sum unit_square)) (of_Z 2))
                         (of_Z 111000))
                   (nmul (of_Z 111000)
                         (cos sample_runtime
                              (degrees_to_radians (mean_lat unit_square)))))).
Proof.
  apply (calculateZoneArea_shoelace sample_runtime
           (zone_of "polygon" (ring_value unit_square)) unit_square).
  - reflexivity.
  - reflexivity.
Defined.


(** A triangle north of Zagreb. *)
Definition triangle : list (number * number) :=
  [(decimal 454 1, decimal 173 1); (decimal 452 1, decimal 163 1);
   (decimal 453 1, decimal 170 1)].

Definition polygon_area (ps : list (number * number)) : result value :=
  calculateZoneArea sample_runtime (zone_of "polygon" (ring_value ps)).


(** *** Rectangles *)

(** A square standing on a corner. *)
Definition diamond : list (number * number) :=
  [(of_Z 0, of_Z 1); (of_Z 1, of_Z 2); (of_Z 2, of_Z 1); (of_Z 1, of_Z 0)].

(** The rectangle of 0.003 by 0.004 degrees around [(45.8, 16.0)], listed
    from its north-west corner on as the application lists it. *)
Definition drawn_rectangle : list (number * number) :=
  [(nadd (decimal 458 1) (decimal 15 4), nsub (of_Z 16) (decimal 2 3));
   (nadd (decimal 458 1) (decimal 15 4), nadd (of_Z 16) (decimal 2 3));
   (nsub (decimal 458 1) (decimal 15 4), nadd (of_Z 16) (decimal 2 3));
   (nsub (decimal 458 1) (decimal 15 4), nsub (of_Z 16) (decimal 2 3))].

Definition rectangle_area (ps : list (number * number)) : result value :=
  calculateZoneArea sample_runtime (zone_of "rectangle" (ring_value ps)).

(** C5 (as stated) fails: for the four vertices of the diamond the
    rectangle case returns the area of the bounding box, twice the area the
    polygon case returns; and for a rectangle that follows the parallels and
    the meridians the two cases round differently. *)
Lemma rectangle_polygon_area_counterexample :
  (exists a b : number,
      rectangle_area diamond = Ok (VNum a) /\
      polygon_area diamond = Ok (VNum b) /\
      a = nmul (of_Z 2) b /\ nltb (of_Z 0) b = true /\ nltb b a = true) /\
  (exists a b : number,
      rectangle_area drawn_rectangle = Ok (VNum a) /\
      polygon_area drawn_rectangle = Ok (VNum b) /\
      nltb a b = true).
Proof.
  split.
  - do 2 eexists.
    split; [ vm_compute; reflexivity | ].
    split; [ vm_compute; reflexivity | ].
    repeat split; vm_compute; reflexivity.
  - do 2 eexists.
    split; [ vm_compute; reflexivity | ].
    split; [ vm_compute; reflexivity | ].
    vm_compute; reflexivity.
Qed.

(** *** Other shapes and encodings *)

(** The area of a circle of radius 300 is [Math.PI * 300 * 300]. *)
Example calculateZoneArea_circle (rt : runtime) :
  calculateZoneArea rt [("type", VStr "circle"); ("radius", VNum (of_Z 300))]
  = Ok (VNum (nmul (nmul Math_PI (of_Z 300)) (of_Z 300))).
Proof. reflexivity. Qed.

(** The polygon case reads [coords[i][0]] and [coords[i][1]]: on a ring of
    [{ lat, lng }] objects both are [undefined] and the area is [NaN]. *)
Example calculateZoneArea_lat_lng_objects (rt : runtime) :
  calculateZoneArea rt
    (zone_of "polygon"
       (VArr [VObj [("lat", VNum (of_Z 0)); ("lng", VNum (of_Z 0))];
              VObj [("lat", VNum (of_Z 0)); ("lng", VNum (of_Z 1))];
              VObj [("lat", VNum (of_Z 1)); ("lng", VNum (of_Z 1))]]))
  = Ok (VNum NaN).
Proof. reflexivity. Qed.

(** *** Unwrapping *)

(** [coordinates] inside [k] one-element arrays. *)
Fixpoint wrapped (k : nat) (coordinates : value) : value :=
  match k with
  | O => coordinates
  | S k' => VArr [wrapped k' coordinates]
  end.

Lemma length_is_one (l : list value) :
  strict_eq (VNum (of_nat (length l))) (VNum (of_Z 1)) = Nat.eqb (length l) 1.
Proof. cbn [strict_eq]. apply of_nat_is_one. Qed.

(** On an array the loop is the recursion that follows its first turn. *)
Lemma unwrap_on_array (l : list value) :
  unwrap (VArr l) = Ok (unwrap_array (VArr l)).
Proof.
  unfold unwrap. cbn [get_index get_prop bind String.eqb Ascii.eqb Bool.eqb].
  rewrite length_is_one.
  destruct l as [|x l]; [ reflexivity | ].
  cbn [nth]. destruct x as [| | | | |m|]; try reflexivity.
  cbn [isArray get_index bind nth].
  destruct m as [|y m]; [ destruct l; reflexivity | ].
  cbn [nth]. destruct y; destruct l; reflexivity.
Qed.

Lemma unwrap_array_idempotent :
  forall w : value, unwrap_array (unwrap_array w) = unwrap_array w.
Proof.
  fix IH 1. intro w.
  destruct w as [| | | | |l|]; try reflexivity.
  destruct l as [|x l]; [ reflexivity | ].
  destruct l as [|x' l]; [ | destruct x as [| | | | |m|]; try reflexivity;
                               destruct m as [|y m]; try reflexivity;
                               destruct y; reflexivity ].
  assert (IHx := IH x).
  destruct x as [| | | | |m|]; try reflexivity.
  destruct m as [|y m]; [ reflexivity | ].
  destruct y; try reflexivity.
  exact IHx.
Qed.

Lemma unwrap_array_is_array :
  forall w : value, isArray w = true -> isArray (unwrap_array w) = true.
Proof.
  fix IH 1. intros w Hw.
  destruct w as [| | | | |l|]; try discriminate Hw.
  destruct l as [|x l]; [ reflexivity | ].
  destruct l as [|x' l]; [ | destruct x as [| | | | |m|]; try reflexivity;
                               destruct m as [|y m]; try reflexivity;
                               destruct y; reflexivity ].
  assert (IHx := IH x).
  destruct x as [| | | | |m|]; try reflexivity.
  destruct m as [|y m]; [ reflexivity | ].
  destruct y; try reflexivity.
  apply IHx. reflexivity.
Qed.

(** X5. Unwrapping is idempotent: what the loop returns, the loop leaves as
    it is. *)
Theorem unwrap_idempotent (coordinates unwrapped : value) :
  unwrap coordinates = Ok unwrapped -> unwrap unwrapped = Ok unwrapped.
Proof.
  intro H. pose proof H as H0. unfold unwrap in H.
  destruct (get_index coordinates 0) as [c0|e]; [ | discriminate H ].
  unfold bind at 1 in H.
  remember (unwrap_array c0) as r eqn:Er.
  destruct c0 as [| | | | |m|]; cbn [isArray] in H;
    try (injection H as <-; exact H0).
  destruct (get_index (VArr m) 0) as [c00|e]; [ | discriminate H ].
  unfold bind at 1 in H.
  destruct (get_prop coordinates "length") as [len|e]; [ | discriminate H ].
  unfold bind in H.
  destruct (isArray c00 && strict_eq len (VNum (of_Z 1)));
    [ | injection H as <-; exact H0 ].
  injection H as <-.
  assert (Harr := unwrap_array_is_array (VArr m) eq_refl).
  rewrite <- Er in Harr.
  destruct r as [| | | | |l|]; try discriminate Harr.
  rewrite unwrap_on_array, Er, unwrap_array_idempotent. reflexivity.
Qed.

Lemma unwrap_idempotent_witness :
  unwrap (ring_value unit_square) = Ok (ring_value unit_square).
Proof.
  apply (unwrap_idempotent (VArr [VArr [ring_value unit_square]])
                           (ring_value unit_square)).
  reflexivity.
Defined.

Lemma unwrap_array_wrapped_ring (k : nat) (ps : list (number * number)) :
  ps <> [] -> unwrap_array (wrapped k (ring_value ps)) = ring_value ps.
Proof.
  intro Hne. destruct ps as [|p ps]; [ contradiction | ].
  induction k as [|k IH]; [ reflexivity | ].
  cbn [wrapped]. destruct k as [|k].
  - reflexivity.
  - cbn [wrapped] in *. cbn [unwrap_array].
    destruct k as [|k]; exact IH.
Qed.

Lemma unwrap_wrapped_ring (k : nat) (ps : list (number * number)) :
  ps <> [] -> unwrap (wrapped k (ring_value ps)) = Ok (ring_value ps).
Proof.
  intro Hne. destruct k as [|k].
  - apply unwrap_ring_value.
  - cbn [wrapped]. rewrite unwrap_on_array.
    change (VArr [wrapped k (ring_value ps)])
      with (wrapped (S k) (ring_value ps)).
    rewrite unwrap_array_wrapped_ring by exact Hne. reflexivity.
Qed.

(** X6. A non-empty flat ring that arrives inside one-element arrays, as
    many as may be, has the area and the centre of the ring itself, under
    the type ['polygon'] and under the type ['rectangle']. *)
Theorem wrapped_ring_same_metrics (rt : runtime) (k : nat)
        (ps : list (number * number)) (type : string) :
  ps <> [] ->
  type = "polygon" \/ type = "rectangle" ->
  calculateZoneArea rt (zone_of type (wrapped k (ring_value ps))) =
  calculateZoneArea rt (zone_of type (ring_value ps)) /\
  calculateZoneCenter rt (zone_of type (wrapped k (ring_value ps))) =
  calculateZoneCenter rt (zone_of type (ring_value ps)).
Proof.
  intros Hne [-> | ->];
    unfold calculateZoneArea, calculateZoneCenter;
    rewrite !get_type_zone_of, !get_coordinates_zone_of;
    rewrite unwrap_wrapped_ring, unwrap_ring_value by exact Hne;
    split; reflexivity.
Qed.

Lemma wrapped_ring_same_metrics_witness :
  calculateZoneArea sample_runtime
    (zone_of "polygon" (wrapped 3 (ring_value unit_square))) =
  calculateZoneArea sample_runtime (zone_of "polygon" (ring_value unit_square))
  /\
  calculateZoneCenter sample_runtime
    (zone_of "polygon" (wrapped 3 (ring_value unit_square))) =
  calculateZoneCenter sample_runtime (zone_of "polygon" (ring_value unit_square)).
Proof.
  apply (wrapped_ring_same_metrics sample_runtime 3 unit_square "polygon").
  - discriminate.
  - left. reflexivity.
Defined.

(** *** Centre, circles and degenerate rings *)

(** X7. On a flat ring the centre [calculateZoneCenter] returns, for a
    polygon and for a rectangle, is the mean of the vertices: the mean of
    their latitudes and the mean of their longitudes, each the sum taken in
    the order of the ring and divided by the number of vertices. *)
Theorem calculateZoneCenter_vertex_mean (rt : runtime) (zone : object)
        (ps : list (number * number)) :
  get zone "type" = VStr "polygon" \/ get zone "type" = VStr "rectangle" ->
  get zone "coordinates" = ring_value ps ->
  calculateZoneCenter rt zone =
  Ok (VObj [("lat", VNum (ndiv (sum (map lat ps)) (of_nat (length ps))));
            ("lng", VNum (ndiv (sum (map lng ps)) (of_nat (length ps))))]).
Proof.
  intros Htype Hcoords.
  rewrite (calculateZoneCenter_ring rt zone ps Htype Hcoords).
  unfold mean_lat, mean_lng, mean. rewrite !length_map. reflexivity.
Qed.

Lemma calculateZoneCenter_vertex_mean_witness :
  calculateZoneCenter sample_runtime
    (zone_of "polygon" (ring_value unit_square)) =
  Ok (VObj [("lat", VNum (ndiv (sum (map lat unit_square))
                               (of_nat (length unit_square))));
            ("lng", VNum (ndiv (sum (map lng unit_square))
                               (of_nat (length unit_square))))]).
Proof.
  apply (calculateZoneCenter_vertex_mean sample_runtime
           (zone_of "polygon" (ring_value unit_square)) unit_square).
  - left. reflexivity.
  - reflexivity.
Defined.

(** X8. For a circle the area is [Math.PI * radius * radius] when the
    radius is a number other than zero and [NaN], and [null] when the radius
    is missing, zero or [NaN]; the centre is the first coordinate pair, with
    or without a radius. *)
Theorem circle_area_and_center (rt : runtime) (zone : object) :
  get zone "type" = VStr "circle" ->
  (truthy (get zone "radius") = false ->
   calculateZoneArea rt zone = Ok VNull) /\
  (forall r : number,
      get zone "radius" = VNum r -> is_nan r = false -> is_zero r = false ->
      calculateZoneArea rt zone = Ok (VNum (nmul (nmul Math_PI r) r))) /\
  (forall (lat lng : value) (rest : list value),
      get zone "coordinates" = VArr (VArr [lat; lng] :: rest) ->
      calculateZoneCenter rt zone = Ok (VObj [("lat", lat); ("lng", lng)])).
Proof.
  intro Htype. unfold calculateZoneArea, calculateZoneCenter.
  rewrite Htype.
  change (strict_eq (VStr "circle") (VStr "circle")) with true.
  change (strict_eq (VStr "circle") (VStr "rectangle")) with false.
  change (strict_eq (VStr "circle") (VStr "polygon")) with false.
  cbv iota. cbn [andb]. repeat split.
  - intros ->. reflexivity.
  - intros r -> Hnan Hzero. cbn [truthy ToNumber].
    rewrite Hnan, Hzero. reflexivity.
  - intros lat0 lng0 rest ->. reflexivity.
Qed.

Lemma circle_area_and_center_witness :
  calculateZoneArea sample_runtime
    [("type", VStr "circle"); ("radius", VNum (of_Z 0));
     ("coordinates", VArr [VArr [VNum (of_Z 1); VNum (of_Z 2)]])] = Ok VNull.
Proof.
  apply (proj1 (circle_area_and_center sample_runtime
                  [("type", VStr "circle"); ("radius", VNum (of_Z 0));
                   ("coordinates", VArr [VArr [VNum (of_Z 1); VNum (of_Z 2)]])]
                  eq_refl)).
  reflexivity.
Defined.

(** The edge terms of a ring of one or two points add up to zero, when
    none of them overflows. *)
Lemma shoelace_sum_degenerate (ps : list (number * number)) :
  (0 < length ps <= 2)%nat ->
  Forall (fun t => is_finite t = true) (shoelace_terms ps) ->
  is_zero (shoelace_sum ps) = true.
Proof.
  intros Hlen Hfin.
  destruct ps as [|p [|q [|r ps]]]; cbn [length] in Hlen; try lia.
  - unfold shoelace_sum, shoelace_terms, cyclic_pairs, sum in *.
    cbn [tl firstn app combine map fold_left] in *.
    inversion Hfin as [|? ? Ht _]; subst.
    apply nadd_zero_zero; [ reflexivity | ].
    unfold shoelace_term in *. cbn [fst snd] in *.
    set (x := nmul (lng p) (lat p)) in *.
    destruct x as [s|s| |s m e].
    + destruct s; reflexivity.
    + destruct s; discriminate Ht.
    + discriminate Ht.
    + rewrite nsub_diag; reflexivity.
  - unfold shoelace_sum, shoelace_terms, cyclic_pairs, sum in *.
    cbn [tl firstn app combine map fold_left] in *.
    inversion Hfin as [|? ? Ht _]; subst.
    change (shoelace_term (q, p)) with (shoelace_term (swap (p, q))).
    set (t := shoelace_term (p, q)) in *.
    destruct (is_zero t) eqn:Ez.
    + apply nadd_zero_zero.
      * apply nadd_zero_zero; [ reflexivity | exact Ez ].
      * unfold t in Ez. unfold shoelace_term, swap in *. cbn [fst snd] in *.
        apply nsub_swap_zero. exact Ez.
    + change (of_Z 0) with (S754_zero false).
      rewrite nadd_zero_l by exact Ez.
      unfold t in Ez. rewrite shoelace_term_swap by exact Ez.
      fold t. rewrite nadd_opp by exact Ht. reflexivity.
Qed.

(** X9. A flat ring of one or two points has area zero, when no edge term
    overflows and the cosine factor is finite. *)
Theorem calculateZoneArea_degenerate (rt : runtime)
        (ps : list (number * number)) :
  (0 < length ps <= 2)%nat ->
  Forall (fun t => is_finite t = true) (shoelace_terms ps) ->
  is_finite (nmul (of_Z 111000) (cos rt (degrees_to_radians (mean_lat ps))))
  = true ->
  exists a : number,
    calculateZoneArea rt (zone_of "polygon" (ring_value ps)) = Ok (VNum a) /\
    is_zero a = true.
Proof.
  intros Hlen Hterms Hcos.
  eexists. split; [ apply calculateZoneArea_ring; reflexivity | ].
  unfold shoelace_area_m2, area_of_terms.
  apply nmul_zero_l; [ | exact Hcos ].
  apply nmul_zero_l; [ | reflexivity ].
  pose proof (shoelace_sum_degenerate ps Hlen Hterms) as Hz.
  unfold shoelace_sum in Hz.
  destruct (sum (shoelace_terms ps)); try discriminate Hz. reflexivity.
Qed.

Lemma calculateZoneArea_degenerate_witness :
  exists a : number,
    calculateZoneArea sample_runtime
      (zone_of "polygon"
         (ring_value [(decimal 458 1, of_Z 16); (decimal 459 1, decimal 161 1)]))
    = Ok (VNum a) /\ is_zero a = true.
Proof.
  apply (calculateZoneArea_degenerate sample_runtime
           [(decimal 458 1, of_Z 16); (decimal 459 1, decimal 161 1)]).
  - cbn [length]. lia.
  - repeat constructor.
  - vm_compute. reflexivity.
Defined.

(** *** Moving a ring along a parallel *)

(** The point [p] moved east by [c] degrees. *)
Definition shift_lng (c : number) (p : number * number) : number * number :=
  (fst p, nadd (snd p) c).

(** X10. The area of a polygon is not kept when the ring is moved along its
    parallels: with every longitude of the triangle increased by two
    degrees the area returned is greater, by the rounding of the edge
    terms. *)
Theorem calculateZoneArea_shift_lng :
  exists a b : number,
    polygon_area triangle = Ok (VNum a) /\
    polygon_area (map (shift_lng (of_Z 2)) triangle) = Ok (VNum b) /\
    nltb a b = true /\ is_finite b = true.
Proof.
  do 2 eexists.
  split; [ vm_compute; reflexivity | ].
  split; [ vm_compute; reflexivity | ].
  split; vm_compute; reflexivity.
Qed.

End ZoneCalculations.


(* ================================================================== *)
(** ** [src/utils/zoneValidation.js] *)
(* ================================================================== *)

Module ZoneValidation.

Import JsNumber Js.
Import String.StringSyntax.
Local Open Scope string_scope.
Local Open Scope list_scope.

(** *** The console *)

Inductive log_entry : Type :=
| console_warn (message : string) (args : list value)
| console_error (message : string) (err : option error) (args : list value).

(** A computation that writes to the console and returns or throws. *)
Definition action (A : Type) : Type := (list log_entry * result A)%type.

Definition lift {A : Type} (r : result A) : action A := ([], r).

Definition ret {A : Type} (a : A) : action A := ([], Ok a).

Definition log (e : log_entry) : action unit := ([e], Ok tt).

Definition bindA {A B : Type} (m : action A) (k : A -> action B) : action B :=
  match snd m with
  | Ok a => (fst m ++ fst (k a), snd (k a))
  | Throw e => (fst m, Throw e)
  end.

Notation "x <~ e ;; k" := (bindA e (fun x => k))
  (at level 61, e at next level, right associativity).

(** [xs.map(f)] *)
Fixpoint mapA {A B : Type} (f : A -> action B) (xs : list A)
  : action (list B) :=
  match xs with
  | [] => ret []
  | x :: rest =>
      y <~ f x ;;
      ys <~ mapA f rest ;;
      ret (y :: ys)
  end.

(** [a !== b], where [aliased] tells that [a] and [b] were read from the
    same slot of the same array (then an array or an object is itself). *)
Definition strict_neq_slot (aliased : bool) (a b : value) : bool :=
  match a with
  | VArr _ => negb aliased
  | VObj _ => negb aliased
  | _ => negb (strict_eq a b)
  end.

(** The callback of [coords.map] in the polygon case. *)
Definition polygon_point (point : value) : action value :=
  if isArray point then
    p1 <~ lift (get_index point 1) ;;
    p0 <~ lift (get_index point 0) ;;
    ret (VArr [p1; p0])
  else
    plat <~ lift (get_prop point "lat") ;;
    if negb (strict_eq plat VUndefined) then
      plng <~ lift (get_prop point "lng") ;;
      if negb (strict_eq plng VUndefined) then ret (VArr [plng; plat])
      else
        _ <~ log (console_error "[Validation] Invalid polygon point:" None
                                [point]) ;;
        ret VNull
    else
      _ <~ log (console_error "[Validation] Invalid polygon point:" None
                              [point]) ;;
      ret VNull.

(** [point && typeof point === 'object'], for a point that is no array *)
Definition is_plain_object (point : value) : option object :=
  match point with
  | VObj props => Some props
  | _ => None
  end.

(** The callback of [coords.map] in the rectangle case. *)
Definition rectangle_point (point : value) : action value :=
  if isArray point then ret point
  else
    match is_plain_object point with
    | Some props =>
        if has props "lat" && has props "lng"
        then ret (VArr [get props "lat"; get props "lng"])
        else
          _ <~ log (console_error "[Validation] Invalid rectangle point:" None
                                  [point]) ;;
          ret VNull
    | None =>
        _ <~ log (console_error "[Validation] Invalid rectangle point:" None
                                [point]) ;;
        ret VNull
    end.

(** [.filter((p) => p !== null)] *)
Definition not_null (p : value) : bool := negb (strict_eq p VNull).

(** The ring handed to [turf.polygon] in the polygon case: the converted
    points, closed by a copy of the first when the last differs from it. *)
Definition close_ring (turfCoords : list value) : result (list value) :=
  first <- get_index (VArr turfCoords) 0 ;;
  last <- get_index (VArr turfCoords) (length turfCoords - 1) ;;
  let aliased := Nat.eqb (length turfCoords) 1 in
  first0 <- get_index first 0 ;;
  last0 <- get_index last 0 ;;
  if strict_neq_slot aliased first0 last0 then Ok (turfCoords ++ [first])
  else
    first1 <- get_index first 1 ;;
    last1 <- get_index last 1 ;;
    if strict_neq_slot aliased first1 last1 then Ok (turfCoords ++ [first])
    else Ok turfCoords.

(** *** Encodings of a point *)

(** [[lat, lng]] *)
Definition pair_point (p : number * number) : value :=
  VArr [VNum (fst p); VNum (snd p)].

(** [{ lat, lng }] *)
Definition lat_lng_point (p : number * number) : value :=
  VObj [("lat", VNum (fst p)); ("lng", VNum (snd p))].

(** [{ latitude, longitude }] *)
Definition latitude_longitude_point (p : number * number) : value :=
  VObj [("latitude", VNum (fst p)); ("longitude", VNum (snd p))].

(** The position [[lng, lat]] the geometry library is given. *)
Definition position (p : number * number) : value :=
  VArr [VNum (snd p); VNum (fst p)].

Definition polygon_zone (coordinates : value) : value :=
  VObj [("type", VStr "polygon"); ("coordinates", coordinates)].

(** An entry of a ring, in one of three encodings. *)
Inductive ring_entry : Type :=
| Pair (p : number * number)
| LatLng (p : number * number)
| LatitudeLongitude (p : number * number).

Definition encode_entry (e : ring_entry) : value :=
  match e with
  | Pair p => pair_point p
  | LatLng p => lat_lng_point p
  | LatitudeLongitude p => latitude_longitude_point p
  end.

(** The points of the entries the polygon case accepts, and the entries it
    drops. *)
Fixpoint accepted_points (es : list ring_entry) : list (number * number) :=
  match es with
  | [] => []
  | Pair p :: rest => p :: accepted_points rest
  | LatLng p :: rest => p :: accepted_points rest
  | LatitudeLongitude _ :: rest => accepted_points rest
  end.

Fixpoint dropped_entries (es : list ring_entry) : list value :=
  match es with
  | [] => []
  | LatitudeLongitude p :: rest =>
      latitude_longitude_point p :: dropped_entries rest
  | _ :: rest => dropped_entries rest
  end.

Definition invalid_point_error (point : value) : log_entry :=
  console_error "[Validation] Invalid polygon point:" None [point].

Section WithTurf.

Variable rt : runtime.

(** The geometry library: the features it builds and its two predicates.
    Each call returns or throws. *)
Variable Feature : Type.
Variable turf_circle : list value -> number -> nat -> string -> result Feature.
Variable turf_polygon : list (list value) -> result Feature.
Variable turf_booleanOverlap : Feature -> Feature -> result bool.
Variable turf_booleanIntersects : Feature -> Feature -> result bool.

(** The [circle] case of [zoneToTurfGeometry]. *)
Definition circle_geometry (zone : value) : action (option Feature) :=
  coordinates <~ lift (get_prop zone "coordinates") ;;
  center <~ lift (get_index coordinates 0) ;;
  latlng <~
    (if isArray center then
       c0 <~ lift (get_index center 0) ;;
       c1 <~ lift (get_index center 1) ;;
       ret (Some (c0, c1))
     else
       clat <~ lift (get_prop center "lat") ;;
       if negb (strict_eq clat VUndefined) then
         clng <~ lift (get_prop center "lng") ;;
         if negb (strict_eq clng VUndefined) then ret (Some (clat, clng))
         else ret None
       else ret None) ;;
  match latlng with
  | None =>
      _ <~ log (console_error "[Validation] Invalid circle center format:"
                              None [center]) ;;
      ret None
  | Some (lat, lng) =>
      zradius <~ lift (get_prop zone "radius") ;;
      let radius := ndiv (ToNumber rt zradius) (of_Z 1000) in
      let turfCenter := [lng; lat] in
      g <~ lift (turf_circle turfCenter radius 64 "kilometers") ;;
      ret (Some g)
  end.

(** The [polygon] case; [coords.map] throws unless [coords] is an array. *)
Definition polygon_geometry (zone : value) : action (option Feature) :=
  coordinates <~ lift (get_prop zone "coordinates") ;;
  coords <~ lift (unwrap coordinates) ;;
  match coords with
  | VArr elems =>
      mapped <~ mapA polygon_point elems ;;
      let turfCoords := filter not_null mapped in
      ring <~ lift (close_ring turfCoords) ;;
      g <~ lift (turf_polygon [ring]) ;;
      ret (Some g)
  | _ => lift (Throw TypeError)
  end.

(** [points.map((p) => p[k])], then the numbers [Math.min] and [Math.max]
    see. *)
Fixpoint components (k : nat) (points : list value) : result (list number) :=
  match points with
  | [] => Ok []
  | p :: rest =>
      c <- get_index p k ;;
      cs <- components k rest ;;
      Ok (ToNumber rt c :: cs)
  end.

(** The [rectangle] case. *)
Definition rectangle_geometry (zone : value) : action (option Feature) :=
  coordinates <~ lift (get_prop zone "coordinates") ;;
  coords <~ lift (unwrap coordinates) ;;
  match coords with
  | VArr elems =>
      mapped <~ mapA rectangle_point elems ;;
      let points := filter not_null mapped in
      lats <~ lift (components 0 points) ;;
      lngs <~ lift (components 1 points) ;;
      let minLat := VNum (Math_min lats) in
      let maxLat := VNum (Math_max lats) in
      let minLng := VNum (Math_min lngs) in
      let maxLng := VNum (Math_max lngs) in
      let rectangleCoords :=
        [VArr [minLng; minLat]; VArr [maxLng; minLat]; VArr [maxLng; maxLat];
         VArr [minLng; maxLat]; VArr [minLng; minLat]] in
      g <~ lift (turf_polygon [rectangleCoords]) ;;
      ret (Some g)
  | _ => lift (Throw TypeError)
  end.

(** The body of the [try] block of [zoneToTurfGeometry]. *)
Definition zoneToTurfGeometry_try (zone : value) : action (option Feature) :=
  type <~ lift (get_prop zone "type") ;;
  if strict_eq type (VStr "circle") then circle_geometry zone
  else if strict_eq type (VStr "polygon") then polygon_geometry zone
  else if strict_eq type (VStr "rectangle") then rectangle_geometry zone
  else ret None.

(** [zoneToTurfGeometry(zone)]: the feature, or [null] ([None]); what the
    body throws is caught, logged and turned into [null]. *)
Definition zoneToTurfGeometry (zone : value)
  : list log_entry * option Feature :=
  let attempt := zoneToTurfGeometry_try zone in
  match snd attempt with
  | Ok g => (fst attempt, g)
  | Throw e =>
      (fst attempt ++
       [console_error "[Validation] Error converting zone:" (Some e) [zone]],
       None)
  end.

(** The result of [checkZoneOverlap]. *)
Record OverlapResult : Type := {
  hasOverlap : bool;
  overlappingZones : list value
}.

(** The [try] block of the scan: [overlaps || intersects]. *)
Definition overlap_test (newGeometry existingGeometry : Feature)
  : result bool :=
  overlaps <- turf_booleanOverlap newGeometry existingGeometry ;;
  intersects <- turf_booleanIntersects newGeometry existingGeometry ;;
  Ok (overlaps || intersects).

(** [for (const existingZone of existingZones)], the zones still to visit
    and the zones pushed so far. *)
Fixpoint scan (newGeometry : Feature) (existingZones : list value)
         (overlappingZones : list value) : action (list value) :=
  match existingZones with
  | [] => ret overlappingZones
  | existingZone :: rest =>
      let conversion := zoneToTurfGeometry existingZone in
      _ <~ (fst conversion, Ok tt) ;;
      match snd conversion with
      | None =>
          id <~ lift (get_prop existingZone "id") ;;
          _ <~ log (console_warn
                      "Could not convert existing zone to Turf geometry:"
                      [id]) ;;
          scan newGeometry rest overlappingZones
      | Some existingGeometry =>
          match overlap_test newGeometry existingGeometry with
          | Ok true =>
              scan newGeometry rest (overlappingZones ++ [existingZone])
          | Ok false => scan newGeometry rest overlappingZones
          | Throw e =>
              _ <~ log (console_error "Error checking intersection:"
                                      (Some e) []) ;;
              scan newGeometry rest overlappingZones
          end
      end
  end.

(** The one-character strings a string iterates over. *)
Fixpoint characters (s : string) : list value :=
  match s with
  | String.EmptyString => []
  | String.String c rest =>
      VStr (String.String c String.EmptyString) :: characters rest
  end.

Definition no_overlap : OverlapResult :=
  {| hasOverlap := false; overlappingZones := [] |}.

(** [checkZoneOverlap(newZone, existingZones)] *)
Definition checkZoneOverlap (newZone existingZones : value)
  : action OverlapResult :=
  if negb (truthy newZone) then ret no_overlap
  else if negb (truthy existingZones) then ret no_overlap
  else
    len <~ lift (get_prop existingZones "length") ;;
    if strict_eq len (VNum (of_Z 0)) then ret no_overlap
    else
      let conversion := zoneToTurfGeometry newZone in
      _ <~ (fst conversion, Ok tt) ;;
      match snd conversion with
      | None =>
          _ <~ log (console_warn "Could not convert new zone to Turf geometry"
                                 []) ;;
          ret no_overlap
      | Some newGeometry =>
          zones <~ lift (match existingZones with
                         | VArr elems => Ok elems
                         | VStr s => Ok (characters s)
                         | _ => Throw TypeError
                         end) ;;
          overlapping <~ scan newGeometry zones [] ;;
          ret {| hasOverlap := Nat.ltb 0 (length overlapping);
                 overlappingZones := overlapping |}
      end.

(** *** The overlap scan *)

Lemma bindA_lift_Ok {A B : Type} (a : A) (k : A -> action B) :
  bindA (lift (Ok a)) k = k a.
Proof. unfold bindA, lift. cbn [fst snd app]. destruct (k a); reflexivity. Qed.

Lemma bindA_ret {A B : Type} (a : A) (k : A -> action B) :
  bindA (ret a) k = k a.
Proof. apply bindA_lift_Ok. Qed.

(** [undefined] and [null], the values with no property to read. *)
Definition nullish (v : value) : bool :=
  match v with
  | VUndefined => true
  | VNull => true
  | _ => false
  end.

(** [v.name] for a [v] that can be read. *)
Definition prop_of (v : value) (name : string) : value :=
  match get_prop v name with
  | Ok x => x
  | Throw _ => VUndefined
  end.

(** The two geometries overlap: both predicates of the library answer, and
    one of them holds. *)
Definition overlaps_or_intersects (newGeometry existingGeometry : Feature)
  : bool :=
  match turf_booleanOverlap newGeometry existingGeometry,
        turf_booleanIntersects newGeometry existingGeometry with
  | Ok overlaps, Ok intersects => overlaps || intersects
  | _, _ => false
  end.

(** The existing zone converts, and its geometry and the candidate's
    overlap. *)
Definition found_overlapping (newGeometry : Feature) (existingZone : value)
  : bool :=
  match snd (zoneToTurfGeometry existingZone) with
  | Some existingGeometry => overlaps_or_intersects newGeometry existingGeometry
  | None => false
  end.

(** The zones a scan is to report for a candidate. *)
Definition expected_overlapping (newZone : value) (zones : list value)
  : list value :=
  if truthy newZone then
    match snd (zoneToTurfGeometry newZone) with
    | Some newGeometry => filter (found_overlapping newGeometry) zones
    | None => []
    end
  else [].

Definition conversion_warning (existingZone : value) : log_entry :=
  console_warn "Could not convert existing zone to Turf geometry:"
               [prop_of existingZone "id"].

Lemma get_prop_not_nullish (v : value) (name : string) :
  nullish v = false -> get_prop v name = Ok (prop_of v name).
Proof.
  intro H. unfold prop_of.
  destruct v; try discriminate H; cbn [get_prop];
    try reflexivity; destruct (String.eqb name "length"); reflexivity.
Qed.

Lemma truthy_not_nullish (v : value) : truthy v = true -> nullish v = false.
Proof. destruct v; (discriminate || reflexivity). Qed.

Lemma scan_step_unconvertible (newGeometry : Feature) (z : value)
      (rest acc : list value) :
  nullish z = false ->
  snd (zoneToTurfGeometry z) = None ->
  scan newGeometry (z :: rest) acc =
  (fst (zoneToTurfGeometry z) ++ conversion_warning z ::
     fst (scan newGeometry rest acc),
   snd (scan newGeometry rest acc)).
Proof.
  intros Hz Hnone. cbn [scan]. rewrite Hnone.
  rewrite (get_prop_not_nullish z "id" Hz).
  unfold bindA, lift, log. cbn [fst snd app].
  destruct (snd (scan newGeometry rest acc)); reflexivity.
Qed.

Lemma scan_step_convertible (newGeometry g : Feature) (z : value)
      (rest acc : list value) :
  snd (zoneToTurfGeometry z) = Some g ->
  exists entries,
    scan newGeometry (z :: rest) acc =
    (fst (zoneToTurfGeometry z) ++ entries ++
       fst (scan newGeometry rest
                 (if found_overlapping newGeometry z then acc ++ [z] else acc)),
     snd (scan newGeometry rest
               (if found_overlapping newGeometry z then acc ++ [z] else acc))).
Proof.
  intro Hsome. cbn [scan].
  unfold found_overlapping, overlaps_or_intersects, overlap_test.
  rewrite Hsome.
  destruct (turf_booleanOverlap newGeometry g) as [overlaps|e]; cbn [bind].
  - destruct (turf_booleanIntersects newGeometry g) as [intersects|e];
      cbn [bind].
    + exists []. destruct (overlaps || intersects);
        unfold bindA; cbn [fst snd app];
        destruct (snd (scan _ _ _)); reflexivity.
    + exists [console_error "Error checking intersection:" (Some e) []].
      unfold bindA, log. cbn [fst snd app].
      destruct (snd (scan _ _ _)); reflexivity.
  - exists [console_error "Error checking intersection:" (Some e) []].
    unfold bindA, log. cbn [fst snd app].
    destruct (snd (scan _ _ _)); reflexivity.
Qed.

(** The scan visits every zone and returns the overlapping ones, in the
    order of the list, after those pushed before. *)
Lemma scan_result (newGeometry : Feature) (zones acc : list value) :
  Forall (fun z => nullish z = false) zones ->
  snd (scan newGeometry zones acc) =
  Ok (acc ++ filter (found_overlapping newGeometry) zones).
Proof.
  revert acc. induction zones as [|z rest IH]; intros acc Hall.
  - cbn [scan filter]. rewrite app_nil_r. reflexivity.
  - inversion Hall as [|? ? Hz Hrest]; subst.
    destruct (snd (zoneToTurfGeometry z)) as [g|] eqn:Hconv.
    + destruct (scan_step_convertible newGeometry g z rest acc Hconv)
        as [entries ->].
      cbn [snd filter]. rewrite IH by exact Hrest.
      destruct (found_overlapping newGeometry z);
        [ rewrite <- app_assoc | ]; reflexivity.
    + rewrite scan_step_unconvertible by assumption.
      cbn [snd filter]. rewrite IH by exact Hrest.
      unfold found_overlapping at 2. rewrite Hconv. reflexivity.
Qed.


(** The call on a candidate that converts and a non-empty array. *)
Lemma checkZoneOverlap_scan (newZone : value) (newGeometry : Feature)
      (zones : list value) :
  truthy newZone = true ->
  snd (zoneToTurfGeometry newZone) = Some newGeometry ->
  zones <> [] ->
  checkZoneOverlap newZone (VArr zones) =
  (fst (zoneToTurfGeometry newZone) ++ fst (scan newGeometry zones []),
   match snd (scan newGeometry zones []) with
   | Ok overlapping =>
       Ok {| hasOverlap := Nat.ltb 0 (length overlapping);
             overlappingZones := overlapping |}
   | Throw e => Throw e
   end).
Proof.
  intros Htruthy Hconv Hne. unfold checkZoneOverlap.
  rewrite Htruthy. cbn [negb truthy get_prop String.eqb Ascii.eqb Bool.eqb].
  unfold bindA at 1. cbn [lift fst snd app].
  destruct zones as [|z0 rest]; [ contradiction | ].
  cbn [strict_eq]. rewrite of_nat_is_zero. cbn [length Nat.eqb].
  rewrite Hconv. unfold bindA, lift, ret. cbn [fst snd app].
  destruct (snd (scan newGeometry (z0 :: rest) [])); cbn [fst snd];
    rewrite ?app_nil_r; reflexivity.
Qed.

(** C10. [checkZoneOverlap] fails open: on a [null] candidate, on a [null]
    or empty list of existing zones, and on a candidate that does not
    convert to a geometry, it returns
    [{ hasOverlap: false, overlappingZones: [] }] and throws nothing. *)
Theorem checkZoneOverlap_fails_open (newZone existingZones : value) :
  newZone = VNull \/ existingZones = VNull \/ existingZones = VArr [] \/
  snd (zoneToTurfGeometry newZone) = None ->
  snd (checkZoneOverlap newZone existingZones) = Ok no_overlap.
Proof.
  intro H. unfold checkZoneOverlap.
  destruct (truthy newZone) eqn:Hnew; [ | reflexivity ].
  destruct (truthy existingZones) eqn:Hex; [ | reflexivity ].
  cbn [negb].
  rewrite (get_prop_not_nullish existingZones "length"
             (truthy_not_nullish _ Hex)).
  unfold bindA at 1. cbn [lift fst snd app].
  destruct (strict_eq (prop_of existingZones "length") (VNum (of_Z 0))) eqn:Hlen;
    [ reflexivity | ].
  destruct H as [-> | [-> | [-> | Hnone]]];
    try discriminate Hnew; try discriminate Hex; try discriminate Hlen.
  rewrite Hnone. reflexivity.
Qed.

(** The call on an empty array, and on a candidate that does not
    convert. *)
Lemma checkZoneOverlap_empty (newZone : value) :
  snd (checkZoneOverlap newZone (VArr [])) = Ok no_overlap.
Proof.
  unfold checkZoneOverlap. destruct (truthy newZone); reflexivity.
Qed.

Lemma checkZoneOverlap_unconvertible (newZone : value) (zones : list value) :
  snd (zoneToTurfGeometry newZone) = None ->
  snd (checkZoneOverlap newZone (VArr zones)) = Ok no_overlap.
Proof.
  intro Hnone. unfold checkZoneOverlap.
  destruct (truthy newZone); [ | reflexivity ].
  cbn [negb truthy get_prop String.eqb Ascii.eqb Bool.eqb].
  rewrite bindA_lift_Ok.
  destruct (strict_eq (VNum (of_nat (length zones))) (VNum (of_Z 0)));
    [ reflexivity | ].
  rewrite Hnone. reflexivity.
Qed.

(** C7 (as the code has it). On an array of existing zones
    [checkZoneOverlap] returns a record whose [hasOverlap] is a boolean,
    true exactly when [overlappingZones] is not empty, and whose
    [overlappingZones] is the sequence of the existing zones themselves (the
    zone objects, in the order of the array) found to overlap the
    candidate. *)
Theorem checkZoneOverlap_record (newZone : value) (zones : list value) :
  Forall (fun z => nullish z = false) zones ->
  snd (checkZoneOverlap newZone (VArr zones)) =
  Ok {| hasOverlap := Nat.ltb 0 (length (expected_overlapping newZone zones));
        overlappingZones := expected_overlapping newZone zones |}.
Proof.
  intro Hall. unfold expected_overlapping.
  destruct (truthy newZone) eqn:Hnew.
  - destruct zones as [|z0 rest].
    + rewrite checkZoneOverlap_empty.
      destruct (snd (zoneToTurfGeometry newZone)); reflexivity.
    + destruct (snd (zoneToTurfGeometry newZone)) as [g|] eqn:Hconv.
      * rewrite (checkZoneOverlap_scan newZone g) by (assumption || discriminate).
        cbn [snd]. rewrite scan_result by exact Hall. reflexivity.
      * rewrite checkZoneOverlap_unconvertible by exact Hconv.
        reflexivity.
  - unfold checkZoneOverlap. rewrite Hnew. reflexivity.
Qed.


(** *** Point encodings in the polygon case *)


Lemma mapA_polygon_point_pairs (ps : list (number * number)) :
  mapA polygon_point (map pair_point ps) = ret (map position ps).
Proof.
  induction ps as [|p ps IH]; [ reflexivity | ].
  cbn [map mapA]. rewrite IH. reflexivity.
Qed.

Lemma mapA_polygon_point_lat_lng (ps : list (number * number)) :
  mapA polygon_point (map lat_lng_point ps) = ret (map position ps).
Proof.
  induction ps as [|p ps IH]; [ reflexivity | ].
  cbn [map mapA]. rewrite IH. reflexivity.
Qed.

Lemma unwrap_pairs (ps : list (number * number)) :
  unwrap (VArr (map pair_point ps)) = Ok (VArr (map pair_point ps)).
Proof. destruct ps; reflexivity. Qed.

Lemma unwrap_lat_lng (ps : list (number * number)) :
  unwrap (VArr (map lat_lng_point ps)) = Ok (VArr (map lat_lng_point ps)).
Proof. destruct ps; reflexivity. Qed.

Lemma unwrap_wrapped_pairs (ps : list (number * number)) :
  ps <> [] ->
  unwrap (VArr [VArr (map pair_point ps)]) = Ok (VArr (map pair_point ps)).
Proof. destruct ps as [|p ps]; [ contradiction | reflexivity ]. Qed.

(** What the polygon case computes from the positions of a ring. *)
Definition geometry_of_positions (positions : list value)
  : action (option Feature) :=
  ring <~ lift (close_ring (filter not_null positions)) ;;
  g <~ lift (turf_polygon [ring]) ;;
  ret (Some g).

Lemma polygon_geometry_positions (coordinates : value)
      (ps : list (number * number)) (points : list value) :
  unwrap coordinates = Ok (VArr points) ->
  mapA polygon_point points = ret (map position ps) ->
  zoneToTurfGeometry_try (polygon_zone coordinates) =
  geometry_of_positions (map position ps).
Proof.
  intros Hunwrap Hmap. unfold zoneToTurfGeometry_try, polygon_zone.
  change (get_prop (VObj [("type", VStr "polygon");
                          ("coordinates", coordinates)]) "type")
    with (@Ok value (VStr "polygon")).
  rewrite bindA_lift_Ok.
  change (strict_eq (VStr "polygon") (VStr "circle")) with false.
  change (strict_eq (VStr "polygon") (VStr "polygon")) with true.
  cbv iota. unfold polygon_geometry.
  change (get_prop (VObj [("type", VStr "polygon");
                          ("coordinates", coordinates)]) "coordinates")
    with (@Ok value coordinates).
  rewrite bindA_lift_Ok, Hunwrap, bindA_lift_Ok, Hmap, bindA_ret.
  reflexivity.
Qed.

(** C4 (as the code has it). The conversion of polygon points accepts the
    ordered pair [[lat, lng]] and the object [{ lat, lng }] and gives both
    the same position; a ring of either encoding converts to the same
    geometry, and so does a ring of pairs wrapped in a one-element array. *)
Theorem polygon_point_encodings (ps : list (number * number)) :
  (forall p : number * number,
      polygon_point (pair_point p) = ret (position p) /\
      polygon_point (lat_lng_point p) = ret (position p)) /\
  snd (zoneToTurfGeometry (polygon_zone (VArr (map lat_lng_point ps)))) =
  snd (zoneToTurfGeometry (polygon_zone (VArr (map pair_point ps)))) /\
  (ps <> [] ->
   snd (zoneToTurfGeometry (polygon_zone (VArr [VArr (map pair_point ps)]))) =
   snd (zoneToTurfGeometry (polygon_zone (VArr (map pair_point ps))))).
Proof.
  split; [ intro p; split; reflexivity | ].
  unfold zoneToTurfGeometry.
  rewrite (polygon_geometry_positions (VArr (map pair_point ps)) ps
             (map pair_point ps) (unwrap_pairs ps)
             (mapA_polygon_point_pairs ps)).
  rewrite (polygon_geometry_positions (VArr (map lat_lng_point ps)) ps
             (map lat_lng_point ps) (unwrap_lat_lng ps)
             (mapA_polygon_point_lat_lng ps)).
  split.
  - destruct (snd (geometry_of_positions (map position ps))); reflexivity.
  - intro Hne.
    rewrite (polygon_geometry_positions (VArr [VArr (map pair_point ps)]) ps
               (map pair_point ps) (unwrap_wrapped_pairs ps Hne)
               (mapA_polygon_point_pairs ps)).
    destruct (snd (geometry_of_positions (map position ps))); reflexivity.
Qed.

(** *** Rectangles and polygons *)

(** The closed ring of the box with the given bounds, as positions
    [[lng, lat]]: south-west, south-east, north-east, north-west and
    south-west again. *)
Definition bounding_ring (lat1 lat2 lng1 lng2 : number) : list value :=
  [VArr [VNum lng1; VNum lat1];
   VArr [VNum lng2; VNum lat1];
   VArr [VNum lng2; VNum lat2];
   VArr [VNum lng1; VNum lat2];
   VArr [VNum lng1; VNum lat1]].

Definition ring_feature (ring : list value) : action (option Feature) :=
  g <~ lift (turf_polygon [ring]) ;;
  ret (Some g).

(** The two points have the same coordinates. *)
Definition same_point (p q : number * number) : bool :=
  neqb (snd p) (snd q) && neqb (fst p) (fst q).

(** The positions of a ring, the first repeated at the end unless the last
    point has its coordinates. *)
Definition closed_positions (ps : list (number * number)) : list value :=
  if same_point (hd ZoneCalculations.origin ps) (last ps ZoneCalculations.origin)
  then map position ps
  else map position ps ++ [position (hd ZoneCalculations.origin ps)].

Lemma rectangle_try_ring (p0 p1 p2 p3 : number * number) :
  zoneToTurfGeometry_try
    (VObj (ZoneCalculations.zone_of "rectangle"
             (ZoneCalculations.ring_value [p0; p1; p2; p3]))) =
  ring_feature
    (bounding_ring
       (Math_min (map ZoneCalculations.lat [p0; p1; p2; p3]))
       (Math_max (map ZoneCalculations.lat [p0; p1; p2; p3]))
       (Math_min (map ZoneCalculations.lng [p0; p1; p2; p3]))
       (Math_max (map ZoneCalculations.lng [p0; p1; p2; p3]))).
Proof.
  set (coords := ZoneCalculations.ring_value [p0; p1; p2; p3]).
  unfold zoneToTurfGeometry_try, ZoneCalculations.zone_of.
  change (get_prop (VObj [("type", VStr "rectangle");
                          ("coordinates", coords)]) "type")
    with (@Ok value (VStr "rectangle")).
  rewrite bindA_lift_Ok.
  change (strict_eq (VStr "rectangle") (VStr "circle")) with false.
  change (strict_eq (VStr "rectangle") (VStr "polygon")) with false.
  change (strict_eq (VStr "rectangle") (VStr "rectangle")) with true.
  cbv iota. unfold rectangle_geometry.
  change (get_prop (VObj [("type", VStr "rectangle");
                          ("coordinates", coords)]) "coordinates")
    with (@Ok value coords).
  subst coords.
  rewrite bindA_lift_Ok, ZoneCalculations.unwrap_ring_value, bindA_lift_Ok.
  unfold ZoneCalculations.ring_value.
  cbn [map]. unfold ZoneCalculations.pair_value.
  cbn [mapA rectangle_point isArray].
  rewrite !bindA_ret.
  cbn [filter not_null strict_eq negb].
  cbn [components get_index nth bind ToNumber].
  rewrite !bindA_lift_Ok. reflexivity.
Qed.

Lemma filter_not_null_positions (ps : list (number * number)) :
  filter not_null (map position ps) = map position ps.
Proof.
  induction ps as [|p ps IH]; [ reflexivity | ].
  cbn [map filter]. rewrite IH. reflexivity.
Qed.

Lemma nth_last_position (ps : list (number * number)) :
  ps <> [] ->
  nth (length (map position ps) - 1) (map position ps) VUndefined
  = position (last ps ZoneCalculations.origin).
Proof.
  intro Hne. rewrite length_map.
  rewrite (nth_indep _ VUndefined (position ZoneCalculations.origin))
    by (rewrite length_map; destruct ps; [ contradiction | cbn [length]; lia ]).
  rewrite map_nth. f_equal.
  destruct (exists_last Hne) as (l & x & ->).
  rewrite last_last, length_app. cbn [length].
  replace (length l + 1 - 1)%nat with (length l) by lia.
  rewrite app_nth2 by lia. rewrite Nat.sub_diag. reflexivity.
Qed.

Lemma close_ring_positions (ps : list (number * number)) :
  ps <> [] ->
  close_ring (map position ps) = Ok (closed_positions ps).
Proof.
  intro Hne. unfold close_ring, closed_positions, same_point.
  cbn [get_index bind]. rewrite nth_last_position by exact Hne.
  destruct ps as [|p ps]; [ contradiction | ].
  cbn [map nth hd position fst snd get_index bind
       strict_neq_slot strict_eq].
  destruct (neqb (snd p) (snd (last (p :: ps) ZoneCalculations.origin)));
    cbn [negb andb]; [ | reflexivity ].
  destruct (neqb (fst p) (fst (last (p :: ps) ZoneCalculations.origin)));
    reflexivity.
Qed.

Lemma polygon_try_ring (ps : list (number * number)) :
  ps <> [] ->
  zoneToTurfGeometry_try
    (polygon_zone (ZoneCalculations.ring_value ps)) =
  ring_feature (closed_positions ps).
Proof.
  intro Hne.
  change (ZoneCalculations.ring_value ps) with (VArr (map pair_point ps)).
  rewrite (polygon_geometry_positions _ _ _ (unwrap_pairs _)
             (mapA_polygon_point_pairs _)).
  unfold geometry_of_positions, ring_feature.
  rewrite filter_not_null_positions, close_ring_positions by exact Hne.
  rewrite bindA_lift_Ok. reflexivity.
Qed.

Lemma neqb_refl (x : number) : is_nan x = false -> neqb x x = true.
Proof.
  intro H. apply neqb_iff. unfold num_eq.
  pose proof (nleb_refl x H) as Hle. unfold nleb, SFleb in Hle.
  pose proof (compare_antisym x x) as Ha.
  destruct (SFcompare x x) as [[ | | ]|]; try reflexivity;
    try discriminate Hle; cbn [CompOpp] in Ha; discriminate Ha.
Qed.

Lemma num_lt_neqb_false (x y : number) : num_lt x y -> neqb x y = false.
Proof. intro H. unfold neqb, SFeqb. rewrite H. reflexivity. Qed.

(** The four corners of a box listed from the south-west corner on,
    south-east next: the closed ring of the polygon is the ring of the
    box. *)
Lemma closed_positions_box (lat1 lat2 lng1 lng2 : number) :
  num_lt lat1 lat2 -> num_lt lng1 lng2 ->
  closed_positions [(lat1, lng1); (lat1, lng2); (lat2, lng2); (lat2, lng1)] =
  bounding_ring lat1 lat2 lng1 lng2.
Proof.
  intros Hlat Hlng. unfold closed_positions, same_point.
  cbn [hd last fst snd].
  rewrite (neqb_refl lng1) by (apply (num_lt_not_nan _ _ Hlng)).
  rewrite (num_lt_neqb_false lat1 lat2 Hlat). reflexivity.
Qed.

(** C5 (as the code has it). Under the tags ['rectangle'] and ['polygon']
    the same vertices give the same centre.  Four vertices tagged
    ['rectangle'] get the area and the overlap geometry of the box of their
    least and greatest latitudes and longitudes, whichever quadrilateral
    they are the vertices of; tagged ['polygon'] they get the shoelace area
    of the ring as listed and the closed ring as listed.  The two geometries
    are the same when the vertices are the corners of a box listed from the
    south-west corner on, south-east next. *)
Theorem rectangle_as_polygon (p0 p1 p2 p3 : number * number) :
  let ps := [p0; p1; p2; p3] in
  let ring := ZoneCalculations.ring_value ps in
  let lats := map ZoneCalculations.lat ps in
  let lngs := map ZoneCalculations.lng ps in
  (forall coordinates : value,
      ZoneCalculations.calculateZoneCenter rt
        (ZoneCalculations.zone_of "rectangle" coordinates) =
      ZoneCalculations.calculateZoneCenter rt
        (ZoneCalculations.zone_of "polygon" coordinates)) /\
  ZoneCalculations.calculateZoneArea rt
    (ZoneCalculations.zone_of "rectangle" ring) =
  Ok (VNum (ZoneCalculations.box_area_m2 (cos rt)
              (Math_min lats) (Math_max lats)
              (Math_min lngs) (Math_max lngs))) /\
  zoneToTurfGeometry_try (VObj (ZoneCalculations.zone_of "rectangle" ring)) =
  ring_feature (bounding_ring (Math_min lats) (Math_max lats)
                              (Math_min lngs) (Math_max lngs)) /\
  (Forall not_nan lats -> bounds (Math_min lats) (Math_max lats) lats) /\
  (Forall not_nan lngs -> bounds (Math_min lngs) (Math_max lngs) lngs) /\
  ZoneCalculations.calculateZoneArea rt
    (ZoneCalculations.zone_of "polygon" ring) =
  Ok (VNum (ZoneCalculations.shoelace_area_m2 (cos rt) ps)) /\
  zoneToTurfGeometry_try (VObj (ZoneCalculations.zone_of "polygon" ring)) =
  ring_feature (closed_positions ps) /\
  (forall lat1 lat2 lng1 lng2 : number,
      num_lt lat1 lat2 -> num_lt lng1 lng2 ->
      ps = [(lat1, lng1); (lat1, lng2); (lat2, lng2); (lat2, lng1)] ->
      closed_positions ps = bounding_ring lat1 lat2 lng1 lng2 /\
      snd (zoneToTurfGeometry
             (VObj (ZoneCalculations.zone_of "rectangle" ring))) =
      snd (zoneToTurfGeometry
             (VObj (ZoneCalculations.zone_of "polygon" ring)))).
Proof.
  intros ps ring lats lngs.
  assert (Hpoly : zoneToTurfGeometry_try
                    (VObj (ZoneCalculations.zone_of "polygon" ring)) =
                  ring_feature (closed_positions ps))
    by (apply (polygon_try_ring ps); discriminate).
  assert (Hrect : zoneToTurfGeometry_try
                    (VObj (ZoneCalculations.zone_of "rectangle" ring)) =
                  ring_feature (bounding_ring (Math_min lats) (Math_max lats)
                                              (Math_min lngs) (Math_max lngs)))
    by apply rectangle_try_ring.
  split; [ apply ZoneCalculations.calculateZoneCenter_rectangle_polygon | ].
  split; [ apply ZoneCalculations.calculateZoneArea_rectangle_ring | ].
  split; [ exact Hrect | ].
  split; [ apply Math_min_max_bounds | ].
  split; [ apply Math_min_max_bounds | ].
  split; [ apply ZoneCalculations.calculateZoneArea_ring; reflexivity | ].
  split; [ exact Hpoly | ].
  intros lat1 lat2 lng1 lng2 Hlat Hlng Hps.
  assert (Hclosed : closed_positions ps = bounding_ring lat1 lat2 lng1 lng2)
    by (rewrite Hps; apply closed_positions_box; assumption).
  split; [ exact Hclosed | ].
  unfold zoneToTurfGeometry. rewrite Hpoly, Hclosed, Hrect.
  assert (Hlats : Math_min lats = lat1 /\ Math_max lats = lat2).
  { unfold lats. rewrite Hps. cbn [map ZoneCalculations.lat fst].
    apply Math_min_max_ordered; [ exact Hlat | | | ];
      cbn [In]; intuition auto. }
  assert (Hlngs : Math_min lngs = lng1 /\ Math_max lngs = lng2).
  { unfold lngs. rewrite Hps. cbn [map ZoneCalculations.lng snd].
    apply Math_min_max_ordered; [ exact Hlng | | | ];
      cbn [In]; intuition auto. }
  destruct Hlats as [-> ->]. destruct Hlngs as [-> ->].
  destruct (snd (ring_feature (bounding_ring lat1 lat2 lng1 lng2)));
    reflexivity.
Qed.

(** *** The ring handed to the geometry library *)

Lemma last_closed_positions (ps : list (number * number)) :
  ps <> [] ->
  not_nan (fst (hd ZoneCalculations.origin ps)) ->
  not_nan (snd (hd ZoneCalculations.origin ps)) ->
  exists q : number * number,
    last (closed_positions ps) VUndefined = position q /\
    same_point (hd ZoneCalculations.origin ps) q = true.
Proof.
  intros Hne Hlat Hlng. unfold closed_positions.
  destruct (same_point (hd ZoneCalculations.origin ps)
                       (last ps ZoneCalculations.origin)) eqn:E.
  - exists (last ps ZoneCalculations.origin). split; [ | exact E ].
    destruct (exists_last Hne) as (l & x & ->).
    rewrite map_app. cbn [map]. rewrite !last_last. reflexivity.
  - exists (hd ZoneCalculations.origin ps). split; [ apply last_last | ].
    unfold same_point. rewrite !neqb_refl by assumption. reflexivity.
Qed.

(** X11. For a polygon whose coordinates are a non-empty flat ring of
    pairs of numbers the ring handed to [turf.polygon] is the ring of
    positions, unchanged when its last point has the coordinates of the
    first, and followed by a copy of the first otherwise; unless a
    coordinate of the first point is [NaN] it ends on the coordinates it
    starts with. *)
Theorem polygon_ring_closed (ps : list (number * number)) :
  ps <> [] ->
  zoneToTurfGeometry_try
    (polygon_zone (ZoneCalculations.ring_value ps)) =
  ring_feature (closed_positions ps) /\
  hd VUndefined (closed_positions ps) =
  position (hd ZoneCalculations.origin ps) /\
  (not_nan (fst (hd ZoneCalculations.origin ps)) ->
   not_nan (snd (hd ZoneCalculations.origin ps)) ->
   exists q : number * number,
     last (closed_positions ps) VUndefined = position q /\
     same_point (hd ZoneCalculations.origin ps) q = true).
Proof.
  intro Hne. split; [ | split ].
  - apply polygon_try_ring. exact Hne.
  - unfold closed_positions.
    destruct ps as [|p ps]; [ contradiction | ].
    destruct (same_point _ _); reflexivity.
  - apply last_closed_positions. exact Hne.
Qed.

(** *** Points that are not points *)





(** *** Scanning a concatenation *)

Lemma checkZoneOverlap_filter (newZone : value) (newGeometry : Feature)
      (zones : list value) :
  truthy newZone = true ->
  snd (zoneToTurfGeometry newZone) = Some newGeometry ->
  Forall (fun z => nullish z = false) zones ->
  snd (checkZoneOverlap newZone (VArr zones)) =
  Ok {| hasOverlap :=
          Nat.ltb 0 (length (filter (found_overlapping newGeometry) zones));
        overlappingZones := filter (found_overlapping newGeometry) zones |}.
Proof.
  intros Hnew Hconv Hall.
  destruct zones as [|z0 rest]; [ apply checkZoneOverlap_empty | ].
  rewrite (checkZoneOverlap_scan newZone newGeometry)
    by (assumption || discriminate).
  cbn [snd]. rewrite scan_result by exact Hall. reflexivity.
Qed.

(** X13. The zones are tested one by one, each on its own: the scan of two
    arrays put end to end reports the zones of the first scan followed by
    the zones of the second, and finds an overlap when one of them does. *)
Theorem checkZoneOverlap_concatenation (newZone : value)
        (newGeometry : Feature) (zones1 zones2 : list value) :
  truthy newZone = true ->
  snd (zoneToTurfGeometry newZone) = Some newGeometry ->
  Forall (fun z => nullish z = false) (zones1 ++ zones2) ->
  exists r r1 r2 : OverlapResult,
    snd (checkZoneOverlap newZone (VArr (zones1 ++ zones2))) = Ok r /\
    snd (checkZoneOverlap newZone (VArr zones1)) = Ok r1 /\
    snd (checkZoneOverlap newZone (VArr zones2)) = Ok r2 /\
    overlappingZones r = overlappingZones r1 ++ overlappingZones r2 /\
    hasOverlap r = hasOverlap r1 || hasOverlap r2.
Proof.
  intros Hnew Hconv Hall.
  destruct (proj1 (Forall_app _ _ _) Hall) as [Hall1 Hall2].
  do 3 eexists.
  rewrite !(checkZoneOverlap_filter newZone newGeometry) by assumption.
  repeat split; cbn [overlappingZones hasOverlap].
  - apply filter_app.
  - rewrite filter_app, length_app.
    destruct (filter (found_overlapping newGeometry) zones1);
      destruct (filter (found_overlapping newGeometry) zones2); reflexivity.
Qed.

(** *** Rings with points the polygon case does not read *)

Lemma mapA_polygon_point_entries (es : list ring_entry) :
  exists mapped : list value,
    mapA polygon_point (map encode_entry es) =
    (map invalid_point_error (dropped_entries es), Ok mapped) /\
    filter not_null mapped = map position (accepted_points es).
Proof.
  induction es as [|e es (mapped & Hmap & Hfilter)].
  - exists []. split; reflexivity.
  - destruct e as [p|p|p].
    + exists (position p :: mapped). split.
      * cbn [map mapA encode_entry dropped_entries].
        change (polygon_point (pair_point p)) with (@ret value (position p)).
        rewrite bindA_ret, Hmap. unfold bindA, ret. cbn [fst snd].
        rewrite app_nil_r. reflexivity.
      * cbn [filter accepted_points map]. rewrite Hfilter. reflexivity.
    + exists (position p :: mapped). split.
      * cbn [map mapA encode_entry dropped_entries].
        change (polygon_point (lat_lng_point p))
          with (@ret value (position p)).
        rewrite bindA_ret, Hmap. unfold bindA, ret. cbn [fst snd].
        rewrite app_nil_r. reflexivity.
      * cbn [filter accepted_points map]. rewrite Hfilter. reflexivity.
    + exists (VNull :: mapped). split.
      * cbn [map mapA encode_entry dropped_entries].
        change (polygon_point (latitude_longitude_point p))
          with ([invalid_point_error (latitude_longitude_point p)],
                @Ok value VNull).
        rewrite Hmap. unfold bindA, ret. cbn [fst snd app].
        rewrite app_nil_r. reflexivity.
      * cbn [filter accepted_points]. exact Hfilter.
Qed.

Lemma unwrap_entries (es : list ring_entry) :
  unwrap (VArr (map encode_entry es)) = Ok (VArr (map encode_entry es)).
Proof. destruct es as [|[p|p|p] es]; reflexivity. Qed.

Lemma polygon_geometry_mapped (coordinates : value) (points mapped : list value)
      (entries : list log_entry) :
  unwrap coordinates = Ok (VArr points) ->
  mapA polygon_point points = (entries, Ok mapped) ->
  zoneToTurfGeometry_try (polygon_zone coordinates) =
  (entries ++ fst (geometry_of_positions mapped),
   snd (geometry_of_positions mapped)).
Proof.
  intros Hunwrap Hmap. unfold zoneToTurfGeometry_try, polygon_zone.
  change (get_prop (VObj [("type", VStr "polygon");
                          ("coordinates", coordinates)]) "type")
    with (@Ok value (VStr "polygon")).
  rewrite bindA_lift_Ok.
  change (strict_eq (VStr "polygon") (VStr "circle")) with false.
  change (strict_eq (VStr "polygon") (VStr "polygon")) with true.
  cbv iota. unfold polygon_geometry.
  change (get_prop (VObj [("type", VStr "polygon");
                          ("coordinates", coordinates)]) "coordinates")
    with (@Ok value coordinates).
  rewrite bindA_lift_Ok, Hunwrap, bindA_lift_Ok, Hmap.
  reflexivity.
Qed.

Lemma geometry_of_positions_filter (mapped mapped' : list value) :
  filter not_null mapped = filter not_null mapped' ->
  geometry_of_positions mapped = geometry_of_positions mapped'.
Proof. intro H. unfold geometry_of_positions. rewrite H. reflexivity. Qed.

Lemma geometry_of_positions_quiet (mapped : list value) :
  fst (geometry_of_positions mapped) = [].
Proof.
  unfold geometry_of_positions, bindA, lift, ret. cbn [fst snd app].
  destruct (close_ring (filter not_null mapped)) as [ring|e]; [ | reflexivity ].
  cbn [fst snd app].
  destruct (turf_polygon [ring]); reflexivity.
Qed.

(** X14. In a polygon ring the points given as objects with fields
    [latitude] and [longitude] are dropped, one error logged for each, and
    the zone converts to the geometry of the points that are left, those
    given as pairs or as objects with [lat] and [lng]. *)
Theorem polygon_drops_latitude_longitude (es : list ring_entry) :
  snd (zoneToTurfGeometry (polygon_zone (VArr (map encode_entry es)))) =
  snd (zoneToTurfGeometry
         (polygon_zone (VArr (map pair_point (accepted_points es))))) /\
  fst (zoneToTurfGeometry_try (polygon_zone (VArr (map encode_entry es)))) =
  map invalid_point_error (dropped_entries es).
Proof.
  destruct (mapA_polygon_point_entries es) as (mapped & Hmap & Hfilter).
  assert (Htry := polygon_geometry_mapped _ _ _ _ (unwrap_entries es) Hmap).
  assert (Htry' := polygon_geometry_mapped _ _ _ _
                     (unwrap_pairs (accepted_points es))
                     (mapA_polygon_point_pairs (accepted_points es))).
  rewrite (geometry_of_positions_filter mapped (map position (accepted_points es)))
    in Htry.
  - split.
    + unfold zoneToTurfGeometry. rewrite Htry, Htry'. cbn [fst snd].
      destruct (snd (geometry_of_positions (map position (accepted_points es))));
        reflexivity.
    + rewrite Htry. cbn [fst].
      rewrite geometry_of_positions_quiet. apply app_nil_r.
  - rewrite Hfilter. clear.
    induction (accepted_points es) as [|p ps IH]; [ reflexivity | ].
    cbn [map filter]. rewrite <- IH. reflexivity.
Qed.

End WithTurf.

(** *** A geometry library to evaluate the scan with

    A feature is its array of rings; a polygon needs four positions in
    every ring; two features intersect when both have a ring. *)
Definition sample_Feature : Type := list (list value).

Definition sample_circle (center : list value) (radius : number)
           (steps : nat) (units : string) : result sample_Feature :=
  Ok [[VArr center]].

Definition sample_polygon (rings : list (list value))
  : result sample_Feature :=
  if forallb (fun ring => Nat.leb 4 (length ring)) rings then Ok rings
  else Throw (LibraryError
                "Each LinearRing of a Polygon must have 4 or more Positions.").

Definition sample_booleanOverlap (a b : sample_Feature) : result bool :=
  Ok false.

Definition sample_booleanIntersects (a b : sample_Feature) : result bool :=
  Ok (negb (Nat.eqb (length a) 0) && negb (Nat.eqb (length b) 0)).

Definition sample_checkZoneOverlap : value -> value -> action OverlapResult :=
  checkZoneOverlap ZoneCalculations.sample_runtime sample_Feature
                   sample_circle sample_polygon
                   sample_booleanOverlap sample_booleanIntersects.

Definition sample_zoneToTurfGeometry
  : value -> list log_entry * option sample_Feature :=
  zoneToTurfGeometry ZoneCalculations.sample_runtime sample_Feature
                     sample_circle sample_polygon.

Definition square_zone (id : string) : value :=
  VObj [("id", VStr id); ("type", VStr "polygon");
        ("coordinates", ZoneCalculations.ring_value ZoneCalculations.unit_square)].

(** A zone whose type is none of the three. *)
Definition shapeless_zone (id : string) : value :=
  VObj [("id", VStr id); ("type", VStr "triangle")].

Lemma checkZoneOverlap_fails_open_witness :
  snd (sample_checkZoneOverlap VNull (VArr [square_zone "a"])) = Ok no_overlap.
Proof.
  apply (checkZoneOverlap_fails_open ZoneCalculations.sample_runtime
           sample_Feature sample_circle sample_polygon
           sample_booleanOverlap sample_booleanIntersects
           VNull (VArr [square_zone "a"])).
  left. reflexivity.
Defined.

Lemma checkZoneOverlap_record_witness :
  snd (sample_checkZoneOverlap (square_zone "new")
         (VArr [square_zone "a"; shapeless_zone "b"])) =
  Ok {| hasOverlap := true; overlappingZones := [square_zone "a"] |}.
Proof.
  apply (checkZoneOverlap_record ZoneCalculations.sample_runtime
           sample_Feature sample_circle sample_polygon
           sample_booleanOverlap sample_booleanIntersects
           (square_zone "new") [square_zone "a"; shapeless_zone "b"]).
  repeat constructor.
Defined.

(** C7 (as stated) fails: the scan of two identical squares returns the
    existing zone itself, an object, where the claim has its id. *)
Lemma checkZoneOverlap_ids_counterexample :
  snd (sample_checkZoneOverlap (square_zone "new") (VArr [square_zone "a"])) =
  Ok {| hasOverlap := true; overlappingZones := [square_zone "a"] |} /\
  [square_zone "a"] <> [VStr "a"].
Proof. split; [ vm_compute; reflexivity | discriminate ]. Qed.


(** C4 (as stated) fails: of the four encodings of the point
    [(45.8, 16.0)] the conversion accepts the pair, rejects the object with
    fields [latitude] and [longitude] (an error is logged, the point is
    dropped), and takes the wrapped pair for a pair whose components are the
    missing second element and the inner array. *)
Lemma point_encodings_counterexample :
  let p := (decimal 458 1, of_Z 16) in
  polygon_point (pair_point p) = ret (position p) /\
  polygon_point (latitude_longitude_point p) =
  ([console_error "[Validation] Invalid polygon point:" None
                  [latitude_longitude_point p]], Ok VNull) /\
  polygon_point (VArr [pair_point p]) = ret (VArr [VUndefined; pair_point p]) /\
  VNull <> position p /\
  VArr [VUndefined; pair_point p] <> position p.
Proof. repeat split; discriminate. Qed.

Lemma rectangle_as_polygon_witness :
  closed_positions ZoneCalculations.unit_square =
  bounding_ring (of_Z 0) (of_Z 1) (of_Z 0) (of_Z 1) /\
  snd (sample_zoneToTurfGeometry
         (VObj (ZoneCalculations.zone_of "rectangle"
                  (ZoneCalculations.ring_value ZoneCalculations.unit_square)))) =
  snd (sample_zoneToTurfGeometry
         (VObj (ZoneCalculations.zone_of "polygon"
                  (ZoneCalculations.ring_value ZoneCalculations.unit_square)))).
Proof.
  pose proof (rectangle_as_polygon ZoneCalculations.sample_runtime
                sample_Feature sample_circle sample_polygon
                (of_Z 0, of_Z 0) (of_Z 0, of_Z 1)
                (of_Z 1, of_Z 1) (of_Z 1, of_Z 0)) as H.
  cbv zeta in H. destruct H as (_ & _ & _ & _ & _ & _ & _ & H).
  apply (H (of_Z 0) (of_Z 1) (of_Z 0) (of_Z 1)); reflexivity.
Defined.


Lemma polygon_ring_closed_witness :
  zoneToTurfGeometry_try ZoneCalculations.sample_runtime sample_Feature
    sample_circle sample_polygon
    (polygon_zone (ZoneCalculations.ring_value ZoneCalculations.unit_square)) =
  ring_feature sample_Feature sample_polygon
    (closed_positions ZoneCalculations.unit_square) /\
  hd VUndefined (closed_positions ZoneCalculations.unit_square) =
  position (hd ZoneCalculations.origin ZoneCalculations.unit_square) /\
  (not_nan (fst (hd ZoneCalculations.origin ZoneCalculations.unit_square)) ->
   not_nan (snd (hd ZoneCalculations.origin ZoneCalculations.unit_square)) ->
   exists q : number * number,
     last (closed_positions ZoneCalculations.unit_square) VUndefined =
     position q /\
     same_point (hd ZoneCalculations.origin ZoneCalculations.unit_square) q
     = true).
Proof.
  apply (polygon_ring_closed ZoneCalculations.sample_runtime sample_Feature
           sample_circle sample_polygon ZoneCalculations.unit_square).
  discriminate.
Defined.


Lemma checkZoneOverlap_concatenation_witness :
  exists r r1 r2 : OverlapResult,
    snd (sample_checkZoneOverlap (square_zone "new")
           (VArr ([square_zone "a"] ++ [shapeless_zone "b"; square_zone "c"])))
    = Ok r /\
    snd (sample_checkZoneOverlap (square_zone "new") (VArr [square_zone "a"]))
    = Ok r1 /\
    snd (sample_checkZoneOverlap (square_zone "new")
           (VArr [shapeless_zone "b"; square_zone "c"])) = Ok r2 /\
    overlappingZones r = overlappingZones r1 ++ overlappingZones r2 /\
    hasOverlap r = hasOverlap r1 || hasOverlap r2.
Proof.
  apply (checkZoneOverlap_concatenation ZoneCalculations.sample_runtime
           sample_Feature sample_circle sample_polygon
           sample_booleanOverlap sample_booleanIntersects
           (square_zone "new") [ZoneCalculations.closed_unit_square]
           [square_zone "a"] [shapeless_zone "b"; square_zone "c"]).
  - reflexivity.
  - vm_compute. reflexivity.
  - repeat constructor.
Defined.

End ZoneValidation.

(* ================================================================== *)
(** ** [src/hooks/useZones.js] and [src/context/ZonesContext.js] *)
(* ================================================================== *)

Module UseZones.

Import JsNumber Js.
Import String.StringSyntax.
Local Open Scope string_scope.
Local Open Scope list_scope.

(** The state of the hook: the array of zones. *)
Definition zones_state : Type := list object.

(** [addZone(zoneData)], with the identifier and the time the platform
    hands out: the new state and the zone returned, or what the
    calculations throw.  The zone is
    [{ id, ...zoneData, area, center, createdAt }]. *)
Definition addZone (rt : runtime) (uuid now : string) (prev : zones_state)
           (zoneData : object) : result (zones_state * object) :=
  area <- ZoneCalculations.calculateZoneArea rt zoneData ;;
  center <- ZoneCalculations.calculateZoneCenter rt zoneData ;;
  let newZone :=
    set_prop
      (set_prop
         (set_prop (spread [("id", VStr uuid)] zoneData) "area" area)
         "center" center)
      "createdAt" (VStr now) in
  Ok (prev ++ [newZone], newZone).

(** [updateZone(id, updates)]: the zone of that id becomes
    [{ ...zone, ...updates }], a copy of the zone with the properties of
    [updates] set. *)
Definition updateZone (id : value) (updates : object) (prev : zones_state)
  : zones_state :=
  map (fun zone => if strict_eq (get zone "id") id
                   then spread zone updates
                   else zone) prev.

(** The type a finished drawing is saved under ([completeDrawing]):
    [drawingMode === 'rectangle' ? 'polygon' : drawingMode]. *)
Definition saved_type (drawingMode : string) : string :=
  if String.eqb drawingMode "rectangle" then "polygon" else drawingMode.

(** *** Properties of objects *)

Lemma lookup_set_prop_same (o : object) (name : string) (v : value) :
  lookup name (set_prop o name v) = Some v.
Proof.
  induction o as [|[k w] o IH]; cbn [set_prop lookup].
  - rewrite String.eqb_refl. reflexivity.
  - destruct (String.eqb k name) eqn:E; cbn [lookup]; rewrite E;
      [ reflexivity | exact IH ].
Qed.

Lemma lookup_set_prop_other (o : object) (name other : string) (v : value) :
  name <> other ->
  lookup other (set_prop o name v) = lookup other o.
Proof.
  intro Hne. induction o as [|[k w] o IH]; cbn [set_prop lookup].
  - destruct (String.eqb name other) eqn:E; [ | reflexivity ].
    apply String.eqb_eq in E. contradiction.
  - destruct (String.eqb k name) eqn:E; cbn [lookup].
    + apply String.eqb_eq in E. subst k.
      destruct (String.eqb name other) eqn:E'; [ | reflexivity ].
      apply String.eqb_eq in E'. contradiction.
    + rewrite IH. reflexivity.
Qed.

Lemma lookup_spread_absent (o src : object) (name : string) :
  lookup name src = None ->
  lookup name (spread o src) = lookup name o.
Proof.
  revert o. unfold spread.
  induction src as [|[k v] src IH]; intros o Habsent; cbn [fold_left fst snd].
  - reflexivity.
  - cbn [lookup] in Habsent.
    destruct (String.eqb k name) eqn:E; [ discriminate Habsent | ].
    rewrite IH by exact Habsent.
    apply lookup_set_prop_other. intros ->.
    rewrite String.eqb_refl in E. discriminate E.
Qed.

Lemma get_spread_absent (o src : object) (name : string) :
  has src name = false -> get (spread o src) name = get o name.
Proof.
  unfold has, get. intro H.
  destruct (lookup name src) eqn:E; [ discriminate H | ].
  rewrite lookup_spread_absent by exact E. reflexivity.
Qed.

(** *** Area and centre of a stored zone *)

(** C8 (as the code has it). [addZone] stores the area and the centre it
    computes from the shape, whatever [area] and [center] the data it is
    given carries; [updateZone] computes nothing: an update that carries no
    [area] and no [center], one that changes only name or colour among them,
    leaves the stored area and centre of every zone as they were. *)
Theorem area_and_center_stored (rt : runtime) (uuid now : string)
        (prev : zones_state) :
  (forall (zoneData : object) (area center : value),
      ZoneCalculations.calculateZoneArea rt zoneData = Ok area ->
      ZoneCalculations.calculateZoneCenter rt zoneData = Ok center ->
      exists newZone : object,
        addZone rt uuid now prev zoneData = Ok (prev ++ [newZone], newZone) /\
        get newZone "area" = area /\ get newZone "center" = center) /\
  (forall (id : value) (updates : object),
      has updates "area" = false -> has updates "center" = false ->
      map (fun zone => get zone "area") (updateZone id updates prev) =
      map (fun zone => get zone "area") prev /\
      map (fun zone => get zone "center") (updateZone id updates prev) =
      map (fun zone => get zone "center") prev).
Proof.
  split.
  - intros zoneData area center Harea Hcenter.
    unfold addZone. rewrite Harea, Hcenter. cbn [bind].
    eexists. split; [ reflexivity | ].
    unfold get. split.
    + rewrite !lookup_set_prop_other by discriminate.
      rewrite lookup_set_prop_same. reflexivity.
    + rewrite lookup_set_prop_other by discriminate.
      rewrite lookup_set_prop_same. reflexivity.
  - intros id updates Harea Hcenter. unfold updateZone.
    rewrite !map_map. split; apply map_ext; intro zone;
      destruct (strict_eq (get zone "id") id); try reflexivity;
      apply get_spread_absent; assumption.
Qed.

(** A circle of radius 300 as the drawing layer hands it to [addZone],
    with an area supplied by the caller. *)
Definition circle_data : object :=
  [("name", VStr "Circle 1"); ("color", VStr "blue"); ("type", VStr "circle");
   ("coordinates", VArr [VArr [VNum (decimal 458 1); VNum (of_Z 16)]]);
   ("radius", VNum (of_Z 300)); ("area", VNum (of_Z 0))].

Definition stored_circle : object :=
  [("id", VStr "z1"); ("name", VStr "Circle 1"); ("color", VStr "blue");
   ("type", VStr "circle");
   ("coordinates", VArr [VArr [VNum (decimal 458 1); VNum (of_Z 16)]]);
   ("radius", VNum (of_Z 300));
   ("area", VNum (nmul (nmul Math_PI (of_Z 300)) (of_Z 300)));
   ("center", VObj [("lat", VNum (decimal 458 1)); ("lng", VNum (of_Z 16))]);
   ("createdAt", VStr "2024-01-01T00:00:00.000Z")].

(** C8 (as stated) fails.  [addZone] does override the area it is given;
    but an update that changes the geometry, here the radius from 300 to
    600, leaves the stored area as it was, a quarter of the area of the new
    shape, and an update that carries an area stores that area. *)
Lemma updateZone_not_recomputed_counterexample :
  addZone ZoneCalculations.sample_runtime "z1" "2024-01-01T00:00:00.000Z" []
          circle_data = Ok ([stored_circle], stored_circle) /\
  (let updated := updateZone (VStr "z1") [("radius", VNum (of_Z 600))]
                             [stored_circle] in
   exists zone stale fresh,
     updated = [zone] /\
     get zone "radius" = VNum (of_Z 600) /\
     get zone "area" = VNum stale /\
     ZoneCalculations.calculateZoneArea ZoneCalculations.sample_runtime zone
     = Ok (VNum fresh) /\
     fresh = nmul (of_Z 4) stale /\ nltb stale fresh = true) /\
  map (fun zone => get zone "area")
      (updateZone (VStr "z1") [("area", VNum (of_Z 5))] [stored_circle])
  = [VNum (of_Z 5)].
Proof.
  split; [ vm_compute; reflexivity | ].
  split; [ | vm_compute; reflexivity ].
  cbv zeta. eexists. eexists. eexists.
  split; [ vm_compute; reflexivity | ].
  split; [ vm_compute; reflexivity | ].
  split; [ vm_compute; reflexivity | ].
  split; [ vm_compute; reflexivity | ].
  split; [ vm_compute; reflexivity | ].
  vm_compute. reflexivity.
Qed.

Lemma area_and_center_stored_witness :
  exists newZone : object,
    addZone ZoneCalculations.sample_runtime "z1" "2024-01-01T00:00:00.000Z" []
            circle_data = Ok ([] ++ [newZone], newZone) /\
    get newZone "area" = VNum (nmul (nmul Math_PI (of_Z 300)) (of_Z 300)) /\
    get newZone "center" =
    VObj [("lat", VNum (decimal 458 1)); ("lng", VNum (of_Z 16))].
Proof.
  apply (proj1 (area_and_center_stored ZoneCalculations.sample_runtime
                  "z1" "2024-01-01T00:00:00.000Z" [])
               circle_data).
  - reflexivity.
  - reflexivity.
Defined.

(** A rectangle is never saved under the type ['rectangle']. *)
Lemma saved_type_not_rectangle (drawingMode : string) :
  saved_type drawingMode <> "rectangle".
Proof.
  unfold saved_type.
  destruct (String.eqb drawingMode "rectangle") eqn:E; [ discriminate | ].
  intros ->. rewrite String.eqb_refl in E. discriminate E.
Qed.

(** *** Deleting, adding and updating *)

(** [deleteZone(id)] *)
Definition deleteZone (id : value) (prev : zones_state) : zones_state :=
  filter (fun zone => negb (strict_eq (get zone "id") id)) prev.

(** [clearZones()] *)
Definition clearZones (prev : zones_state) : zones_state := [].

(** The names of the properties of an object. *)
Definition keys (o : object) : list string := map fst o.

Lemma lookup_absent (o : object) (name : string) :
  ~ In name (keys o) -> lookup name o = None.
Proof.
  induction o as [|[k v] o IH]; intro Hnot; [ reflexivity | ].
  cbn [lookup]. destruct (String.eqb k name) eqn:E.
  - apply String.eqb_eq in E. subst k. exfalso. apply Hnot. left. reflexivity.
  - apply IH. intro Hin. apply Hnot. right. exact Hin.
Qed.

Lemma lookup_spread_present (o src : object) (name : string) (v : value) :
  NoDup (keys src) -> lookup name src = Some v ->
  lookup name (spread o src) = Some v.
Proof.
  revert o. unfold spread.
  induction src as [|[k w] src IH]; intros o Hnodup Hsome;
    [ discriminate Hsome | ].
  cbn [fold_left fst snd]. cbn [lookup] in Hsome.
  inversion Hnodup as [|? ? Hnot Hrest]; subst.
  destruct (String.eqb k name) eqn:E.
  - injection Hsome as <-. apply String.eqb_eq in E. subst k.
    change (fold_left (fun acc kv => set_prop acc (fst kv) (snd kv)) src
                      (set_prop o name w))
      with (spread (set_prop o name w) src).
    rewrite lookup_spread_absent by (apply lookup_absent; exact Hnot).
    apply lookup_set_prop_same.
  - apply IH; assumption.
Qed.

Lemma get_spread (o src : object) (name : string) :
  NoDup (keys src) ->
  get (spread o src) name = if has src name then get src name else get o name.
Proof.
  intro Hnodup. unfold get, has.
  destruct (lookup name src) as [v|] eqn:E.
  - rewrite (lookup_spread_present o src name v Hnodup E). reflexivity.
  - rewrite lookup_spread_absent by exact E. reflexivity.
Qed.

(** [deleteZone] removes every zone whose id is the given one and
    keeps the others, in their order; a second deletion changes nothing
    more, and the deletion of an id no zone has changes nothing at all. *)
Lemma deleteZone_removes (id : value) (prev : zones_state) :
  (forall zone, In zone (deleteZone id prev) <->
                In zone prev /\ strict_eq (get zone "id") id = false) /\
  deleteZone id (deleteZone id prev) = deleteZone id prev /\
  (Forall (fun zone => strict_eq (get zone "id") id = false) prev ->
   deleteZone id prev = prev) /\
  (length (deleteZone id prev) <= length prev)%nat.
Proof.
  unfold deleteZone. split; [ | split; [ | split ] ].
  - intro zone. rewrite filter_In, negb_true_iff. reflexivity.
  - induction prev as [|z prev IH]; [ reflexivity | ].
    cbn [filter].
    destruct (negb (strict_eq (get z "id") id)) eqn:E; [ | exact IH ].
    cbn [filter]. rewrite E, IH. reflexivity.
  - intro Hall. induction Hall as [|z prev Hz Hall IH]; [ reflexivity | ].
    cbn [filter]. rewrite Hz, IH. reflexivity.
  - apply filter_length_le.
Qed.

(** X15. A zone that was added is removed again by deleting its id: when
    the data carries no id of its own and no stored zone has the new id,
    [addZone] followed by [deleteZone] of that id gives the store back. *)
Theorem addZone_deleteZone (rt : runtime) (uuid now : string)
        (prev : zones_state) (zoneData : object) (area center : value) :
  ZoneCalculations.calculateZoneArea rt zoneData = Ok area ->
  ZoneCalculations.calculateZoneCenter rt zoneData = Ok center ->
  has zoneData "id" = false ->
  Forall (fun zone => strict_eq (get zone "id") (VStr uuid) = false) prev ->
  exists next newZone,
    addZone rt uuid now prev zoneData = Ok (next, newZone) /\
    get newZone "id" = VStr uuid /\
    deleteZone (VStr uuid) next = prev.
Proof.
  intros Harea Hcenter Hid Hfresh.
  unfold addZone. rewrite Harea, Hcenter. cbn [bind].
  do 2 eexists. split; [ reflexivity | ].
  assert (Hnew : get (set_prop
                        (set_prop
                           (set_prop (spread [("id", VStr uuid)] zoneData)
                                     "area" area) "center" center)
                        "createdAt" (VStr now)) "id" = VStr uuid).
  { unfold get. rewrite !lookup_set_prop_other by discriminate.
    unfold has in Hid.
    destruct (lookup "id" zoneData) eqn:E; [ discriminate Hid | ].
    rewrite lookup_spread_absent by exact E. reflexivity. }
  split; [ exact Hnew | ].
  unfold deleteZone. rewrite filter_app. cbn [filter].
  rewrite Hnew. cbn [strict_eq]. rewrite String.eqb_refl. cbn [negb].
  rewrite app_nil_r.
  induction Hfresh as [|z prev Hz Hall IH]; [ reflexivity | ].
  cbn [filter]. rewrite Hz, IH. reflexivity.
Qed.

Lemma addZone_deleteZone_witness :
  exists next newZone,
    addZone ZoneCalculations.sample_runtime "z1" "2024-01-01T00:00:00.000Z"
            [] circle_data = Ok (next, newZone) /\
    get newZone "id" = VStr "z1" /\
    deleteZone (VStr "z1") next = [].
Proof.
  apply (addZone_deleteZone ZoneCalculations.sample_runtime
           "z1" "2024-01-01T00:00:00.000Z" [] circle_data
           (VNum (nmul (nmul Math_PI (of_Z 300)) (of_Z 300)))
           (VObj [("lat", VNum (decimal 458 1)); ("lng", VNum (of_Z 16))])).
  - reflexivity.
  - reflexivity.
  - reflexivity.
  - constructor.
Defined.

(** X16. The zone [addZone] creates carries the data it was given: every
    property of the data other than [area], [center] and [createdAt] has the
    value the data gives it, an [id] included, which then replaces the
    generated one; the zone is added after the stored zones, which stay as
    they are. *)
Theorem addZone_keeps_data (rt : runtime) (uuid now : string)
        (prev : zones_state) (zoneData : object) (next : zones_state)
        (newZone : object) :
  NoDup (keys zoneData) ->
  addZone rt uuid now prev zoneData = Ok (next, newZone) ->
  next = prev ++ [newZone] /\
  get newZone "createdAt" = VStr now /\
  (has zoneData "id" = false -> get newZone "id" = VStr uuid) /\
  (forall name : string,
      has zoneData name = true ->
      name <> "area" -> name <> "center" -> name <> "createdAt" ->
      get newZone name = get zoneData name).
Proof.
  intros Hnodup Hadd. unfold addZone in Hadd.
  destruct (ZoneCalculations.calculateZoneArea rt zoneData) as [area|e];
    [ | discriminate Hadd ].
  destruct (ZoneCalculations.calculateZoneCenter rt zoneData) as [center|e];
    [ | discriminate Hadd ].
  cbn [bind] in Hadd. injection Hadd as <- <-.
  split; [ reflexivity | ]. split; [ | split ].
  - unfold get. rewrite lookup_set_prop_same. reflexivity.
  - intro Hid. unfold get. rewrite !lookup_set_prop_other by discriminate.
    unfold has in Hid.
    destruct (lookup "id" zoneData) eqn:E; [ discriminate Hid | ].
    rewrite lookup_spread_absent by exact E. reflexivity.
  - intros name Hhas Harea Hcenter Hcreated. unfold get.
    rewrite !lookup_set_prop_other by (intro H; symmetry in H; contradiction).
    unfold has in Hhas.
    destruct (lookup name zoneData) as [v|] eqn:E; [ | discriminate Hhas ].
    rewrite (lookup_spread_present _ _ _ _ Hnodup E). reflexivity.
Qed.

Lemma addZone_keeps_data_witness :
  [stored_circle] = [] ++ [stored_circle] /\
  get stored_circle "createdAt" = VStr "2024-01-01T00:00:00.000Z" /\
  (has circle_data "id" = false -> get stored_circle "id" = VStr "z1") /\
  (forall name : string,
      has circle_data name = true ->
      name <> "area" -> name <> "center" -> name <> "createdAt" ->
      get stored_circle name = get circle_data name).
Proof.
  apply (addZone_keeps_data ZoneCalculations.sample_runtime
           "z1" "2024-01-01T00:00:00.000Z" [] circle_data
           [stored_circle] stored_circle).
  - repeat constructor; cbn [In keys map fst circle_data];
      intuition discriminate.
  - vm_compute. reflexivity.
Defined.

(** X17. [updateZone] keeps the number and the order of the zones, leaves
    every zone of another id as it is, and gives the zone of that id the
    properties of the update: a property the update names takes its value,
    every other property keeps the value it had. *)
Theorem updateZone_merges (id : value) (updates : object)
        (prev : zones_state) :
  NoDup (keys updates) ->
  length (updateZone id updates prev) = length prev /\
  forall i : nat,
    (i < length prev)%nat ->
    (strict_eq (get (nth i prev []) "id") id = false ->
     nth i (updateZone id updates prev) [] = nth i prev []) /\
    (strict_eq (get (nth i prev []) "id") id = true ->
     forall name : string,
       get (nth i (updateZone id updates prev) []) name =
       if has updates name then get updates name
       else get (nth i prev []) name).
Proof.
  intro Hnodup. unfold updateZone. split; [ apply length_map | ].
  intros i Hi.
  set (f := fun zone : object => if strict_eq (get zone "id") id
                                 then spread zone updates else zone).
  rewrite (nth_indep (map f prev) [] (f []))
    by (rewrite length_map; exact Hi).
  rewrite (map_nth f). unfold f.
  split; intro Hid; rewrite Hid; [ reflexivity | ].
  intro name. apply get_spread. exact Hnodup.
Qed.

Lemma updateZone_merges_witness :
  length (updateZone (VStr "z1") [("name", VStr "Home"); ("color", VStr "red")]
                     [stored_circle]) = length [stored_circle] /\
  forall i : nat,
    (i < length [stored_circle])%nat ->
    (strict_eq (get (nth i [stored_circle] []) "id") (VStr "z1") = false ->
     nth i (updateZone (VStr "z1")
              [("name", VStr "Home"); ("color", VStr "red")]
              [stored_circle]) [] = nth i [stored_circle] []) /\
    (strict_eq (get (nth i [stored_circle] []) "id") (VStr "z1") = true ->
     forall name : string,
       get (nth i (updateZone (VStr "z1")
                     [("name", VStr "Home"); ("color", VStr "red")]
                     [stored_circle]) []) name =
       if has [("name", VStr "Home"); ("color", VStr "red")] name
       then get [("name", VStr "Home"); ("color", VStr "red")] name
       else get (nth i [stored_circle] []) name).
Proof.
  apply (updateZone_merges (VStr "z1")
           [("name", VStr "Home"); ("color", VStr "red")] [stored_circle]).
  repeat constructor; cbn [In keys map fst]; intuition discriminate.
Defined.

End UseZones.

(* ================================================================== *)
(** ** [shared/colors.js] *)
(* ================================================================== *)

Module Colors.

Import JsNumber Js.
Import String.StringSyntax.
Local Open Scope string_scope.
Local Open Scope list_scope.

Definition ZONE_COLORS : object :=
  [("red", VObj [("name", VStr "Crvena"); ("hex", VStr "#ef4444")]);
   ("blue", VObj [("name", VStr "Plava"); ("hex", VStr "#3b82f6")]);
   ("green", VObj [("name", VStr "Zelena"); ("hex", VStr "#10b981")]);
   ("yellow", VObj [("name", VStr "Žuta"); ("hex", VStr "#eab308")]);
   ("purple", VObj [("name", VStr "Ljubičasta"); ("hex", VStr "#a855f7")])].

(** [a || b] *)
Definition or_else (a b : value) : value := if truthy a then a else b.

(** The name a value stands for when it is used as a property key. *)
Definition property_key (rt : runtime) (key : value) : string :=
  match key with
  | VStr s => s
  | _ => ToString rt key
  end.

(** [v?.name] and, on an object, [v.name] *)
Definition member (v : value) (name : string) : value :=
  match v with
  | VObj props => get props name
  | _ => VUndefined
  end.

(** [getColorHex(colorKey)]: [ZONE_COLORS[colorKey]?.hex || '#3b82f6'].
    A key that is no colour finds nothing, or a member that every object
    inherits, none of which has a [hex]. *)
Definition getColorHex (rt : runtime) (colorKey : value) : value :=
  let color := match lookup (property_key rt colorKey) ZONE_COLORS with
               | Some c => c
               | None => VUndefined
               end in
  or_else (member color "hex") (VStr "#3b82f6").

(** [getColorOptions()] *)
Definition getColorOptions : list object :=
  map (fun entry => [("value", VStr (fst entry));
                     ("label", member (snd entry) "name");
                     ("hex", member (snd entry) "hex")])
      ZONE_COLORS.

(** X18. [getColorHex] gives every option of [getColorOptions] the hex the
    option carries, gives the hex of blue for every key that is not one of
    the five colours, and so never returns anything but a colour of the
    palette. *)
Theorem getColorHex_palette (rt : runtime) :
  (forall o : object, In o getColorOptions ->
                      getColorHex rt (get o "value") = get o "hex") /\
  (forall colorKey : value,
      ~ In (property_key rt colorKey) (map fst ZONE_COLORS) ->
      getColorHex rt colorKey = getColorHex rt (VStr "blue")) /\
  (forall colorKey : value,
      In (getColorHex rt colorKey)
         (map (fun o => get o "hex") getColorOptions)).
Proof.
  split; [ | split ].
  - intros o Hin. cbn in Hin.
    repeat (destruct Hin as [<- | Hin]; [ reflexivity | ]).
    contradiction.
  - intros colorKey Hnot. unfold getColorHex.
    rewrite (UseZones.lookup_absent ZONE_COLORS _ Hnot). reflexivity.
  - intro colorKey. unfold getColorHex.
    generalize (property_key rt colorKey). intro k.
    unfold ZONE_COLORS. cbn [lookup].
    repeat match goal with
           | |- context [String.eqb ?a k] => destruct (String.eqb a k)
           end;
      cbn; auto 10.
Qed.

End Colors.

(* ================================================================== *)
(** ** [src/context/ZonesContext.js] *)
(* ================================================================== *)

Module ZonesContext.

Import JsNumber Js.
Import String.StringSyntax.
Local Open Scope string_scope.
Local Open Scope list_scope.

(** A point of a drawing: the array [[lat, lng]] of two numbers. *)
Definition point : Type := (number * number)%type.

(** The shape being drawn: its [coordinates] and, for a circle, its [center]
    and its [radius]; a field that is [None] is absent. *)
Record shape : Type := {
  coordinates : list point;
  center : option point;
  radius : option number
}.

(** [{ coordinates }] *)
Definition polyline (ps : list point) : shape :=
  {| coordinates := ps; center := None; radius := None |}.

(** The state of the provider; [None] is [null]. *)
Record state : Type := {
  zones : UseZones.zones_state;
  drawingMode : option string;
  drawingShape : option shape;
  redoStack : list point;
  selectedZone : option object;
  colorFilter : list string
}.

Definition initial : state :=
  {| zones := [];
     drawingMode := None;
     drawingShape := None;
     redoStack := [];
     selectedZone := None;
     colorFilter := ["red"; "blue"; "green"; "yellow"; "purple"] |}.

Definition setZones (next : UseZones.zones_state) (st : state) : state :=
  {| zones := next;
     drawingMode := drawingMode st;
     drawingShape := drawingShape st;
     redoStack := redoStack st;
     selectedZone := selectedZone st;
     colorFilter := colorFilter st |}.

Definition setDrawingMode (mode : option string) (st : state) : state :=
  {| zones := zones st;
     drawingMode := mode;
     drawingShape := drawingShape st;
     redoStack := redoStack st;
     selectedZone := selectedZone st;
     colorFilter := colorFilter st |}.

Definition setDrawingShape (sh : option shape) (st : state) : state :=
  {| zones := zones st;
     drawingMode := drawingMode st;
     drawingShape := sh;
     redoStack := redoStack st;
     selectedZone := selectedZone st;
     colorFilter := colorFilter st |}.

Definition setRedoStack (stack : list point) (st : state) : state :=
  {| zones := zones st;
     drawingMode := drawingMode st;
     drawingShape := drawingShape st;
     redoStack := stack;
     selectedZone := selectedZone st;
     colorFilter := colorFilter st |}.

Definition setSelectedZone (zone : option object) (st : state) : state :=
  {| zones := zones st;
     drawingMode := drawingMode st;
     drawingShape := drawingShape st;
     redoStack := redoStack st;
     selectedZone := zone;
     colorFilter := colorFilter st |}.

Definition setColorFilter (colors : list string) (st : state) : state :=
  {| zones := zones st;
     drawingMode := drawingMode st;
     drawingShape := drawingShape st;
     redoStack := redoStack st;
     selectedZone := selectedZone st;
     colorFilter := colors |}.

(** [drawingMode === mode] *)
Definition mode_is (st : state) (mode : string) : bool :=
  match drawingMode st with
  | Some m => String.eqb m mode
  | None => false
  end.

(** *** The filter *)

(** [colorFilter.includes(v)] *)
Definition includes (colors : list string) (v : value) : bool :=
  match v with
  | VStr s => existsb (String.eqb s) colors
  | _ => false
  end.

Definition filteredZones (st : state) : list object :=
  filter (fun zone => includes (colorFilter st) (get zone "color")) (zones st).

(** [toggleColorFilter(color)] *)
Definition toggleColorFilter (color : string) (st : state) : state :=
  let prev := colorFilter st in
  setColorFilter
    (if includes prev (VStr color)
     then filter (fun c => negb (String.eqb c color)) prev
     else prev ++ [color])
    st.

Definition setAllColors (st : state) : state :=
  setColorFilter ["red"; "blue"; "green"; "yellow"; "purple"] st.

Definition clearAllColors (st : state) : state := setColorFilter [] st.

(** *** The drawing

    An action returns what it wrote with [console.warn] and the state it
    leaves. *)

Definition startDrawing (mode : option string) (st : state) : state :=
  setSelectedZone None
    (setRedoStack [] (setDrawingShape None (setDrawingMode mode st))).

Definition clearDrawing (st : state) : state :=
  setRedoStack [] (setDrawingShape None (setDrawingMode None st)).

(** [addDrawingPoint(point)], on a point [{ lat, lng }] of two numbers *)
Definition addDrawingPoint (p : point) (st : state) : list string * state :=
  if negb (mode_is st "polygon")
  then (["[ZonesContext] addDrawingPoint only works in polygon mode"], st)
  else
    let st := setRedoStack [] st in
    ([], setDrawingShape
           (match drawingShape st with
            | None => Some (polyline [p])
            | Some prev => Some (polyline (coordinates prev ++ [p]))
            end) st).

(** [undoLastPoint()] *)
Definition undoLastPoint (st : state) : list string * state :=
  if negb (mode_is st "polygon")
  then (["[ZonesContext] undoLastPoint only works in polygon mode"], st)
  else
    match drawingShape st with
    | None => ([], setDrawingShape None st)
    | Some prev =>
        match coordinates prev with
        | [] => ([], setDrawingShape None st)
        | first :: rest =>
            let lastPoint := last (coordinates prev) first in
            let st := setRedoStack (redoStack st ++ [lastPoint]) st in
            if Nat.eqb (length (coordinates prev)) 1
            then ([], setDrawingShape None st)
            else ([], setDrawingShape
                        (Some (polyline (removelast (coordinates prev)))) st)
        end
    end.

(** [redoLastPoint()] *)
Definition redoLastPoint (st : state) : list string * state :=
  if negb (mode_is st "polygon")
  then (["[ZonesContext] redoLastPoint only works in polygon mode"], st)
  else
    match redoStack st with
    | [] => (["[ZonesContext] No points to redo"], st)
    | first :: rest =>
        let pointToRestore := last (redoStack st) first in
        let st := setRedoStack (removelast (redoStack st)) st in
        ([], setDrawingShape
               (match drawingShape st with
                | None => Some (polyline [pointToRestore])
                | Some prev =>
                    Some (polyline (coordinates prev ++ [pointToRestore]))
                end) st)
    end.

(** *** Completing a drawing *)

Section WithRuntime.

Variable rt : runtime.

(** [String.prototype.toUpperCase] *)
Variable toUpperCase : string -> string.

(** [capitalize(str)] *)
Definition capitalize (str : option string) : string :=
  match str with
  | None => ""
  | Some String.EmptyString => ""
  | Some (String.String c rest) =>
      String.append (toUpperCase (String.String c String.EmptyString)) rest
  end.

(** The decimal numeral of a count. *)
Definition decimal (n : nat) : string :=
  DecimalString.NilZero.string_of_uint (Nat.to_uint n).

(** The array of the points of a drawing. *)
Definition points_value (ps : list point) : value :=
  VArr (map ZoneValidation.pair_point ps).

(** The zone [completeDrawing] builds from the drawing and the options. *)
Definition drawn_zone (options : object) (sh : shape) (st : state) : object :=
  let color := Colors.or_else (get options "color") (VStr "blue") in
  [("name",
    Colors.or_else (get options "name")
      (VStr (String.append (capitalize (drawingMode st))
               (String.append " " (decimal (length (zones st) + 1))))));
   ("color", color);
   ("colorHex", Colors.getColorHex rt color);
   ("type", match drawingMode st with
            | Some mode => VStr (UseZones.saved_type mode)
            | None => VNull
            end);
   ("coordinates", points_value (coordinates sh))]
  ++ match radius sh with
     | Some r => if mode_is st "circle" && truthy (VNum r)
                 then [("radius", VNum r)] else []
     | None => []
     end.

(** [completeDrawing(options)], with the identifier and the time [addZone]
    draws: what is logged, the state left and the value returned, the zone
    created or [null].  The [coordinates] of a shape are an array, so
    [!drawingShape.coordinates] is false whenever there is a shape. *)
Definition completeDrawing (uuid now : string) (options : object) (st : state)
  : result (list string * state * value) :=
  match drawingShape st with
  | None => Ok (["[ZonesContext] No valid drawing to complete"], st, VNull)
  | Some sh =>
      if mode_is st "polygon" && Nat.ltb (length (coordinates sh)) 3
      then Ok (["[ZonesContext] Polygon needs at least 3 points"], st, VNull)
      else
        created <- UseZones.addZone rt uuid now (zones st)
                     (drawn_zone options sh st) ;;
        Ok ([], clearDrawing (setZones (fst created) st), VObj (snd created))
  end.

End WithRuntime.

(** *** Undo and redo *)

(** The points of the drawing. *)
Definition drawn (st : state) : list point :=
  match drawingShape st with
  | None => []
  | Some sh => coordinates sh
  end.

(** A polygon being drawn: the mode is ['polygon'] and the shape, when
    there is one, is [{ coordinates }] with a point at least. *)
Definition drawing_polygon (st : state) : Prop :=
  mode_is st "polygon" = true /\
  match drawingShape st with
  | None => True
  | Some sh => sh = polyline (coordinates sh) /\ coordinates sh <> []
  end.

Lemma undoLastPoint_last (st : state) (sh : shape) (ps : list point)
      (p : point) :
  mode_is st "polygon" = true ->
  drawingShape st = Some sh ->
  coordinates sh = ps ++ [p] ->
  undoLastPoint st =
  ([], setDrawingShape (match ps with
                        | [] => None
                        | _ :: _ => Some (polyline ps)
                        end)
         (setRedoStack (redoStack st ++ [p]) st)).
Proof.
  intros Hmode Hshape Hcoords. unfold undoLastPoint.
  rewrite Hmode, Hshape. cbn [negb]. rewrite Hcoords.
  destruct (ps ++ [p]) as [|first rest] eqn:E;
    [ destruct ps; discriminate E | ].
  rewrite <- E, last_last, removelast_last, length_app.
  destruct ps as [|q ps]; [ reflexivity | ].
  cbn [length]. rewrite Nat.add_comm. reflexivity.
Qed.

Lemma redoLastPoint_last (st : state) (stack : list point) (p : point) :
  mode_is st "polygon" = true ->
  redoStack st = stack ++ [p] ->
  redoLastPoint st =
  ([], setDrawingShape (Some (polyline (drawn st ++ [p])))
         (setRedoStack stack st)).
Proof.
  intros Hmode Hstack. unfold redoLastPoint.
  rewrite Hmode, Hstack. cbn [negb].
  destruct (stack ++ [p]) as [|first rest] eqn:E;
    [ destruct stack; discriminate E | ].
  rewrite <- E, last_last, removelast_last.
  unfold drawn. cbn [setRedoStack drawingShape].
  destruct (drawingShape st); reflexivity.
Qed.

Lemma ends_with_last {A : Type} (xs : list A) :
  xs <> [] -> exists ys y, xs = ys ++ [y].
Proof.
  intro Hne. destruct (exists_last Hne) as (ys & y & ->).
  exists ys, y. reflexivity.
Qed.

(** X19. While a polygon is drawn, undo and redo undo each other: redo
    after undo gives back the state there was, and so does undo after redo;
    either leaves a polygon being drawn, and so does a point added. *)
Theorem undo_redo_round_trip (st : state) :
  drawing_polygon st ->
  (drawingShape st <> None ->
   redoLastPoint (snd (undoLastPoint st)) = ([], st)) /\
  (redoStack st <> [] ->
   undoLastPoint (snd (redoLastPoint st)) = ([], st)) /\
  drawing_polygon (snd (undoLastPoint st)) /\
  drawing_polygon (snd (redoLastPoint st)) /\
  (forall p : point, drawing_polygon (snd (addDrawingPoint p st))).
Proof.
  intros [Hmode Hshape].
  assert (Hundo : forall sh, drawingShape st = Some sh ->
                    exists ps p,
                      sh = polyline (ps ++ [p]) /\
                      undoLastPoint st =
                      ([], setDrawingShape (match ps with
                                            | [] => None
                                            | _ :: _ => Some (polyline ps)
                                            end)
                             (setRedoStack (redoStack st ++ [p]) st))).
  { intros sh Hsh. rewrite Hsh in Hshape. destruct Hshape as [Hpoly Hne].
    destruct (ends_with_last _ Hne) as (ps & p & Hps).
    exists ps, p. split; [ rewrite Hpoly, Hps; reflexivity | ].
    apply (undoLastPoint_last st sh ps p Hmode Hsh Hps). }
  assert (Hredo : forall stack p, redoStack st = stack ++ [p] ->
                    redoLastPoint st =
                    ([], setDrawingShape (Some (polyline (drawn st ++ [p])))
                           (setRedoStack stack st)))
    by (intros stack p; apply redoLastPoint_last; exact Hmode).
  split; [ | split; [ | split; [ | split ] ] ].
  - intro Hsome. destruct (drawingShape st) as [sh|] eqn:Hsh;
      [ | contradiction ].
    destruct (Hundo sh eq_refl) as (ps & p & -> & ->). cbn [snd].
    rewrite (redoLastPoint_last _ (redoStack st) p);
      [ | destruct ps; exact Hmode | destruct ps; reflexivity ].
    destruct st as [z m shape stack sel cf]. cbn in Hsh. subst shape.
    destruct ps; reflexivity.
  - intro Hstack.
    destruct (ends_with_last _ Hstack) as (stack & p & Hst).
    rewrite (Hredo stack p Hst). cbn [snd].
    rewrite (undoLastPoint_last _ (polyline (drawn st ++ [p])) (drawn st) p);
      [ | exact Hmode | reflexivity | reflexivity ].
    destruct st as [z m shape stk sel cf]. cbn in Hst, Hshape |- *.
    subst stk. unfold drawn. cbn [drawingShape].
    destruct shape as [sh|]; [ | reflexivity ].
    destruct Hshape as [Hpoly Hne].
    destruct (coordinates sh) as [|q qs] eqn:Hc; [ contradiction | ].
    rewrite Hpoly. reflexivity.
  - destruct (drawingShape st) as [sh|] eqn:Hsh.
    + destruct (Hundo sh eq_refl) as (ps & p & _ & ->). cbn [snd].
      split; [ exact Hmode | ].
      destruct ps; cbn; [ exact I | split; [ reflexivity | discriminate ] ].
    + unfold undoLastPoint. rewrite Hmode, Hsh. cbn.
      split; [ exact Hmode | exact I ].
  - destruct (redoStack st) as [|q qs] eqn:Hstack.
    + unfold redoLastPoint. rewrite Hmode, Hstack. cbn [negb snd].
      split; [ exact Hmode | exact Hshape ].
    + destruct (ends_with_last (q :: qs)) as (stack & p & Hst);
        [ discriminate | ].
      rewrite (Hredo stack p Hst).
      split; [ exact Hmode | ]. cbn.
      split; [ reflexivity | ]. destruct (drawn st); discriminate.
  - intro p. unfold addDrawingPoint. rewrite Hmode. cbn [negb snd].
    split; [ exact Hmode | ]. cbn.
    destruct (drawingShape st) as [sh|]; cbn;
      (split; [ reflexivity | ]);
      [ destruct (coordinates sh); discriminate | discriminate ].
Qed.

(** A polygon of three points with nothing to redo. *)
Definition three_points : state :=
  setDrawingShape
    (Some (polyline [(of_Z 0, of_Z 0); (of_Z 0, of_Z 1); (of_Z 1, of_Z 1)]))
    (setDrawingMode (Some "polygon") initial).

Lemma undo_redo_round_trip_witness :
  (drawingShape three_points <> None ->
   redoLastPoint (snd (undoLastPoint three_points)) = ([], three_points)) /\
  (redoStack three_points <> [] ->
   undoLastPoint (snd (redoLastPoint three_points)) = ([], three_points)) /\
  drawing_polygon (snd (undoLastPoint three_points)) /\
  drawing_polygon (snd (redoLastPoint three_points)) /\
  (forall p : point, drawing_polygon (snd (addDrawingPoint p three_points))).
Proof.
  apply (undo_redo_round_trip three_points).
  split; [ reflexivity | ]. split; [ reflexivity | discriminate ].
Defined.

(** X20. Undo and redo lose no point and make none: the points of the
    drawing followed by the points to redo, the last undone first, are the
    same before and after, in every state. *)
Theorem undo_redo_keep_points (st : state) :
  drawn (snd (undoLastPoint st)) ++ rev (redoStack (snd (undoLastPoint st))) =
  drawn st ++ rev (redoStack st) /\
  drawn (snd (redoLastPoint st)) ++ rev (redoStack (snd (redoLastPoint st))) =
  drawn st ++ rev (redoStack st).
Proof.
  destruct (mode_is st "polygon") eqn:Hmode.
  - split.
    + destruct (drawingShape st) as [sh|] eqn:Hsh.
      * destruct (coordinates sh) as [|q qs] eqn:Hc.
        -- unfold undoLastPoint. rewrite Hmode, Hsh, Hc. cbn [negb snd].
           unfold drawn. cbn [setDrawingShape drawingShape redoStack].
           rewrite Hsh, Hc. reflexivity.
        -- destruct (ends_with_last (q :: qs)) as (ps & p & Hps);
             [ discriminate | ].
           rewrite <- Hc in Hps.
           rewrite (undoLastPoint_last st sh ps p Hmode Hsh Hps).
           cbn [snd]. unfold drawn at 2. rewrite Hsh, Hps.
           unfold drawn.
           cbn [setDrawingShape setRedoStack drawingShape redoStack].
           rewrite rev_app_distr. cbn [rev app].
           rewrite <- app_assoc. destruct ps; reflexivity.
      * unfold undoLastPoint. rewrite Hmode, Hsh. cbn [negb snd].
        unfold drawn. cbn [setDrawingShape drawingShape redoStack].
        rewrite Hsh. reflexivity.
    + destruct (redoStack st) as [|q qs] eqn:Hstack.
      * unfold redoLastPoint. rewrite Hmode, Hstack. cbn [negb snd].
        rewrite Hstack. reflexivity.
      * destruct (ends_with_last (q :: qs)) as (stack & p & Hst);
          [ discriminate | ].
        rewrite <- Hstack in Hst.
        rewrite (redoLastPoint_last st stack p Hmode Hst). cbn [snd].
        rewrite <- Hstack, Hst. unfold drawn at 1.
        cbn [setDrawingShape setRedoStack drawingShape redoStack coordinates
             polyline].
        rewrite rev_app_distr. cbn [rev app].
        rewrite <- app_assoc. reflexivity.
  - unfold undoLastPoint, redoLastPoint. rewrite Hmode. cbn [negb snd].
    split; reflexivity.
Qed.

(** *** Completing a drawing *)

(** X21. [completeDrawing] refuses a drawing without a shape and a polygon
    of fewer than three points: it returns [null] and leaves the state, the
    drawing included, as it was, with one warning; it returns [null] in no
    other case. *)
Theorem completeDrawing_refuses (rt : runtime) (toUpperCase : string -> string)
        (uuid now : string) (options : object) (st : state) :
  (drawingShape st = None \/
   mode_is st "polygon" = true /\ (length (drawn st) < 3)%nat ->
   exists warning : string,
     completeDrawing rt toUpperCase uuid now options st =
     Ok ([warning], st, VNull)) /\
  (forall (warnings : list string) (st' : state),
      completeDrawing rt toUpperCase uuid now options st =
      Ok (warnings, st', VNull) ->
      drawingShape st = None \/
      mode_is st "polygon" = true /\ (length (drawn st) < 3)%nat).
Proof.
  unfold completeDrawing, drawn. split.
  - intros [Hnone | [Hmode Hlen]].
    + rewrite Hnone. eexists. reflexivity.
    + destruct (drawingShape st) as [sh|]; [ | eexists; reflexivity ].
      rewrite Hmode. apply Nat.ltb_lt in Hlen. rewrite Hlen.
      eexists. reflexivity.
  - intros warnings st' H.
    destruct (drawingShape st) as [sh|]; [ | left; reflexivity ].
    right. destruct (mode_is st "polygon"); cbn [andb] in H.
    + destruct (Nat.ltb (length (coordinates sh)) 3) eqn:Hlen.
      * split; [ reflexivity | apply Nat.ltb_lt; exact Hlen ].
      * destruct (UseZones.addZone rt uuid now (zones st)
                    (drawn_zone rt toUpperCase options sh st));
          discriminate H.
    + destruct (UseZones.addZone rt uuid now (zones st)
                  (drawn_zone rt toUpperCase options sh st));
        discriminate H.
Qed.

(** X22. The zone [completeDrawing] creates is added after the stored
    zones and the drawing is cleared; the zone has the points of the drawing,
    the colour of the options or blue, the hex [getColorHex] gives for that
    colour, and the mode as its type, ['polygon'] for a rectangle. *)
Theorem completeDrawing_saves (rt : runtime) (toUpperCase : string -> string)
        (uuid now : string) (options : object) (st st' : state)
        (warnings : list string) (zone : object) :
  completeDrawing rt toUpperCase uuid now options st =
  Ok (warnings, st', VObj zone) ->
  (warnings = [] /\ zones st' = zones st ++ [zone] /\
   drawingMode st' = None /\ drawingShape st' = None /\ redoStack st' = [] /\
   colorFilter st' = colorFilter st) /\
  get zone "id" = VStr uuid /\
  get zone "createdAt" = VStr now /\
  get zone "coordinates" = points_value (drawn st) /\
  get zone "color" = Colors.or_else (get options "color") (VStr "blue") /\
  get zone "colorHex" = Colors.getColorHex rt (get zone "color") /\
  get zone "type" = match drawingMode st with
                    | Some mode => VStr (UseZones.saved_type mode)
                    | None => VNull
                    end /\
  get zone "type" <> VStr "rectangle".
Proof.
  unfold completeDrawing, drawn. intro H.
  destruct (drawingShape st) as [sh|]; [ | discriminate H ].
  destruct (mode_is st "polygon" && Nat.ltb (length (coordinates sh)) 3);
    [ discriminate H | ].
  unfold UseZones.addZone in H.
  destruct (ZoneCalculations.calculateZoneArea rt
              (drawn_zone rt toUpperCase options sh st)) as [area|e];
    [ | discriminate H ].
  destruct (ZoneCalculations.calculateZoneCenter rt
              (drawn_zone rt toUpperCase options sh st)) as [c|e];
    [ | discriminate H ].
  cbn [bind fst snd] in H. injection H as <- <- <-.
  split; [ repeat split | ].
  assert (Htype : forall mode : option string,
             match mode with
             | Some m => VStr (UseZones.saved_type m)
             | None => VNull
             end <> VStr "rectangle").
  { intros [m|]; [ | discriminate ].
    intro Heq. injection Heq as Heq.
    exact (UseZones.saved_type_not_rectangle m Heq). }
  unfold drawn_zone.
  destruct (radius sh) as [r|];
    [ match goal with
      | |- context [if ?c then [("radius", _)] else []] => destruct c
      end | ];
    cbn [app]; unfold get, spread; cbn;
    repeat split; try reflexivity; apply Htype.
Qed.

(** A circle drawn at a point, and the zone it is saved as. *)
Definition circle_drawn : state :=
  setDrawingShape
    (Some {| coordinates := [(of_Z 45, of_Z 16)];
             center := Some (of_Z 45, of_Z 16);
             radius := Some (of_Z 300) |})
    (setDrawingMode (Some "circle") initial).

Definition saved_circle : object :=
  [("id", VStr "z1"); ("name", VStr "Home"); ("color", VStr "red");
   ("colorHex", VStr "#ef4444"); ("type", VStr "circle");
   ("coordinates", VArr [VArr [VNum (of_Z 45); VNum (of_Z 16)]]);
   ("radius", VNum (of_Z 300));
   ("area", VNum (nmul (nmul Math_PI (of_Z 300)) (of_Z 300)));
   ("center", VObj [("lat", VNum (of_Z 45)); ("lng", VNum (of_Z 16))]);
   ("createdAt", VStr "2024-01-01T00:00:00.000Z")].

Lemma completeDrawing_saves_witness :
  ([] = @nil string /\
   zones (setZones [saved_circle] initial) =
   zones circle_drawn ++ [saved_circle] /\
   drawingMode (setZones [saved_circle] initial) = None /\
   drawingShape (setZones [saved_circle] initial) = None /\
   redoStack (setZones [saved_circle] initial) = [] /\
   colorFilter (setZones [saved_circle] initial) = colorFilter circle_drawn) /\
  get saved_circle "id" = VStr "z1" /\
  get saved_circle "createdAt" = VStr "2024-01-01T00:00:00.000Z" /\
  get saved_circle "coordinates" = points_value (drawn circle_drawn) /\
  get saved_circle "color" =
  Colors.or_else (get [("name", VStr "Home"); ("color", VStr "red")] "color")
                 (VStr "blue") /\
  get saved_circle "colorHex" =
  Colors.getColorHex ZoneCalculations.sample_runtime
                     (get saved_circle "color") /\
  get saved_circle "type" = match drawingMode circle_drawn with
                            | Some mode => VStr (UseZones.saved_type mode)
                            | None => VNull
                            end /\
  get saved_circle "type" <> VStr "rectangle".
Proof.
  apply (completeDrawing_saves ZoneCalculations.sample_runtime (fun s => s)
           "z1" "2024-01-01T00:00:00.000Z"
           [("name", VStr "Home"); ("color", VStr "red")]
           circle_drawn (setZones [saved_circle] initial) [] saved_circle).
  reflexivity.
Defined.

(** What [completeDrawing] does to the store: nothing, or a zone added whose
    hex is the one [getColorHex] gives for its colour. *)
Lemma completeDrawing_zones (rt : runtime) (toUpperCase : string -> string)
      (uuid now : string) (options : object) (st st' : state)
      (warnings : list string) (created : value) :
  completeDrawing rt toUpperCase uuid now options st =
  Ok (warnings, st', created) ->
  zones st' = zones st \/
  exists zone : object,
    zones st' = zones st ++ [zone] /\
    get zone "colorHex" = Colors.getColorHex rt (get zone "color").
Proof.
  unfold completeDrawing. intro H.
  destruct (drawingShape st) as [sh|];
    [ | injection H as _ <- _; left; reflexivity ].
  destruct (mode_is st "polygon" && Nat.ltb (length (coordinates sh)) 3);
    [ injection H as _ <- _; left; reflexivity | ].
  unfold UseZones.addZone in H.
  destruct (ZoneCalculations.calculateZoneArea rt
              (drawn_zone rt toUpperCase options sh st)) as [area|e];
    [ | discriminate H ].
  destruct (ZoneCalculations.calculateZoneCenter rt
              (drawn_zone rt toUpperCase options sh st)) as [c|e];
    [ | discriminate H ].
  cbn [bind fst snd] in H. injection H as _ <- _.
  right. eexists. split; [ reflexivity | ].
  unfold drawn_zone.
  destruct (radius sh) as [r|];
    [ match goal with
      | |- context [if ?c then [("radius", _)] else []] => destruct c
      end | ];
    cbn [app]; unfold get, spread; cbn; reflexivity.
Qed.

(** *** The colour filter *)

Lemma includes_toggle (color c : string) (colors : list string) :
  includes (if includes colors (VStr color)
            then filter (fun c => negb (String.eqb c color)) colors
            else colors ++ [color]) (VStr c) =
  if String.eqb c color then negb (includes colors (VStr color))
  else includes colors (VStr c).
Proof.
  cbn [includes].
  destruct (String.eqb c color) eqn:Ec.
  - apply String.eqb_eq in Ec. subst c.
    destruct (existsb (String.eqb color) colors) eqn:E; cbn [negb].
    + clear E. induction colors as [|d colors IH]; [ reflexivity | ].
      cbn [filter]. destruct (String.eqb d color) eqn:Ed; cbn [negb].
      * exact IH.
      * cbn [existsb]. rewrite String.eqb_sym, Ed. exact IH.
    + rewrite existsb_app. cbn [existsb].
      rewrite String.eqb_refl. rewrite orb_true_r. reflexivity.
  - destruct (existsb (String.eqb color) colors) eqn:E.
    + clear E. induction colors as [|d colors IH]; [ reflexivity | ].
      cbn [filter existsb]. destruct (String.eqb d color) eqn:Ed; cbn [negb].
      * apply String.eqb_eq in Ed. subst d. rewrite Ec. exact IH.
      * cbn [existsb]. rewrite IH. reflexivity.
    + rewrite existsb_app. cbn [existsb]. rewrite Ec.
      rewrite !orb_false_r. reflexivity.
Qed.

(** X23. [toggleColorFilter] turns over the zones of the colour it is
    given and no others: a zone of that colour is shown after the call when
    it was hidden before, every other zone is shown when it was shown
    before; two calls for one colour show the zones that were shown at
    first. *)
Theorem toggleColorFilter_shown (color : string) (st : state) :
  filteredZones (toggleColorFilter color st) =
  filter (fun zone =>
            if strict_eq (get zone "color") (VStr color)
            then negb (includes (colorFilter st) (get zone "color"))
            else includes (colorFilter st) (get zone "color"))
         (zones st) /\
  filteredZones (toggleColorFilter color (toggleColorFilter color st)) =
  filteredZones st.
Proof.
  assert (Hone : forall (s : state) (v : value),
             includes (colorFilter (toggleColorFilter color s)) v =
             if strict_eq v (VStr color)
             then negb (includes (colorFilter s) v)
             else includes (colorFilter s) v).
  { intros s v. unfold toggleColorFilter. cbn [colorFilter setColorFilter].
    destruct v as [| | | |c| |]; try reflexivity.
    rewrite includes_toggle. cbn [strict_eq].
    destruct (String.eqb c color) eqn:Ec; [ | reflexivity ].
    apply String.eqb_eq in Ec. subst c. reflexivity. }
  unfold filteredZones. split.
  - apply filter_ext. intro zone. apply Hone.
  - apply filter_ext. intro zone. rewrite !Hone.
    destruct (strict_eq (get zone "color") (VStr color));
      [ apply negb_involutive | reflexivity ].
Qed.

End ZonesContext.


(* ================================================================== *)
(** ** [App.js] *)
(* ================================================================== *)

Module App.

Import JsNumber Js.
Import String.StringSyntax.
Local Open Scope string_scope.
Local Open Scope list_scope.

Import ZonesContext.

(** A toast: its message and its type. *)
Definition toast : Type := (string * string)%type.

(** [0.0015] and [0.002], the doubles of the two literals. *)
Definition latOffset : number := JsNumber.decimal 15 4.
Definition lngOffset : number := JsNumber.decimal 2 3.

(** The rectangle drawn around a tap. *)
Definition rectangleCoords (latitude longitude : number) : list point :=
  [(nadd latitude latOffset, nsub longitude lngOffset);
   (nadd latitude latOffset, nadd longitude lngOffset);
   (nsub latitude latOffset, nadd longitude lngOffset);
   (nsub latitude latOffset, nsub longitude lngOffset)].

(** The circle drawn at a tap. *)
Definition circle_shape (latitude longitude : number) : shape :=
  {| coordinates := [(latitude, longitude)];
     center := Some (latitude, longitude);
     radius := Some (of_Z 300) |}.

(** [handleMapPress(event)], on the coordinate of the event: the toast shown,
    if one is, and the state left.  The three cases are tried one after the
    other, each on the mode and the shape of the render. *)
Definition handleMapPress (latitude longitude : number) (st : state)
  : option toast * state :=
  match drawingMode st with
  | None => (None, st)
  | Some String.EmptyString => (None, st)
  | Some mode =>
      let st1 := if String.eqb mode "circle"
                 then setDrawingShape (Some (circle_shape latitude longitude)) st
                 else st in
      let st2 := if String.eqb mode "rectangle"
                 then setDrawingShape
                        (Some (polyline (rectangleCoords latitude longitude)))
                        st1
                 else st1 in
      if String.eqb mode "polygon" then
        let newPoint := (latitude, longitude) in
        match drawingShape st with
        | None => (None, setDrawingShape (Some (polyline [newPoint])) st2)
        | Some sh =>
            if Geometry.wouldIntersect (coordinates sh) newPoint
            then (Some ("Invalid point - would create crossing lines", "error"),
                  st2)
            else (None,
                  setDrawingShape
                    (Some (polyline (coordinates sh ++ [newPoint]))) st2)
        end
      else (None, st2)
  end.

(** [handleModeSelect(mode)] *)
Definition handleModeSelect (mode : string) (st : state) : state :=
  if mode_is st mode then clearDrawing st else startDrawing (Some mode) st.

(** The update [handleConfirmDetails] makes in edit mode. *)
Definition edit_updates (rt : runtime) (name color : value) : object :=
  [("name", name); ("color", color); ("colorHex", Colors.getColorHex rt color)].

(** [handleConfirmDetails({ name, color })], as far as the store and the
    drawing go: with a zone selected the zone of its id is updated, without
    one the drawing is completed. *)
Definition handleConfirmDetails (rt : runtime) (toUpperCase : string -> string)
           (uuid now : string) (selected : option object) (name color : value)
           (st : state) : result (list string * state) :=
  match selected with
  | Some zone =>
      Ok ([], setZones (UseZones.updateZone (get zone "id")
                          (edit_updates rt name color) (zones st)) st)
  | None =>
      done <- completeDrawing rt toUpperCase uuid now
                [("name", name); ("color", color)] st ;;
      Ok (fst done)
  end.

(** [handleDeleteZone], once confirmed: [deleteZone(selectedZone.id)]. *)
Definition handleDeleteZone (selected : object) (st : state) : state :=
  setZones (UseZones.deleteZone (get selected "id") (zones st)) st.

Section WithTurf.

Variable rt : runtime.
Variable Feature : Type.
Variable turf_circle : list value -> number -> nat -> string -> result Feature.
Variable turf_polygon : list (list value) -> result Feature.
Variable turf_booleanOverlap : Feature -> Feature -> result bool.
Variable turf_booleanIntersects : Feature -> Feature -> result bool.

(** The zone [handleComplete] hands to the overlap check. *)
Definition tempZone (st : state) (sh : shape) : value :=
  VObj [("type", match drawingMode st with
                 | Some mode => VStr (UseZones.saved_type mode)
                 | None => VNull
                 end);
        ("coordinates", points_value (coordinates sh));
        ("radius", match radius sh with
                   | Some r => VNum r
                   | None => VUndefined
                   end)].

(** The message of an overlap. *)
Definition overlap_message (n : nat) : string :=
  String.append "Cannot save - overlaps with "
    (String.append (decimal n)
       (String.append " zone" (if Nat.ltb 1 n then "s" else ""))).

(** [handleComplete()]: the toast shown, if one is, and whether the details
    are asked for. *)
Definition handleComplete (st : state)
  : ZoneValidation.action (option toast * bool) :=
  match drawingShape st with
  | None => ZoneValidation.ret (Some ("No shape to save", "error"), false)
  | Some sh =>
      if mode_is st "polygon" && Nat.ltb (length (coordinates sh)) 3
      then ZoneValidation.ret
             (Some ("Polygon needs at least 3 points", "error"), false)
      else
        ZoneValidation.bindA
          (ZoneValidation.checkZoneOverlap rt Feature turf_circle turf_polygon
             turf_booleanOverlap turf_booleanIntersects
             (tempZone st sh) (VArr (map VObj (zones st))))
          (fun found =>
             if ZoneValidation.hasOverlap found
             then ZoneValidation.ret
                    (Some (overlap_message
                             (length (ZoneValidation.overlappingZones found)),
                           "error"), false)
             else ZoneValidation.ret (None, true))
  end.

End WithTurf.

(** *** From a tap to a stored zone *)





(** The centre stored for the rectangle drawn by a tap need not be the
    point of the tap: for a tap at [(45.8, 16)] its longitude is the double
    next below 16. *)
Example rectangle_by_tap_off_centre :
  ZoneCalculations.mean_lat (rectangleCoords (JsNumber.decimal 458 1) (of_Z 16))
  = JsNumber.decimal 458 1 /\
  nltb (ZoneCalculations.mean_lng
          (rectangleCoords (JsNumber.decimal 458 1) (of_Z 16)))
       (of_Z 16) = true.
Proof. split; vm_compute; reflexivity. Qed.



(** *** Taps while a polygon is drawn *)

Lemma mode_is_true (st : state) (mode : string) :
  mode_is st mode = true -> drawingMode st = Some mode.
Proof.
  unfold mode_is. destruct (drawingMode st) as [m|]; [ | discriminate ].
  intro H. apply String.eqb_eq in H. subst m. reflexivity.
Qed.

Lemma handleMapPress_polygon (st : state) (p : point) :
  mode_is st "polygon" = true ->
  handleMapPress (fst p) (snd p) st =
  if Geometry.wouldIntersect (drawn st) p
  then (Some ("Invalid point - would create crossing lines", "error"), st)
  else (None, setDrawingShape (Some (polyline (drawn st ++ [p]))) st).
Proof.
  intro Hmode. apply mode_is_true in Hmode.
  unfold handleMapPress, drawn. rewrite Hmode.
  change (String.eqb "polygon" "circle") with false.
  change (String.eqb "polygon" "rectangle") with false.
  change (String.eqb "polygon" "polygon") with true.
  cbv iota. destruct p as [latitude longitude]. cbn [fst snd].
  destruct (drawingShape st) as [sh|]; reflexivity.
Qed.

(** X26. A tap on the map keeps the points to redo, where [addDrawingPoint]
    drops them: after an undo and an accepted tap, redo puts the undone
    point after the tapped one, and the guard is not asked; after an undo
    and [addDrawingPoint], redo finds nothing and leaves the drawing. *)
Theorem tap_keeps_redo (st : state) (ps : list point) (p q : point) :
  mode_is st "polygon" = true ->
  drawingShape st = Some (polyline (ps ++ [p])) ->
  Geometry.wouldIntersect ps q = false ->
  drawn (snd (redoLastPoint
                (snd (handleMapPress (fst q) (snd q)
                        (snd (undoLastPoint st)))))) = ps ++ [q; p] /\
  redoLastPoint (snd (addDrawingPoint q (snd (undoLastPoint st)))) =
  (["[ZonesContext] No points to redo"],
   snd (addDrawingPoint q (snd (undoLastPoint st)))) /\
  drawn (snd (addDrawingPoint q (snd (undoLastPoint st)))) = ps ++ [q].
Proof.
  intros Hmode Hshape Hguard.
  rewrite (undoLastPoint_last st (polyline (ps ++ [p])) ps p Hmode Hshape)
    by reflexivity.
  cbn [snd].
  set (st1 := setDrawingShape _ (setRedoStack _ st)).
  assert (Hmode1 : mode_is st1 "polygon" = true) by exact Hmode.
  assert (Hdrawn1 : drawn st1 = ps) by (destruct ps; reflexivity).
  assert (Hstack1 : redoStack st1 = redoStack st ++ [p]) by reflexivity.
  split; [ | split ].
  - rewrite (handleMapPress_polygon st1 q Hmode1), Hdrawn1, Hguard.
    cbn [snd].
    rewrite (redoLastPoint_last _ (redoStack st) p);
      [ | exact Hmode | exact Hstack1 ].
    cbn [snd]. unfold drawn.
    cbn [drawingShape setDrawingShape setRedoStack coordinates polyline].
    rewrite <- app_assoc. reflexivity.
  - unfold addDrawingPoint. rewrite Hmode1. cbn [negb snd].
    unfold redoLastPoint.
    replace (mode_is _ "polygon") with true by (symmetry; exact Hmode).
    reflexivity.
  - unfold addDrawingPoint. rewrite Hmode1. cbn [negb snd].
    unfold drawn in Hdrawn1 |- *.
    cbn [drawingShape setDrawingShape setRedoStack] in Hdrawn1 |- *.
    destruct (drawingShape st1) as [sh|]; cbn [coordinates polyline];
      rewrite <- Hdrawn1; reflexivity.
Qed.

Lemma tap_keeps_redo_witness :
  drawn (snd (redoLastPoint
                (snd (handleMapPress (fst (of_Z 1, of_Z 0))
                        (snd (of_Z 1, of_Z 0))
                        (snd (undoLastPoint three_points)))))) =
  [(of_Z 0, of_Z 0); (of_Z 0, of_Z 1)] ++
  [(of_Z 1, of_Z 0); (of_Z 1, of_Z 1)] /\
  redoLastPoint (snd (addDrawingPoint (of_Z 1, of_Z 0)
                        (snd (undoLastPoint three_points)))) =
  (["[ZonesContext] No points to redo"],
   snd (addDrawingPoint (of_Z 1, of_Z 0)
          (snd (undoLastPoint three_points)))) /\
  drawn (snd (addDrawingPoint (of_Z 1, of_Z 0)
                (snd (undoLastPoint three_points)))) =
  [(of_Z 0, of_Z 0); (of_Z 0, of_Z 1)] ++ [(of_Z 1, of_Z 0)].
Proof.
  apply (tap_keeps_redo three_points
           [(of_Z 0, of_Z 0); (of_Z 0, of_Z 1)]
           (of_Z 1, of_Z 1) (of_Z 1, of_Z 0)).
  - reflexivity.
  - reflexivity.
  - reflexivity.
Defined.




(** *** The colour and its hex *)

(** The hex of a zone is the one [getColorHex] gives for its colour. *)
Definition hex_agrees (rt : runtime) (zone : object) : Prop :=
  get zone "colorHex" = Colors.getColorHex rt (get zone "color").

(** X28. The screen keeps the hex of every stored zone in step with its
    colour: when it is so for the stored zones, it is so after
    [handleConfirmDetails], which edits the selected zone or saves the
    drawing, and after a zone is deleted. *)
Theorem hex_agrees_kept (rt : runtime) (toUpperCase : string -> string)
        (uuid now : string) (selected : option object) (name color : value)
        (st st' : state) (warnings : list string) :
  Forall (hex_agrees rt) (zones st) ->
  handleConfirmDetails rt toUpperCase uuid now selected name color st =
  Ok (warnings, st') ->
  Forall (hex_agrees rt) (zones st') /\
  forall zone : object,
    Forall (hex_agrees rt) (zones (handleDeleteZone zone st')).
Proof.
  intros Hall H.
  assert (Hnext : Forall (hex_agrees rt) (zones st')).
  { unfold handleConfirmDetails in H. destruct selected as [sel|].
    - injection H as _ <-. cbn [zones setZones]. unfold UseZones.updateZone.
      apply Forall_map. revert Hall. apply Forall_impl. intros zone Hzone.
      destruct (strict_eq (get zone "id") (get sel "id")); [ | exact Hzone ].
      unfold hex_agrees.
      assert (Hnodup : NoDup (UseZones.keys (edit_updates rt name color)))
        by (repeat constructor; cbn [In]; intuition discriminate).
      rewrite !(UseZones.get_spread _ _ _ Hnodup). reflexivity.
    - destruct (completeDrawing rt toUpperCase uuid now
                  [("name", name); ("color", color)] st)
        as [[[w s] created]|e] eqn:Hdone; [ | discriminate H ].
      cbn [bind fst] in H. injection H as _ <-.
      destruct (completeDrawing_zones _ _ _ _ _ _ _ _ _ Hdone)
        as [-> | (zone & -> & Hzone)]; [ exact Hall | ].
      apply Forall_app. split; [ exact Hall | ].
      constructor; [ exact Hzone | constructor ]. }
  split; [ exact Hnext | ].
  intro zone. unfold handleDeleteZone, UseZones.deleteZone.
  cbn [zones setZones].
  apply Forall_forall. intros z Hz. apply filter_In in Hz.
  destruct Hz as [Hz _]. revert z Hz. apply Forall_forall. exact Hnext.
Qed.

Lemma hex_agrees_kept_witness :
  Forall (hex_agrees ZoneCalculations.sample_runtime)
         (zones (setZones
                   (UseZones.updateZone (VStr "z1")
                      (edit_updates ZoneCalculations.sample_runtime
                         (VStr "Garden") (VStr "green"))
                      [saved_circle])
                   (setZones [saved_circle] initial))) /\
  forall zone : object,
    Forall (hex_agrees ZoneCalculations.sample_runtime)
           (zones (handleDeleteZone zone
                     (setZones
                        (UseZones.updateZone (VStr "z1")
                           (edit_updates ZoneCalculations.sample_runtime
                              (VStr "Garden") (VStr "green"))
                           [saved_circle])
                        (setZones [saved_circle] initial)))).
Proof.
  apply (hex_agrees_kept ZoneCalculations.sample_runtime (fun s => s)
           "z2" "2024-01-02T00:00:00.000Z" (Some saved_circle)
           (VStr "Garden") (VStr "green")
           (setZones [saved_circle] initial) _ []).
  - repeat constructor.
  - reflexivity.
Defined.

(** *** Asking for the details *)

Section Overlap.

Variable rt : runtime.
Variable Feature : Type.
Variable turf_circle : list value -> number -> nat -> string -> result Feature.
Variable turf_polygon : list (list value) -> result Feature.
Variable turf_booleanOverlap : Feature -> Feature -> result bool.
Variable turf_booleanIntersects : Feature -> Feature -> result bool.

Lemma snd_bindA_Ok {A B : Type} (m : ZoneValidation.action A)
      (k : A -> ZoneValidation.action B) (a : A) :
  snd m = Ok a -> snd (ZoneValidation.bindA m k) = snd (k a).
Proof. intro H. unfold ZoneValidation.bindA. rewrite H. reflexivity. Qed.

(** X29. [handleComplete] asks for the details of no drawing without a
    shape and of no polygon of fewer than three points, and shows an error;
    of every other drawing it asks for the details when nothing is stored
    and when the drawing converts to no geometry, whatever is stored; when
    the check finds overlapping zones it shows an error with their number
    and does not ask. *)
Theorem handleComplete_offers (st : state) :
  (drawingShape st = None \/
   mode_is st "polygon" = true /\ (length (drawn st) < 3)%nat ->
   exists message : string,
     handleComplete rt Feature turf_circle turf_polygon turf_booleanOverlap
                    turf_booleanIntersects st =
     ([], Ok (Some (message, "error"), false))) /\
  (forall sh : shape,
      drawingShape st = Some sh ->
      mode_is st "polygon" && Nat.ltb (length (coordinates sh)) 3 = false ->
      (zones st = [] \/
       snd (ZoneValidation.zoneToTurfGeometry rt Feature turf_circle
              turf_polygon (tempZone st sh)) = None ->
       snd (handleComplete rt Feature turf_circle turf_polygon
              turf_booleanOverlap turf_booleanIntersects st) =
       Ok (None, true)) /\
      (forall found : ZoneValidation.OverlapResult,
          snd (ZoneValidation.checkZoneOverlap rt Feature turf_circle
                 turf_polygon turf_booleanOverlap turf_booleanIntersects
                 (tempZone st sh) (VArr (map VObj (zones st)))) = Ok found ->
          ZoneValidation.hasOverlap found = true ->
          snd (handleComplete rt Feature turf_circle turf_polygon
                 turf_booleanOverlap turf_booleanIntersects st) =
          Ok (Some (overlap_message
                      (length (ZoneValidation.overlappingZones found)),
                    "error"), false))).
Proof.
  unfold handleComplete, drawn. split.
  - intros [Hnone | [Hmode Hlen]].
    + rewrite Hnone. eexists. reflexivity.
    + destruct (drawingShape st) as [sh|]; [ | eexists; reflexivity ].
      rewrite Hmode. apply Nat.ltb_lt in Hlen. rewrite Hlen.
      eexists. reflexivity.
  - intros sh Hsh Hguard. rewrite Hsh, Hguard. split.
    + intros [Hzones | Hnone].
      * rewrite Hzones. cbn [map].
        rewrite (snd_bindA_Ok _ _ ZoneValidation.no_overlap)
          by apply ZoneValidation.checkZoneOverlap_empty.
        reflexivity.
      * rewrite (snd_bindA_Ok _ _ ZoneValidation.no_overlap)
          by (apply ZoneValidation.checkZoneOverlap_unconvertible;
              exact Hnone).
        reflexivity.
    + intros found Hfound Hover.
      rewrite (snd_bindA_Ok _ _ found Hfound), Hover. reflexivity.
Qed.

End Overlap.

(** *** The region shown for a zone *)

(** [coords.map((c) => c[k])] *)
Fixpoint column_of (k : nat) (elems : list value) : result (list value) :=
  match elems with
  | [] => Ok []
  | c :: rest =>
      x <- get_index c k ;;
      xs <- column_of k rest ;;
      Ok (x :: xs)
  end.

Definition column (k : nat) (coords : value) : result (list value) :=
  match coords with
  | VArr elems => column_of k elems
  | _ => Throw TypeError
  end.

(** The region [zoomToZone(zone)] hands to [animateToRegion], the map being
    there. *)
Definition zoomToZone (rt : runtime) (zone : object) : result object :=
  if strict_eq (get zone "type") (VStr "circle") then
    center <- get_index (get zone "coordinates") 0 ;;
    let radiusInDegrees :=
      ndiv (ToNumber rt (get zone "radius")) (of_Z 111000) in
    latitude <- get_index center 0 ;;
    longitude <- get_index center 1 ;;
    Ok [("latitude", latitude);
        ("longitude", longitude);
        ("latitudeDelta", VNum (nmul radiusInDegrees (of_Z 3)));
        ("longitudeDelta", VNum (nmul radiusInDegrees (of_Z 3)))]
  else
    let coords := get zone "coordinates" in
    lats <- column 0 coords ;;
    lngs <- column 1 coords ;;
    let minLat := Math_min (map (ToNumber rt) lats) in
    let maxLat := Math_max (map (ToNumber rt) lats) in
    let minLng := Math_min (map (ToNumber rt) lngs) in
    let maxLng := Math_max (map (ToNumber rt) lngs) in
    let centerLat := ndiv (nadd minLat maxLat) (of_Z 2) in
    let centerLng := ndiv (nadd minLng maxLng) (of_Z 2) in
    let latDelta := nmul (nsub maxLat minLat) (JsNumber.decimal 15 1) in
    let lngDelta := nmul (nsub maxLng minLng) (JsNumber.decimal 15 1) in
    Ok [("latitude", VNum centerLat);
        ("longitude", VNum centerLng);
        ("latitudeDelta", VNum (Math_max [latDelta; JsNumber.decimal 1 2]));
        ("longitudeDelta", VNum (Math_max [lngDelta; JsNumber.decimal 1 2]))].

Lemma column_ring (ps : list (number * number)) :
  column 0 (ZoneCalculations.ring_value ps) =
  Ok (map VNum (map ZoneCalculations.lat ps)) /\
  column 1 (ZoneCalculations.ring_value ps) =
  Ok (map VNum (map ZoneCalculations.lng ps)).
Proof.
  unfold column, ZoneCalculations.ring_value.
  induction ps as [|p ps [IH0 IH1]]; [ split; reflexivity | ].
  cbn [map column_of]. rewrite IH0, IH1. split; reflexivity.
Qed.

Lemma map_ToNumber_VNum (rt : runtime) (xs : list number) :
  map (ToNumber rt) (map VNum xs) = xs.
Proof.
  induction xs as [|x xs IH]; [ reflexivity | ].
  cbn [map ToNumber]. rewrite IH. reflexivity.
Qed.

(** The side of the region: [Math.max(delta, 0.01)]. *)
Definition region_side (delta : number) : number :=
  Math_max [delta; JsNumber.decimal 1 2].

Lemma region_side_least (delta : number) :
  not_nan delta ->
  nleb (JsNumber.decimal 1 2) (region_side delta) = true /\
  nleb delta (region_side delta) = true.
Proof.
  intro Hd.
  destruct (Math_max_bound delta [JsNumber.decimal 1 2]) as (_ & _ & Hmax).
  - constructor; [ exact Hd | ]. constructor; [ reflexivity | constructor ].
  - split; apply Hmax; cbn [In]; auto.
Qed.

(** X30. For a zone that is no circle and whose coordinates are a flat
    ring of pairs of numbers, one at least and none [NaN], the region
    [zoomToZone] shows is the box of the ring made half as large again: its
    centre is half the sum of the least and the greatest latitude, and of
    the least and the greatest longitude, of the vertices; its sides are
    their differences times 1.5, and no side that is a number is shorter
    than 0.01 degrees. *)
Theorem zoomToZone_bounding_region (rt : runtime) (zone : object)
        (ps : list (number * number)) :
  strict_eq (get zone "type") (VStr "circle") = false ->
  get zone "coordinates" = ZoneCalculations.ring_value ps ->
  ps <> [] ->
  Forall not_nan (map ZoneCalculations.lat ps) ->
  Forall not_nan (map ZoneCalculations.lng ps) ->
  exists minLat maxLat minLng maxLng : number,
    bounds minLat maxLat (map ZoneCalculations.lat ps) /\
    bounds minLng maxLng (map ZoneCalculations.lng ps) /\
    zoomToZone rt zone =
    Ok [("latitude", VNum (ndiv (nadd minLat maxLat) (of_Z 2)));
        ("longitude", VNum (ndiv (nadd minLng maxLng) (of_Z 2)));
        ("latitudeDelta",
         VNum (region_side (nmul (nsub maxLat minLat) (JsNumber.decimal 15 1))));
        ("longitudeDelta",
         VNum (region_side (nmul (nsub maxLng minLng) (JsNumber.decimal 15 1))))]
    /\
    (forall delta : number,
        not_nan delta ->
        nleb (JsNumber.decimal 1 2) (region_side delta) = true /\
        nleb delta (region_side delta) = true).
Proof.
  intros Htype Hcoords Hne Hlats Hlngs.
  destruct ps as [|p0 ps]; [ contradiction | ].
  exists (Math_min (map ZoneCalculations.lat (p0 :: ps))),
         (Math_max (map ZoneCalculations.lat (p0 :: ps))),
         (Math_min (map ZoneCalculations.lng (p0 :: ps))),
         (Math_max (map ZoneCalculations.lng (p0 :: ps))).
  split; [ apply Math_min_max_bounds; exact Hlats | ].
  split; [ apply Math_min_max_bounds; exact Hlngs | ].
  split; [ | exact region_side_least ].
  unfold zoomToZone. rewrite Htype, Hcoords.
  destruct (column_ring (p0 :: ps)) as [-> ->]. cbn [bind].
  rewrite !map_ToNumber_VNum. reflexivity.
Qed.

Lemma zoomToZone_bounding_region_witness :
  exists minLat maxLat minLng maxLng : number,
    bounds minLat maxLat (map ZoneCalculations.lat ZoneCalculations.triangle) /\
    bounds minLng maxLng (map ZoneCalculations.lng ZoneCalculations.triangle) /\
    zoomToZone ZoneCalculations.sample_runtime
      (ZoneCalculations.zone_of "polygon"
         (ZoneCalculations.ring_value ZoneCalculations.triangle)) =
    Ok [("latitude", VNum (ndiv (nadd minLat maxLat) (of_Z 2)));
        ("longitude", VNum (ndiv (nadd minLng maxLng) (of_Z 2)));
        ("latitudeDelta",
         VNum (region_side (nmul (nsub maxLat minLat) (JsNumber.decimal 15 1))));
        ("longitudeDelta",
         VNum (region_side (nmul (nsub maxLng minLng) (JsNumber.decimal 15 1))))]
    /\
    (forall delta : number,
        not_nan delta ->
        nleb (JsNumber.decimal 1 2) (region_side delta) = true /\
        nleb delta (region_side delta) = true).
Proof.
  apply (zoomToZone_bounding_region ZoneCalculations.sample_runtime
           (ZoneCalculations.zone_of "polygon"
              (ZoneCalculations.ring_value ZoneCalculations.triangle))
           ZoneCalculations.triangle).
  - reflexivity.
  - reflexivity.
  - discriminate.
  - repeat constructor.
  - repeat constructor.
Defined.

End App.

